(** * Bonk.fun volume bot: session orchestration, retry engine, wallet
    lifecycle, fund recovery, configuration, pool lookup, log files and
    metrics, embedded from the TypeScript sources.

  Number model.  A JavaScript [number] that only ever holds a counter,
  a millisecond timestamp or the retry constants is an integer and is
  modelled in [Z]; amounts, rates and averages are modelled as exact
  rationals in [Q] and compared with [==], so IEEE rounding is abstracted
  away.  [Math.random()] is an oracle value [r] with [0 <= r < 1]. *)

From Stdlib Require Import ZArith QArith Qround String List Bool Lia Lqa.
From stdpp Require Import gmap strings list fin_maps pretty.

Local Open Scope string_scope.
Local Open Scope list_scope.
Local Open Scope Z_scope.

(** ** src/types/index.ts *)

Module Types.

(** [interface TransactionResult]; optional fields are [option]s. *)
Record TransactionResult : Type := mkTransactionResult
  { signature : string;
    success : bool;
    error : option string;
    executionTime : Q;
    gasUsed : option Q;
    volume : option Q }.

(** [interface TradingMetrics]. *)
Record TradingMetrics : Type := mkTradingMetrics
  { totalTransactions : Z;
    successfulTransactions : Z;
    failedTransactions : Z;
    successRate : Q;
    totalVolume : Q;
    averageTransactionTime : Q;
    totalFees : Q;
    profitLoss : Q }.

(** [interface RetryConfig] and [DEFAULT_RETRY_CONFIG]. *)
Record RetryConfig : Type := mkRetryConfig
  { maxAttempts : Z;
    baseDelay : Z;
    maxDelay : Z;
    backoffMultiplier : Z }.

Definition DEFAULT_RETRY_CONFIG : RetryConfig :=
  {| maxAttempts := 3;
     baseDelay := 1000;
     maxDelay := 10000;
     backoffMultiplier := 2 |}.

(** [enum ErrorType]. *)
Inductive ErrorType : Type :=
| CONFIGURATION_ERROR
| NETWORK_ERROR
| TRANSACTION_ERROR
| WALLET_ERROR
| VALIDATION_ERROR
| UNKNOWN_ERROR.

(** A thrown JavaScript value.  [JsError] stands for any [Error] instance
    that is not a [BotError] (what web3.js and [fs] throw), [BotError] for
    the class of that name, [NonError] for any other value except [null]
    and [undefined] (a string, a number, a plain object), carrying the
    text of its [message] property when it has one, and [Nullish] for a
    thrown [null] ([true]) or [undefined] ([false]). *)
Inductive Thrown : Type :=
| JsError (message : string)
| BotError (message : string) (type : ErrorType) (lastError : option string)
| NonError (message : option string)
| Nullish (isNull : bool).

(** [error instanceof Error ? error.message : 'Unknown error']. *)
Definition message_or_unknown (e : Thrown) : string :=
  match e with
  | JsError m => m
  | BotError m _ _ => m
  | NonError _ => "Unknown error"
  | Nullish _ => "Unknown error"
  end.

(** [error?.message] as a property value: [None] is [undefined]. *)
Definition message_of (e : Thrown) : option string :=
  match e with
  | JsError m => Some m
  | BotError m _ _ => Some m
  | NonError m => m
  | Nullish _ => None
  end.

(** [error?.message] rendered inside a template literal. *)
Definition template_message (e : Thrown) : string :=
  default "undefined" (message_of e).

(** The [TypeError] that reading [.message] of [null] or [undefined]
    raises, as V8 words it. *)
Definition messageOfNullish (isNull : bool) : Thrown :=
  JsError ("Cannot read properties of "
           +:+ (if isNull then "null" else "undefined")
           +:+ " (reading 'message')").

(** A JavaScript value used as a condition: a present, non-zero number. *)
Definition truthy (x : option Q) : bool :=
  match x with
  | Some v => negb (Qeq_bool v 0)
  | None => false
  end.

(** [x || 0] on an optional number. *)
Definition or_zero (x : option Q) : Q :=
  match x with
  | Some v => v
  | None => 0%Q
  end.

End Types.

(** ** src/utils/MetricsCollector.ts *)

Module MetricsCollector.
Import Types.

Record t : Type := mk
  { metrics : TradingMetrics;
    transactionTimes : list Q;
    startTime : Z }.

Definition zero_metrics : TradingMetrics :=
  {| totalTransactions := 0;
     successfulTransactions := 0;
     failedTransactions := 0;
     successRate := 0%Q;
     totalVolume := 0%Q;
     averageTransactionTime := 0%Q;
     totalFees := 0%Q;
     profitLoss := 0%Q |}.

(** [constructor()], at wall-clock time [now]. *)
Definition new (now : Z) : t :=
  {| metrics := zero_metrics; transactionTimes := []; startTime := now |}.

(** [reset()]: the same three assignments as the constructor. *)
Definition reset (now : Z) (c : t) : t :=
  {| metrics := zero_metrics; transactionTimes := []; startTime := now |}.

(** [calculateSuccessRate()], reading the counters of [m]. *)
Definition calculateSuccessRate (m : TradingMetrics) : Q :=
  if totalTransactions m =? 0 then 0%Q
  else ((inject_Z (successfulTransactions m) / inject_Z (totalTransactions m)) * 100)%Q.

(** [transactionTimes.reduce((sum, time) => sum + time, 0)]. *)
Definition reduce_sum (times : list Q) : Q :=
  fold_left Qplus times 0%Q.

(** [calculateAverageTransactionTime()]. *)
Definition calculateAverageTransactionTime (times : list Q) : Q :=
  if (Z.of_nat (length times) =? 0) then 0%Q
  else (reduce_sum times / inject_Z (Z.of_nat (length times)))%Q.

(** [recordTransaction(result)], statement by statement. *)
Definition recordTransaction (c : t) (result : TransactionResult) : t :=
  let m := metrics c in
  (* this.metrics.totalTransactions++ *)
  let total := totalTransactions m + 1 in
  (* if (result.success) successful++ else failed++ *)
  let succ := if success result then successfulTransactions m + 1
              else successfulTransactions m in
  let fail := if success result then failedTransactions m
              else failedTransactions m + 1 in
  let m1 := {| totalTransactions := total;
               successfulTransactions := succ;
               failedTransactions := fail;
               successRate := successRate m;
               totalVolume := totalVolume m;
               averageTransactionTime := averageTransactionTime m;
               totalFees := totalFees m;
               profitLoss := profitLoss m |} in
  (* this.metrics.successRate = this.calculateSuccessRate() *)
  let rate := calculateSuccessRate m1 in
  (* this.transactionTimes.push(result.executionTime) *)
  let times := transactionTimes c ++ [executionTime result] in
  (* this.metrics.averageTransactionTime = ... *)
  let avg := calculateAverageTransactionTime times in
  (* if (result.volume) totalVolume += result.volume *)
  let vol := if truthy (volume result)
             then (totalVolume m + or_zero (volume result))%Q
             else totalVolume m in
  (* if (result.gasUsed) totalFees += result.gasUsed *)
  let fees := if truthy (gasUsed result)
              then (totalFees m + or_zero (gasUsed result))%Q
              else totalFees m in
  {| metrics := {| totalTransactions := total;
                   successfulTransactions := succ;
                   failedTransactions := fail;
                   successRate := rate;
                   totalVolume := vol;
                   averageTransactionTime := avg;
                   totalFees := fees;
                   profitLoss := profitLoss m |};
     transactionTimes := times;
     startTime := startTime c |}.

(** [isHealthy()].  The [getPerformanceStats()] call on its first line
    only reads fields and its result is not used. *)
Definition isHealthy (c : t) : bool :=
  (0 <? totalTransactions (metrics c))
  && Qle_bool 80 (successRate (metrics c))
  && Qle_bool (averageTransactionTime (metrics c)) 30000.

(** A sequence of [recordTransaction] calls, oldest first. *)
Definition recordAll (c : t) (results : list TransactionResult) : t :=
  fold_left recordTransaction results c.

(** The arithmetic mean of a list, as the specification words it: the sum
    of the values divided by their number, and 0 for no values. *)
Definition arithmetic_mean (xs : list Q) : Q :=
  match xs with
  | [] => 0%Q
  | _ => (fold_right Qplus 0 xs / inject_Z (Z.of_nat (length xs)))%Q
  end.

(** The number of successful results in a list. *)
Definition count_success (rs : list TransactionResult) : Z :=
  Z.of_nat (length (filter (fun r => success r = true) rs)).

(** What the specification promises about the stored metrics after the
    results [rs] were recorded. *)
Definition accounted (rs : list TransactionResult) (c : MetricsCollector.t) : Prop :=
  let m := metrics c in
  totalTransactions m = successfulTransactions m + failedTransactions m
  /\ totalTransactions m = Z.of_nat (length rs)
  /\ successfulTransactions m = count_success rs
  /\ (successRate m ==
        if totalTransactions m =? 0 then 0
        else 100 * inject_Z (successfulTransactions m)
             / inject_Z (totalTransactions m))%Q
  /\ (averageTransactionTime m == arithmetic_mean (map executionTime rs))%Q.

End MetricsCollector.

(** ** src/managers/TransactionManager.ts *)

Module TransactionManager.
Import Types.

(** What happens during one call of [sendTransaction]: [signed] is the
    outcome of compiling the message and signing it, every other field
    the outcome of one awaited RPC; [inl] is a throw or a rejected
    promise.  [simulation] and [confirmation] carry [value.err], already
    rendered by [JSON.stringify]. *)
Record LedgerAttempt : Type := mkLedgerAttempt
  { latestBlockhash : Thrown + (string * Z);
    signed : Thrown + unit;
    simulation : Thrown + option string;
    submitted : Thrown + string;
    confirmation : Thrown + option string }.

(** One logical operation as the engine sees it: the ledger's answers to
    attempt 1, 2, ...  Instructions and signers are opaque. *)
Definition Operation : Type := Z -> LedgerAttempt.

(** [simulateTransaction(transaction)]: rethrows whatever it catches. *)
Definition simulateTransaction (a : LedgerAttempt) : Thrown + unit :=
  match simulation a with
  | inl e => inl e
  | inr (Some err) =>
      inl (BotError ("Transaction simulation failed: " +:+ err)
                    TRANSACTION_ERROR None)
  | inr None => inr tt
  end.

(** [confirmTransaction(signature, blockhash, lastValidBlockHeight)]. *)
Definition confirmTransaction (a : LedgerAttempt) : Thrown + unit :=
  match confirmation a with
  | inl e => inl e
  | inr (Some err) =>
      inl (BotError ("Transaction confirmation failed: " +:+ err)
                    TRANSACTION_ERROR None)
  | inr None => inr tt
  end.

(** [sendTransaction(instructions, signers, options)]. *)
Definition sendTransaction (debugMode : bool) (a : LedgerAttempt)
  : Thrown + string :=
  match latestBlockhash a with
  | inl e => inl e
  | inr _ =>
      match signed a with
      | inl e => inl e
      | inr _ =>
          match (if debugMode then simulateTransaction a else inr tt) with
          | inl e => inl e
          | inr _ =>
              match submitted a with
              | inl e => inl e
              | inr signature =>
                  match confirmTransaction a with
                  | inl e => inl e
                  | inr _ => inr signature
                  end
              end
          end
      end
  end.

(** [calculateRetryDelay(attempt)]; [Math.pow] on the integers the loop
    passes ([attempt >= 1]) is integer exponentiation. *)
Definition calculateRetryDelay (attempt : Z) : Z :=
  let baseDelay := baseDelay DEFAULT_RETRY_CONFIG in
  let maxDelay := maxDelay DEFAULT_RETRY_CONFIG in
  let multiplier := backoffMultiplier DEFAULT_RETRY_CONFIG in
  let delay := baseDelay * Z.pow multiplier (attempt - 1) in
  Z.min delay maxDelay.

(** The retry formula in the words of the specification, for any policy. *)
Definition spec_retry_delay (p : RetryConfig) (k : Z) : Z :=
  Z.min (baseDelay p * backoffMultiplier p ^ (k - 1)) (maxDelay p).

(** What one run of [executeTransaction] did: its result ([inl] = thrown),
    how many times it called [sendTransaction], and the delays it slept. *)
Record Execution : Type := mkExecution
  { outcome : Thrown + string;
    attemptsMade : Z;
    slept : list Z }.

(** [lastError?.message] as a property value. *)
Definition optional_message (lastError : option Thrown) : option string :=
  match lastError with
  | Some e => message_of e
  | None => None
  end.

(** [`${lastError?.message}`]. *)
Definition rendered_message (lastError : option Thrown) : string :=
  match lastError with
  | Some e => template_message e
  | None => "undefined"
  end.

(** The [BotError] built after the loop of [executeTransaction]. *)
Definition exhausted (maxAttempts : Z) (lastError : option Thrown) : Thrown :=
  BotError ("Transaction failed after " +:+ pretty maxAttempts
            +:+ " attempts: " +:+ rendered_message lastError)
           TRANSACTION_ERROR
           (optional_message lastError).

(** The loop [for (attempt = 1; attempt <= maxAttempts; attempt++)] of
    [executeTransaction], with [remaining] iterations left to run.  The
    [catch] block reads [lastError.message] unguarded: on a rejection
    with [null] or [undefined] that read throws out of the method. *)
Fixpoint retryLoop (debugMode : bool) (op : Operation) (maxAttempts : Z)
    (remaining : nat) (attempt : Z) (lastError : option Thrown)
    (delays : list Z) : Execution :=
  match remaining with
  | O =>
      {| outcome := inl (exhausted maxAttempts lastError);
         attemptsMade := attempt - 1;
         slept := delays |}
  | S remaining' =>
      match sendTransaction debugMode (op attempt) with
      | inr signature =>
          {| outcome := inr signature;
             attemptsMade := attempt;
             slept := delays |}
      | inl (Nullish isNull) =>
          {| outcome := inl (messageOfNullish isNull);
             attemptsMade := attempt;
             slept := delays |}
      | inl error =>
          let delays' :=
            if attempt <? maxAttempts
            then delays ++ [calculateRetryDelay attempt]
            else delays in
          retryLoop debugMode op maxAttempts remaining' (attempt + 1)
                    (Some error) delays'
      end
  end.

(** [executeTransaction(instructions, signers, options)]. *)
Definition executeTransaction (debugMode : bool) (op : Operation) : Execution :=
  let maxAttempts := maxAttempts DEFAULT_RETRY_CONFIG in
  retryLoop debugMode op maxAttempts (Z.to_nat maxAttempts) 1 None [].

(** Time one run took on a clock that only timers advance. *)
Definition elapsed (x : Execution) : Z := fold_right Z.add 0 (slept x).

(** Element type of the arrays [executeTransactionsParallel] returns. *)
Record BatchResult : Type := mkBatchResult
  { batch_success : bool;
    batch_signature : option string;
    batch_error : option string }.

(** The async callback given to [transactions.map] in
    [executeTransactionsParallel]: it catches, so its promise fulfils. *)
Definition parallelTask (debugMode : bool) (tx : Operation) : BatchResult :=
  match outcome (executeTransaction debugMode tx) with
  | inr signature =>
      {| batch_success := true;
         batch_signature := Some signature;
         batch_error := None |}
  | inl error =>
      {| batch_success := false;
         batch_signature := None;
         batch_error := Some (message_or_unknown error) |}
  end.

(** [executeTransactionsParallel(transactions)]: [Promise.all] over
    promises that all fulfil yields their values in input order. *)
Definition executeTransactionsParallel (debugMode : bool)
    (transactions : list Operation) : list BatchResult :=
  map (parallelTask debugMode) transactions.


(** A rejection the [catch] block of [executeTransaction] survives: any
    value but [null] and [undefined]. *)
Definition retryable (e : Thrown) : Prop :=
  forall isNull, e <> Nullish isNull.

(** Attempt [k] fails with such a rejection, so that the loop goes on. *)
Definition retriedAt (debugMode : bool) (op : Operation) (k : Z) : Prop :=
  exists e, sendTransaction debugMode (op k) = inl e /\ retryable e.




End TransactionManager.

(** ** The part of Node's [fs] and [path] the wallet manager uses *)

Module Fs.
Import Types.

(** What [saveWallet] serialises with [JSON.stringify]. *)
Record WalletData : Type := mkWalletData
  { wd_publicKey : string;
    wd_secretKey : list Z;
    wd_balance : Q;
    wd_tokenBalance : Q;
    wd_createdAt : Z;
    wd_transactionCount : Z }.

(** A regular file: [content] is [None] when its bytes do not parse to a
    wallet record, so that [JSON.parse] or [Keypair.fromSecretKey] throws. *)
Record File : Type := mkFile
  { birthtime : Z;
    content : option WalletData }.

(** What a path names: a directory with its entries, or something that
    is not a directory. *)
Inductive Node : Type :=
| Directory (entries : gmap string File)
| Regular (file : File).

(** The paths that exist.  Segments are plain names, so [path.join] is
    concatenation with a separator. *)
Abbreviation t := (gmap string Node).

Definition join (dir name : string) : string := dir +:+ "/" +:+ name.

Definition existsSync (fs : t) (path : string) : bool :=
  match fs !! path with Some _ => true | None => false end.

(** [fs.mkdirSync(dir, { recursive: true })] of a path that does not
    exist. *)
Definition mkdirSync (fs : t) (dir : string) : t :=
  <[dir := Directory ∅]> fs.

(** [fs.readdirSync(dir)]. *)
Definition readdirSync (fs : t) (dir : string) : Thrown + list string :=
  match fs !! dir with
  | Some (Directory d) => inr (map_to_list d).*1
  | Some (Regular _) => inl (JsError "ENOTDIR: not a directory, scandir")
  | None => inl (JsError "ENOENT: no such file or directory, scandir")
  end.

(** [fs.statSync(path)] and [fs.readFileSync(path)] of an entry of [dir];
    [None] when they throw. *)
Definition lookupFile (fs : t) (dir name : string) : option File :=
  match fs !! dir with
  | Some (Directory d) => d !! name
  | _ => None
  end.

(** [fs.writeFileSync(path.join(dir, name), data)] at time [now]; an
    existing file keeps its birth time. *)
Definition writeFileSync (fs : t) (dir name : string) (now : Z)
    (data : WalletData) : Thrown + t :=
  match fs !! dir with
  | None => inl (JsError "ENOENT: no such file or directory, open")
  | Some (Regular _) => inl (JsError "ENOTDIR: not a directory, open")
  | Some (Directory d) =>
      let born := match d !! name with
                  | Some f => birthtime f
                  | None => now
                  end in
      inr (<[dir := Directory
                      (<[name := {| birthtime := born; content := Some data |}]> d)]> fs)
  end.

(** [file.endsWith(suffix)]. *)
Definition endsWith (file suffix : string) : bool :=
  let n := String.length file in
  let m := String.length suffix in
  (m <=? n)%nat && String.eqb (substring (n - m) m file) suffix.

End Fs.

(** ** src/managers/WalletManager.ts *)

Module WalletManager.
Import Types Fs.

(** A web3.js [Keypair]. *)
Record Keypair : Type := mkKeypair
  { publicKey : string;
    secretKey : list Z }.

Definition walletsDir : string := join "data" "wallets".
Definition backupDir : string := join "data" "backup".

(** [ensureDirectories()], run by the constructor. *)
Definition ensureDirectories (fs : Fs.t) : Fs.t :=
  fold_left (fun fs dir => if negb (existsSync fs dir) then mkdirSync fs dir else fs)
            [walletsDir; backupDir] fs.

(** [saveWallet(wallet, tokenMint?)]: [tokenMint] is accepted and not
    used; the file goes to [walletsDir] itself. *)
Definition saveWallet (fs : Fs.t) (now : Z) (wallet : Keypair)
    (tokenMint : option string) : Thrown + Fs.t :=
  let filename := "wallet_" +:+ publicKey wallet +:+ ".json" in
  let walletData :=
    {| wd_publicKey := publicKey wallet;
       wd_secretKey := secretKey wallet;
       wd_balance := 0%Q;
       wd_tokenBalance := 0%Q;
       wd_createdAt := now;
       wd_transactionCount := 0 |} in
  writeFileSync fs walletsDir filename now walletData.

(** The loop of [createWallets(count)]: [generate i] is the key pair the
    [i]-th call of [Keypair.generate()] returns; a wallet whose save
    throws is logged and left out. *)
Fixpoint createLoop (generate : nat -> Keypair) (now : Z)
    (remaining : nat) (i : nat) (fs : Fs.t) (wallets : list Keypair)
  : list Keypair * Fs.t :=
  match remaining with
  | O => (wallets, fs)
  | S remaining' =>
      let wallet := generate i in
      match saveWallet fs now wallet None with
      | inr fs' =>
          createLoop generate now remaining' (S i) fs' (wallets ++ [wallet])
      | inl _ =>
          createLoop generate now remaining' (S i) fs wallets
      end
  end.

(** [createWallets(count)], drawing keys [first], [first + 1], ... *)
Definition createWallets (generate : nat -> Keypair) (first : nat)
    (now : Z) (count : Z) (fs : Fs.t) : list Keypair * Fs.t :=
  createLoop generate now (Z.to_nat count) first fs [].

(** The body of the [for (const file of files)] loop of
    [getWalletsForSelling]: the key pair pushed for [file], if any. *)
Definition sellCandidate (fs : Fs.t) (dir : string) (now : Z)
    (file : string) : option Keypair :=
  if negb (endsWith file ".json") then None
  else
    match lookupFile fs dir file with
    | None => None
    | Some f =>
        let minAge := 30000 in
        let age := now - birthtime f in
        if minAge <=? age then
          match content f with
          | Some walletData =>
              Some {| publicKey := wd_publicKey walletData;
                      secretKey := wd_secretKey walletData |}
          | None => None
          end
        else None
    end.

(** [getWalletsForSelling(tokenMint)] at time [now]; [readdirSync] is
    outside the per-file [try], so what it throws leaves the method. *)
Definition getWalletsForSelling (fs : Fs.t) (now : Z) (tokenMint : string)
  : Thrown + list Keypair :=
  let tokenWalletsDir := join walletsDir tokenMint in
  if negb (existsSync fs tokenWalletsDir) then inr []
  else
    match readdirSync fs tokenWalletsDir with
    | inl error => inl error
    | inr files => inr (omap (sellCandidate fs tokenWalletsDir now) files)
    end.

End WalletManager.

(** ** [BotConfig] and the class [TradingSession] of src/types/index.ts *)

Module Range.
(** The [{ min: number; max: number }] objects of [BotConfig]. *)
Record t : Type := mk { min : Q; max : Q }.
End Range.

Module TradingSession.

Record BotConfig : Type := mkBotConfig
  { tokenMint : string;
    buyAmount : Range.t;
    sellAmount : Range.t;
    walletCount : Range.t;
    delay : Range.t;
    cycles : Z;
    jitoTip : Q;
    dryRun : option bool }.

Record t : Type := mk
  { id : string;
    config : BotConfig;
    startTime : Z;
    endTime : option Z;
    isActive : bool;
    totalTransactions : Z;
    successfulTransactions : Z;
    failedTransactions : Z;
    totalVolume : Q }.

(** [new TradingSession(config)]; [id] is what [generateSessionId()]
    returned and [now] the time of the call. *)
Definition new (id : string) (now : Z) (config : BotConfig) : t :=
  {| id := id;
     config := config;
     startTime := now;
     endTime := None;
     isActive := false;
     totalTransactions := 0;
     successfulTransactions := 0;
     failedTransactions := 0;
     totalVolume := 0%Q |}.

(** [getSuccessRate()]. *)
Definition getSuccessRate (s : t) : Q :=
  if totalTransactions s =? 0 then 0%Q
  else ((inject_Z (successfulTransactions s) / inject_Z (totalTransactions s)) * 100)%Q.

(** [getDuration()] when read at time [now]. *)
Definition getDuration (now : Z) (s : t) : Z :=
  match endTime s with
  | Some e => e - startTime s
  | None => now - startTime s
  end.

(** The assignments [executeSession] makes to the session. *)
Definition set_isActive (b : bool) (s : t) : t :=
  {| id := id s; config := config s; startTime := startTime s;
     endTime := endTime s; isActive := b;
     totalTransactions := totalTransactions s;
     successfulTransactions := successfulTransactions s;
     failedTransactions := failedTransactions s;
     totalVolume := totalVolume s |}.

Definition set_endTime (now : Z) (s : t) : t :=
  {| id := id s; config := config s; startTime := startTime s;
     endTime := Some now; isActive := isActive s;
     totalTransactions := totalTransactions s;
     successfulTransactions := successfulTransactions s;
     failedTransactions := failedTransactions s;
     totalVolume := totalVolume s |}.

(** The counter updates of the batch loops. *)
Definition set_counters (total succ failed : Z) (vol : Q) (s : t) : t :=
  {| id := id s; config := config s; startTime := startTime s;
     endTime := endTime s; isActive := isActive s;
     totalTransactions := total;
     successfulTransactions := succ;
     failedTransactions := failed;
     totalVolume := vol |}.

End TradingSession.

(** ** src/core/TradingEngine.ts *)

Module TradingEngine.
Import Types.
Import WalletManager (Keypair, publicKey).

(** Collaborators of the engine, as oracles.  [operation n] is how the
    ledger answers the [n]-th operation the engine launches, [random n]
    the [n]-th value of [Math.random()], [generate n] the [n]-th fresh
    key pair, and [stopRequested c] tells whether [stop()] runs on the
    event loop while cycle number [c] awaits ([c = 0]: while the pool
    lookup awaits). *)
Record Env : Type := mkEnv
  { isDebugMode : bool;
    getPoolInfo : string -> option string;
    getSwapInstruction : string -> Q -> string -> bool -> option string;
    operation : nat -> TransactionManager.Operation;
    random : nat -> Q;
    generate : nat -> Keypair;
    stopRequested : Z -> bool }.

(** Why the engine sleeps. *)
Inductive Pause : Type := Settlement | BetweenBatches | BetweenCycles.

(** What an observer sees of a session, oldest first. *)
Inductive Event : Type :=
| CycleStarted (cycleNumber : Z)
| CycleCompleted (cycleNumber : Z)
| Slept (why : Pause) (ms : Q).

(** The mutable objects [executeSession] reaches: the session passed by
    reference, the engine's [isRunning], the metrics collector, the
    wallet files, the clock (advanced by timers only), and how many
    oracle values were consumed. *)
Record State : Type := mkState
  { session : TradingSession.t;
    isRunning : bool;
    collector : MetricsCollector.t;
    files : Fs.t;
    now : Z;
    draws : nat;
    generated : nat;
    launched : nat;
    trace : list Event }.

Definition with_session (f : TradingSession.t -> TradingSession.t) (s : State) : State :=
  {| session := f (session s); isRunning := isRunning s;
     collector := collector s; files := files s; now := now s;
     draws := draws s; generated := generated s; launched := launched s;
     trace := trace s |}.

Definition set_isRunning (b : bool) (s : State) : State :=
  {| session := session s; isRunning := b;
     collector := collector s; files := files s; now := now s;
     draws := draws s; generated := generated s; launched := launched s;
     trace := trace s |}.

Definition set_books (sess : TradingSession.t) (c : MetricsCollector.t)
    (s : State) : State :=
  {| session := sess; isRunning := isRunning s;
     collector := c; files := files s; now := now s;
     draws := draws s; generated := generated s; launched := launched s;
     trace := trace s |}.

Definition set_files (fs : Fs.t) (n : nat) (s : State) : State :=
  {| session := session s; isRunning := isRunning s;
     collector := collector s; files := fs; now := now s;
     draws := draws s; generated := n; launched := launched s;
     trace := trace s |}.

Definition set_draws (n : nat) (s : State) : State :=
  {| session := session s; isRunning := isRunning s;
     collector := collector s; files := files s; now := now s;
     draws := n; generated := generated s; launched := launched s;
     trace := trace s |}.

Definition set_launched (n : nat) (s : State) : State :=
  {| session := session s; isRunning := isRunning s;
     collector := collector s; files := files s; now := now s;
     draws := draws s; generated := generated s; launched := n;
     trace := trace s |}.

Definition advance (ms : Z) (s : State) : State :=
  {| session := session s; isRunning := isRunning s;
     collector := collector s; files := files s; now := now s + ms;
     draws := draws s; generated := generated s; launched := launched s;
     trace := trace s |}.

Definition emit (e : Event) (s : State) : State :=
  {| session := session s; isRunning := isRunning s;
     collector := collector s; files := files s; now := now s;
     draws := draws s; generated := generated s; launched := launched s;
     trace := trace s ++ [e] |}.

(** Computations that mutate the state and may throw; a throw keeps the
    mutations made so far, as in JavaScript. *)
Definition M (A : Type) : Type := State -> (Thrown + A) * State.

Definition ret {A} (a : A) : M A := fun s => (inr a, s).
Definition throw {A} (e : Thrown) : M A := fun s => (inl e, s).
Definition bind {A B} (m : M A) (k : A -> M B) : M B :=
  fun s => match m s with
           | (inr a, s') => k a s'
           | (inl e, s') => (inl e, s')
           end.
Definition get : M State := fun s => (inr s, s).
Definition modify (f : State -> State) : M unit := fun s => (inr tt, f s).

(** Awaiting a call that returned or threw. *)
Definition await {A} (r : Thrown + A) : M A := fun s => (r, s).

(** [try { body } catch (error) { handler }]. *)
Definition tryCatch {A} (body : M A) (handler : Thrown -> M A) : M A :=
  fun s => match body s with
           | (inl e, s') => handler e s'
           | (inr a, s') => (inr a, s')
           end.

(** [try { body } finally { cleanup }]. *)
Definition tryFinally {A} (body : M A) (cleanup : State -> State) : M A :=
  fun s => let (r, s') := body s in (r, cleanup s').

Notation "'let*' x := m 'in' k" := (bind m (fun x => k))
  (at level 10, x name, m at level 100, k at level 200).
Notation "'run' m 'then' k" := (bind m (fun _ => k))
  (at level 10, m at level 100, k at level 200).

(** [getRandomAmount(range)], with [r] the value of [Math.random()].
    The three draws are computed exactly; in doubles each operation
    rounds, so that for [r] just below 1 the sum can reach [max] where
    the exact value stays below it.  Nothing is stated below that tells
    the two apart: bounds are closed intervals. *)
Definition getRandomAmount (range : Range.t) (r : Q) : Q :=
  let rangeSize := (Range.max range - Range.min range)%Q in
  let randomValue := (r * rangeSize)%Q in
  (Range.min range + randomValue)%Q.

(** [getRandomWalletCount(range)]. *)
Definition getRandomWalletCount (range : Range.t) (r : Q) : Z :=
  let rangeSize := (Range.max range - Range.min range)%Q in
  let randomValue := (r * rangeSize)%Q in
  Qfloor (Range.min range + randomValue).

(** [getRandomDelay(range)]. *)
Definition getRandomDelay (range : Range.t) (r : Q) : Q :=
  let rangeSize := (Range.max range - Range.min range)%Q in
  let randomValue := (r * rangeSize)%Q in
  (Range.min range + randomValue)%Q.

(** One call of [Math.random()]. *)
Definition mathRandom (env : Env) : M Q :=
  fun s => (inr (random env (draws s)), set_draws (S (draws s)) s).

(** [await this.delay(ms)]: the timer fires after [ms] milliseconds. *)
Definition sleep (why : Pause) (ms : Q) : M unit :=
  modify (fun s => advance (Qfloor ms) (emit (Slept why ms) s)).

(** How a promise settled, as [Promise.allSettled] reports it. *)
Inductive Settled (A : Type) : Type :=
| fulfilled (value : A)
| rejected (reason : Thrown).
Arguments fulfilled {A} value.
Arguments rejected {A} reason.

(** The [catch] block shared by [executeBuyTransaction] and
    [executeSellTransaction]: it returns a failed result. *)
Definition failedResult (error : Thrown) (executionTime : Z) : TransactionResult :=
  {| signature := "";
     success := false;
     error := Some (message_or_unknown error);
     executionTime := inject_Z executionTime;
     gasUsed := None;
     volume := None |}.

(** The [try] block of both executors up to the returned signature,
    paired with the time it ran ([Date.now() - startTime]). *)
Definition swapAndSend (env : Env) (notFound : string) (tokenMint : string)
    (amount : Q) (wallet : Keypair) (isSell : bool)
    (op : TransactionManager.Operation) : (Thrown + string) * Z :=
  match getSwapInstruction env tokenMint amount (publicKey wallet) isSell with
  | None => (inl (BotError notFound TRANSACTION_ERROR None), 0)
  | Some _ =>
      let x := TransactionManager.executeTransaction (isDebugMode env) op in
      (TransactionManager.outcome x, TransactionManager.elapsed x)
  end.

(** [executeBuyTransaction(tokenMint, amount, wallet)]: how the returned
    promise settles, and after how long. *)
Definition executeBuyTransaction (env : Env) (tokenMint : string)
    (amount : Q) (wallet : Keypair) (op : TransactionManager.Operation)
  : Settled TransactionResult * Z :=
  let attempt :=
    swapAndSend env "Failed to get swap instruction" tokenMint amount wallet false op in
  let executionTime := snd attempt in
  match fst attempt with
  | inr signature =>
      (fulfilled {| signature := signature;
                    success := true;
                    error := None;
                    executionTime := inject_Z executionTime;
                    gasUsed := None;
                    volume := Some amount |}, executionTime)
  | inl error => (fulfilled (failedResult error executionTime), executionTime)
  end.

(** [executeSellTransaction(tokenMint, amount, wallet)]. *)
Definition executeSellTransaction (env : Env) (tokenMint : string)
    (amount : Q) (wallet : Keypair) (op : TransactionManager.Operation)
  : Settled TransactionResult * Z :=
  let attempt :=
    swapAndSend env "Failed to get sell instruction" tokenMint amount wallet true op in
  let executionTime := snd attempt in
  match fst attempt with
  | inr signature =>
      (fulfilled {| signature := signature;
                    success := true;
                    error := None;
                    executionTime := inject_Z executionTime;
                    gasUsed := None;
                    volume := Some amount |}, executionTime)
  | inl error => (fulfilled (failedResult error executionTime), executionTime)
  end.

(** The session and the collector, which the result loops update. *)
Definition Books : Type := (TradingSession.t * MetricsCollector.t)%type.

(** Body of [for (const result of results)] in [executeBuyTransactions]. *)
Definition processBuyResult (buyAmount : Q) (books : Books)
    (result : Settled TransactionResult) : Books :=
  let (s, c) := books in
  match result with
  | fulfilled value =>
      let total := TradingSession.totalTransactions s + 1 in
      let s' :=
        if success value
        then TradingSession.set_counters total
               (TradingSession.successfulTransactions s + 1)
               (TradingSession.failedTransactions s)
               (TradingSession.totalVolume s + buyAmount)%Q s
        else TradingSession.set_counters total
               (TradingSession.successfulTransactions s)
               (TradingSession.failedTransactions s + 1)
               (TradingSession.totalVolume s) s in
      (s', MetricsCollector.recordTransaction c value)
  | rejected _ =>
      (TradingSession.set_counters
         (TradingSession.totalTransactions s)
         (TradingSession.successfulTransactions s)
         (TradingSession.failedTransactions s + 1)
         (TradingSession.totalVolume s) s, c)
  end.

(** Body of [for (const result of results)] in [executeSellBatch]. *)
Definition processSellResult (books : Books)
    (result : Settled TransactionResult) : Books :=
  let (s, c) := books in
  match result with
  | fulfilled value =>
      let total := TradingSession.totalTransactions s + 1 in
      let s' :=
        if success value
        then TradingSession.set_counters total
               (TradingSession.successfulTransactions s + 1)
               (TradingSession.failedTransactions s)
               (TradingSession.totalVolume s + or_zero (volume value))%Q s
        else TradingSession.set_counters total
               (TradingSession.successfulTransactions s)
               (TradingSession.failedTransactions s + 1)
               (TradingSession.totalVolume s) s in
      (s', MetricsCollector.recordTransaction c value)
  | rejected _ =>
      (TradingSession.set_counters
         (TradingSession.totalTransactions s)
         (TradingSession.successfulTransactions s)
         (TradingSession.failedTransactions s + 1)
         (TradingSession.totalVolume s) s, c)
  end.

(** [await Promise.allSettled(transactions)] takes as long as the slowest
    of the promises. *)
Definition slowest {A} (tasks : list (A * Z)) : Z :=
  fold_right Z.max 0 (tasks.*2).

(** [executeBuyTransactions(session, wallets, buyAmount)]. *)
Definition executeBuyTransactions (env : Env) (wallets : list Keypair)
    (buyAmount : Q) : M unit :=
  let* s := get in
  let tokenMint := TradingSession.tokenMint (TradingSession.config (session s)) in
  let transactions :=
    imap (fun i wallet =>
            executeBuyTransaction env tokenMint buyAmount wallet
              (operation env (launched s + i)%nat))
         wallets in
  run modify (set_launched (launched s + length wallets)%nat) then
  (* const results = await Promise.allSettled(transactions) *)
  run modify (advance (slowest transactions)) then
  let results := transactions.*1 in
  modify (fun s' =>
    let (sess, c) :=
      fold_left (processBuyResult buyAmount) results (session s', collector s') in
    set_books sess c s').

(** [executeSellBatch(session, wallets)]. *)
Definition executeSellBatch (env : Env) (wallets : list Keypair) : M unit :=
  let* s := get in
  let cfg := TradingSession.config (session s) in
  let transactions :=
    imap (fun i wallet =>
            let sellAmount :=
              getRandomAmount (TradingSession.sellAmount cfg)
                              (random env (draws s + i)%nat) in
            executeSellTransaction env (TradingSession.tokenMint cfg)
              sellAmount wallet (operation env (launched s + i)%nat))
         wallets in
  run modify (set_draws (draws s + length wallets)%nat) then
  run modify (set_launched (launched s + length wallets)%nat) then
  run modify (advance (slowest transactions)) then
  let results := transactions.*1 in
  modify (fun s' =>
    let (sess, c) :=
      fold_left processSellResult results (session s', collector s') in
    set_books sess c s').

(** The loop [for (let i = 0; i < sellWallets.length; i += batchSize)],
    with [iterations] passes left. *)
Fixpoint sellLoop (env : Env) (sellWallets : list Keypair)
    (iterations : nat) (i : nat) : M unit :=
  match iterations with
  | O => ret tt
  | S iterations' =>
      let batchSize := 5%nat in
      let batch := take batchSize (drop i sellWallets) in
      run executeSellBatch env batch then
      run sleep BetweenBatches 1000 then
      sellLoop env sellWallets iterations' (i + batchSize)%nat
  end.

(** [executeSellTransactions(session)]; the loop above runs
    [ceil(length / 5)] times. *)
Definition executeSellTransactions (env : Env) : M unit :=
  tryCatch
    (let* s := get in
     let tokenMint := TradingSession.tokenMint (TradingSession.config (session s)) in
     let* sellWallets :=
       await (WalletManager.getWalletsForSelling (files s) (now s) tokenMint) in
     if (length sellWallets =? 0)%nat then ret tt
     else sellLoop env sellWallets ((length sellWallets + 4) / 5)%nat 0%nat)
    (fun error => throw error).

(** [await this.walletManager.createWallets(walletCount)]. *)
Definition createWallets (env : Env) (count : Z) : M (list Keypair) :=
  fun s =>
    let (wallets, fs') :=
      WalletManager.createWallets (generate env) (generated s) (now s) count (files s) in
    (inr wallets, set_files fs' (generated s + Z.to_nat count)%nat s).

(** The [try] block of [executeTradingCycle]. *)
Definition cycleBody (env : Env) (cycleNumber : Z) : M unit :=
  let* s := get in
  let cfg := TradingSession.config (session s) in
  let* r1 := mathRandom env in
  let buyAmount := getRandomAmount (TradingSession.buyAmount cfg) r1 in
  let* r2 := mathRandom env in
  let walletCount := getRandomWalletCount (TradingSession.walletCount cfg) r2 in
  let* wallets := createWallets env walletCount in
  run executeBuyTransactions env wallets buyAmount then
  run sleep Settlement 5000 then
  run executeSellTransactions env then
  modify (emit (CycleCompleted cycleNumber)).

(** [executeTradingCycle(session, cycleNumber)]; the two trace marks stand
    for its first and last log lines. *)
Definition executeTradingCycle (env : Env) (cycleNumber : Z) : M unit :=
  run modify (emit (CycleStarted cycleNumber)) then
  tryCatch (cycleBody env cycleNumber) (fun error => throw error).

(** [stop()] running between two steps of the session, when the
    environment says so. *)
Definition interleaveStop (env : Env) (cycleNumber : Z) : M unit :=
  modify (fun s => if stopRequested env cycleNumber
                   then set_isRunning false s else s).

(** The loop [for (let cycle = 0; cycle < session.config.cycles; cycle++)]
    of [executeSession], with [remaining] passes left. *)
Fixpoint cycleLoop (env : Env) (remaining : nat) (cycle : Z) : M unit :=
  match remaining with
  | O => ret tt
  | S remaining' =>
      let* s := get in
      if negb (isRunning s) then ret tt (* break *)
      else
        run executeTradingCycle env (cycle + 1) then
        run interleaveStop env (cycle + 1) then
        let* r := mathRandom env in
        let delay :=
          getRandomDelay (TradingSession.delay (TradingSession.config (session s))) r in
        run sleep BetweenCycles (delay * 1000) then
        cycleLoop env remaining' (cycle + 1)
  end.

(** The assignments [session.isActive = false; session.endTime = new
    Date()] that both the [try] and the [catch] block make. *)
Definition closeSession : M unit :=
  modify (fun s =>
    with_session (fun sess =>
      TradingSession.set_endTime (now s) (TradingSession.set_isActive false sess)) s).

(** [executeSession(session)]. *)
Definition executeSession (env : Env) : M unit :=
  tryFinally
    (tryCatch
       (run modify (with_session (TradingSession.set_isActive true)) then
        run modify (set_isRunning true) then
        let* s := get in
        let tokenMint := TradingSession.tokenMint (TradingSession.config (session s)) in
        let* poolInfo :=
          match getPoolInfo env tokenMint with
          | None =>
              throw (BotError ("Pool not found for token: " +:+ tokenMint)
                              VALIDATION_ERROR None)
          | Some poolInfo => ret poolInfo
          end in
        run interleaveStop env 0 then
        run cycleLoop env (Z.to_nat (TradingSession.cycles (TradingSession.config (session s)))) 0 then
        closeSession)
       (fun error => run closeSession then throw error))
    (set_isRunning false).

End TradingEngine.

(** ** Concrete inputs *)

Module Scenario.
Import Types.

(** Key pairs as [Keypair.generate()] could return them, told apart by
    their index. *)
Definition keys (n : nat) : WalletManager.Keypair :=
  {| WalletManager.publicKey := "W" +:+ pretty n;
     WalletManager.secretKey := [Z.of_nat n] |}.

(** The wallet files right after the [WalletManager] constructor ran on
    an empty data directory. *)
Definition emptyStore : Fs.t := WalletManager.ensureDirectories ∅.

(** A token mint address and a creation time (ms since the epoch). *)
Definition mint : string := "DezXAZ8z7PnrnRJjz3wXBoRgixCa6xjnB7YaB1pPB263".
Definition T0 : Z := 1700000000000.

(** The per-token directory holding one wallet file born at [T0], as
    [getWalletsForSelling] expects to find it. *)
Definition tokenStore : Fs.t :=
  <[Fs.join WalletManager.walletsDir mint :=
      Fs.Directory {[ "wallet_W0.json" :=
           {| Fs.birthtime := T0;
              Fs.content := Some {| Fs.wd_publicKey := "W0";
                                    Fs.wd_secretKey := [0];
                                    Fs.wd_balance := 0%Q;
                                    Fs.wd_tokenBalance := 0%Q;
                                    Fs.wd_createdAt := T0;
                                    Fs.wd_transactionCount := 0 |} |} ]}]>
    emptyStore.

End Scenario.

(** ** Vocabulary for the session properties *)

Module SessionSpec.
Import Types TradingEngine.

(** The accounting identity of a session's counters. *)
Definition counters_agree (s : TradingSession.t) : Prop :=
  TradingSession.totalTransactions s
  = TradingSession.successfulTransactions s + TradingSession.failedTransactions s.

(** The bookkeeping every exit of [executeSession] owes the session. *)
Definition finalized (s : TradingSession.t) : Prop :=
  TradingSession.isActive s = false /\ is_Some (TradingSession.endTime s).

(** A promise that settled by fulfilling. *)
Definition fulfils (r : Settled TransactionResult) : Prop :=
  exists value, r = fulfilled value.

(** The pauses taken inside a cycle. *)
Definition is_pause (e : Event) : bool :=
  match e with
  | Slept Settlement _ | Slept BetweenBatches _ => true
  | _ => false
  end.

(** The event recorded right after cycle [c] completed, if any. *)
Fixpoint afterCycle (c : Z) (tr : list Event) : option Event :=
  match tr with
  | [] => None
  | CycleCompleted c' :: rest =>
      if c' =? c then head rest else afterCycle c rest
  | _ :: rest => afterCycle c rest
  end.

Definition isInterCycleSleep (e : option Event) : bool :=
  match e with
  | Some (Slept BetweenCycles _) => true
  | _ => false
  end.

(** What a step of the engine leaves alone: it only appends [added] to
    the trace, keeps the session's configuration, identity and lifecycle
    fields and the running flag, and keeps the accounting identity. *)
Definition frame (s s' : State) (added : list Event) : Prop :=
  trace s' = trace s ++ added
  /\ TradingSession.config (session s') = TradingSession.config (session s)
  /\ isRunning s' = isRunning s
  /\ (counters_agree (session s) -> counters_agree (session s')).

(** A computation that, whether it returns or throws, stays within
    [frame] and adds nothing but pauses to the trace. *)
Definition quiet {A} (m : M A) : Prop :=
  forall s, exists r s' added,
    m s = (r, s') /\ frame s s' added /\ forallb is_pause added = true.

(** What the [try] block of a cycle adds to the trace: pauses, closed by
    the completion mark of cycle [c] exactly when it returns. *)
Definition cycle_tail {A} (c : Z) (r : Thrown + A) (added : list Event) : Prop :=
  match r with
  | inr _ => exists mid, added = mid ++ [CycleCompleted c]
                         /\ forallb is_pause mid = true
  | inl _ => forallb is_pause added = true
  end.

(** A computation that stays within [frame] and adds a [cycle_tail]. *)
Definition completes {A} (c : Z) (m : M A) : Prop :=
  forall s, exists r s' added,
    m s = (r, s') /\ frame s s' added /\ cycle_tail c r added.

(** The inter-cycle delays the loop can draw under configuration [cfg]. *)
Definition delay_drawn (env : Env) (cfg : TradingSession.BotConfig) (d : Q) : Prop :=
  exists k, d = getRandomDelay (TradingSession.delay cfg) (random env k).

(** The trace of consecutive cycles numbered from [c + 1]: each is a start
    mark, pauses, a completion mark and the inter-cycle sleep whose length
    in seconds satisfies [P]; a cycle that throws leaves a start mark and
    pauses, and nothing follows it. *)
Inductive cycle_blocks (P : Q -> Prop) : Z -> list Event -> Prop :=
| blocks_nil : forall c, cycle_blocks P c []
| blocks_aborted : forall c mid,
    forallb is_pause mid = true ->
    cycle_blocks P c (CycleStarted (c + 1) :: mid)
| blocks_cons : forall c mid d rest,
    forallb is_pause mid = true ->
    P d ->
    cycle_blocks P (c + 1) rest ->
    cycle_blocks P c
      (CycleStarted (c + 1) :: mid
       ++ CycleCompleted (c + 1) :: Slept BetweenCycles (d * 1000) :: rest).


End SessionSpec.

Module SessionScenario.
Import Types TradingEngine.

(** A ledger attempt on which every stage succeeds. *)
Definition confirmedAttempt : TransactionManager.LedgerAttempt :=
  {| TransactionManager.latestBlockhash := inr ("blockhash", 100);
     TransactionManager.signed := inr tt;
     TransactionManager.simulation := inr None;
     TransactionManager.submitted := inr "sig";
     TransactionManager.confirmation := inr None |}.

(** Collaborators that always succeed, with [Math.random()] stuck at 1/2;
    [stop()] runs while the cycle numbered [stopAt] awaits. *)
Definition calmEnv (stopAt : Z) : Env :=
  {| isDebugMode := false;
     getPoolInfo := fun _ => Some "pool";
     getSwapInstruction := fun _ _ _ _ => Some "swap";
     operation := fun _ _ => confirmedAttempt;
     random := fun _ => (1 # 2)%Q;
     generate := Scenario.keys;
     stopRequested := fun c => c =? stopAt |}.

(** Two cycles of two wallets each, one to three seconds apart. *)
Definition twoCycles : TradingSession.BotConfig :=
  {| TradingSession.tokenMint := Scenario.mint;
     TradingSession.buyAmount := Range.mk (1 # 100) (1 # 100);
     TradingSession.sellAmount := Range.mk (1 # 100) (1 # 100);
     TradingSession.walletCount := Range.mk 2 2;
     TradingSession.delay := Range.mk 1 3;
     TradingSession.cycles := 2;
     TradingSession.jitoTip := 0%Q;
     TradingSession.dryRun := None |}.

(** The engine as [BotManager.executeTradingSession] hands it a new
    session at time [T0]. *)
Definition freshEngine (config : TradingSession.BotConfig) : State :=
  {| session := TradingSession.new "session_1700000000000_k3x9q2m1a" Scenario.T0 config;
     isRunning := false;
     collector := MetricsCollector.new Scenario.T0;
     files := Scenario.emptyStore;
     now := Scenario.T0;
     draws := 0;
     generated := 0;
     launched := 0;
     trace := [] |}.

(** The same engine when the per-token path of the wallet store is a
    regular file. *)
Definition brokenStoreEngine : State :=
  let s := freshEngine twoCycles in
  set_files
    (<[Fs.join WalletManager.walletsDir Scenario.mint :=
         Fs.Regular {| Fs.birthtime := Scenario.T0; Fs.content := None |}]>
       (files s))
    (generated s) s.

End SessionScenario.

(** ** The rest of src/managers/TransactionManager.ts *)

Module SequentialExecution.
Import Types TransactionManager.

(** The loop [for (let i = 0; i < transactions.length; i++)] of
    [executeTransactionsSequential], at index [i] with [rest] still to
    run; [total] is [transactions.length], [delays] the inter-transaction
    pauses taken so far. *)
Fixpoint sequentialLoop (debugMode : bool) (delayMs : Z) (total : Z)
    (i : Z) (rest : list Operation) (results : list BatchResult)
    (delays : list Z) : list BatchResult * list Z :=
  match rest with
  | [] => (results, delays)
  | tx :: rest' =>
      match outcome (executeTransaction debugMode tx) with
      | inr signature =>
          let results' :=
            results ++ [{| batch_success := true;
                           batch_signature := Some signature;
                           batch_error := None |}] in
          let delays' :=
            if i <? total - 1 then delays ++ [delayMs] else delays in
          sequentialLoop debugMode delayMs total (i + 1) rest' results' delays'
      | inl error =>
          let results' :=
            results ++ [{| batch_success := false;
                           batch_signature := None;
                           batch_error := Some (message_or_unknown error) |}] in
          sequentialLoop debugMode delayMs total (i + 1) rest' results' delays
      end
  end.

(** [executeTransactionsSequential(transactions, delayMs)]: the results
    and the pauses taken between transactions. *)
Definition executeTransactionsSequential (debugMode : bool)
    (transactions : list Operation) (delayMs : Z)
  : list BatchResult * list Z :=
  sequentialLoop debugMode delayMs (Z.of_nat (length transactions)) 0
                 transactions [] [].

(** Whether [executeTransaction] returns for an operation. *)
Definition succeeds (debugMode : bool) (tx : Operation) : bool :=
  match outcome (executeTransaction debugMode tx) with
  | inr _ => true
  | inl _ => false
  end.

(** An instruction on the wire: a compute-budget request or an opaque
    instruction of the caller. *)
Inductive Instruction : Type :=
| SetComputeUnitLimit (units : Z)
| SetComputeUnitPrice (microLamports : Z)
| Opaque (data : string).

(** [createTransactionWithComputeBudget(instructions, computeUnits,
    microLamports)]; the defaults are 200000 and 10000. *)
Definition createTransactionWithComputeBudget (instructions : list Instruction)
    (computeUnits : option Z) (microLamports : option Z) : list Instruction :=
  [SetComputeUnitLimit (default 200000 computeUnits);
   SetComputeUnitPrice (default 10000 microLamports)] ++ instructions.

End SequentialExecution.

(** ** The rest of src/utils/MetricsCollector.ts *)

Module MetricsCalls.
Import Types MetricsCollector.

Definition with_metrics (f : TradingMetrics -> TradingMetrics)
    (c : MetricsCollector.t) : MetricsCollector.t :=
  {| metrics := f (metrics c);
     transactionTimes := transactionTimes c;
     startTime := startTime c |}.

(** [recordVolume(volume)]. *)
Definition recordVolume (volume : Q) (c : MetricsCollector.t) : MetricsCollector.t :=
  with_metrics (fun m =>
    {| totalTransactions := totalTransactions m;
       successfulTransactions := successfulTransactions m;
       failedTransactions := failedTransactions m;
       successRate := successRate m;
       totalVolume := (totalVolume m + volume)%Q;
       averageTransactionTime := averageTransactionTime m;
       totalFees := totalFees m;
       profitLoss := profitLoss m |}) c.

(** [recordFees(fees)]. *)
Definition recordFees (fees : Q) (c : MetricsCollector.t) : MetricsCollector.t :=
  with_metrics (fun m =>
    {| totalTransactions := totalTransactions m;
       successfulTransactions := successfulTransactions m;
       failedTransactions := failedTransactions m;
       successRate := successRate m;
       totalVolume := totalVolume m;
       averageTransactionTime := averageTransactionTime m;
       totalFees := (totalFees m + fees)%Q;
       profitLoss := profitLoss m |}) c.

(** [recordProfitLoss(amount)]. *)
Definition recordProfitLoss (amount : Q) (c : MetricsCollector.t) : MetricsCollector.t :=
  with_metrics (fun m =>
    {| totalTransactions := totalTransactions m;
       successfulTransactions := successfulTransactions m;
       failedTransactions := failedTransactions m;
       successRate := successRate m;
       totalVolume := totalVolume m;
       averageTransactionTime := averageTransactionTime m;
       totalFees := totalFees m;
       profitLoss := (profitLoss m + amount)%Q |}) c.

(** [getMetrics()]: a shallow copy of the stored record. *)
Definition getMetrics (c : MetricsCollector.t) : TradingMetrics := metrics c.

(** One call of a mutating method of the collector. *)
Inductive Call : Type :=
| RecordTransaction (result : TransactionResult)
| RecordVolume (volume : Q)
| RecordFees (fees : Q)
| RecordProfitLoss (amount : Q).

Definition call (c : MetricsCollector.t) (x : Call) : MetricsCollector.t :=
  match x with
  | RecordTransaction result => recordTransaction c result
  | RecordVolume volume => recordVolume volume c
  | RecordFees fees => recordFees fees c
  | RecordProfitLoss amount => recordProfitLoss amount c
  end.

(** A sequence of calls, oldest first. *)
Definition callAll (c : MetricsCollector.t) (xs : list Call) : MetricsCollector.t :=
  fold_left call xs c.

(** The transaction results among the calls, in order. *)
Definition recorded (xs : list Call) : list TransactionResult :=
  omap (fun x => match x with RecordTransaction r => Some r | _ => None end) xs.

(** What a call adds to the volume and to the fees. *)
Definition volumeOf (x : Call) : Q :=
  match x with
  | RecordTransaction r => or_zero (volume r)
  | RecordVolume v => v
  | _ => 0%Q
  end.

Definition feesOf (x : Call) : Q :=
  match x with
  | RecordTransaction r => or_zero (gasUsed r)
  | RecordFees f => f
  | _ => 0%Q
  end.

Definition sumQ (xs : list Q) : Q := fold_right Qplus 0%Q xs.

End MetricsCalls.

(** ** Vocabulary for the books of a session *)

Module SessionAudit.
Import Types TradingEngine.

(** The counters of the session minus those of the metrics collector. *)
Definition totalGap (s : State) : Z :=
  TradingSession.totalTransactions (session s)
  - totalTransactions (MetricsCollector.metrics (collector s)).
Definition successGap (s : State) : Z :=
  TradingSession.successfulTransactions (session s)
  - successfulTransactions (MetricsCollector.metrics (collector s)).
Definition failedGap (s : State) : Z :=
  TradingSession.failedTransactions (session s)
  - failedTransactions (MetricsCollector.metrics (collector s)).
Definition volumeGap (s : State) : Q :=
  (TradingSession.totalVolume (session s)
   - totalVolume (MetricsCollector.metrics (collector s)))%Q.

(** Operations launched that the session has not counted. *)
Definition uncounted (s : State) : Z :=
  Z.of_nat (launched s) - TradingSession.totalTransactions (session s).

(** How the state after a step of the engine relates to the state
    before: the session keeps its identity, nothing is uncounted or
    counted twice, the counters only grow, and the session and the
    collector grow by the same amounts. *)
Definition evolves (s s' : State) : Prop :=
  TradingSession.id (session s') = TradingSession.id (session s)
  /\ TradingSession.startTime (session s') = TradingSession.startTime (session s)
  /\ TradingSession.config (session s') = TradingSession.config (session s)
  /\ uncounted s' = uncounted s
  /\ TradingSession.totalTransactions (session s)
     <= TradingSession.totalTransactions (session s')
  /\ TradingSession.successfulTransactions (session s)
     <= TradingSession.successfulTransactions (session s')
  /\ TradingSession.failedTransactions (session s)
     <= TradingSession.failedTransactions (session s')
  /\ totalGap s' = totalGap s
  /\ successGap s' = successGap s
  /\ failedGap s' = failedGap s
  /\ (volumeGap s' == volumeGap s)%Q.

(** A computation every run of which [evolves] the state. *)
Definition steady {A} (m : M A) : Prop := forall s, evolves s (m s).2.

(** The same, for the pair the result loops fold over; [n] results were
    processed. *)
Definition books_evolve (n : Z) (b b' : Books) : Prop :=
  TradingSession.id b'.1 = TradingSession.id b.1
  /\ TradingSession.startTime b'.1 = TradingSession.startTime b.1
  /\ TradingSession.config b'.1 = TradingSession.config b.1
  /\ TradingSession.isActive b'.1 = TradingSession.isActive b.1
  /\ TradingSession.endTime b'.1 = TradingSession.endTime b.1
  /\ TradingSession.totalTransactions b'.1 = TradingSession.totalTransactions b.1 + n
  /\ TradingSession.successfulTransactions b.1
     <= TradingSession.successfulTransactions b'.1
  /\ TradingSession.failedTransactions b.1 <= TradingSession.failedTransactions b'.1
  /\ totalTransactions (MetricsCollector.metrics b'.2)
     = totalTransactions (MetricsCollector.metrics b.2) + n
  /\ TradingSession.successfulTransactions b'.1
     - successfulTransactions (MetricsCollector.metrics b'.2)
     = TradingSession.successfulTransactions b.1
       - successfulTransactions (MetricsCollector.metrics b.2)
  /\ TradingSession.failedTransactions b'.1
     - failedTransactions (MetricsCollector.metrics b'.2)
     = TradingSession.failedTransactions b.1
       - failedTransactions (MetricsCollector.metrics b.2)
  /\ (TradingSession.totalVolume b'.1 - totalVolume (MetricsCollector.metrics b'.2)
      == TradingSession.totalVolume b.1 - totalVolume (MetricsCollector.metrics b.2))%Q.

(** A result as the executors build them: fulfilled, carrying its amount
    as volume exactly when it succeeded. *)
Definition executorResult (amount : Q) (r : Settled TransactionResult) : Prop :=
  exists value,
    r = fulfilled value
    /\ volume value = (if success value then Some amount else None).

Definition sellResult (r : Settled TransactionResult) : Prop :=
  exists amount, executorResult amount r.

(** The session and the collector hold the same counts and volume. *)
Definition in_step (s : State) : Prop :=
  totalGap s = 0 /\ successGap s = 0 /\ failedGap s = 0 /\ (volumeGap s == 0)%Q.

(** The cycle numbers of the start marks of a trace, in order. *)
Definition started (tr : list Event) : list Z :=
  omap (fun e => match e with CycleStarted c => Some c | _ => None end) tr.

(** The numbers [first + 1], ..., [first + m]. *)
Definition numbered (first : Z) (m : nat) : list Z :=
  map (fun k => first + Z.of_nat k) (seq 1 m).

End SessionAudit.

Module AuditScenario.
Import Types TradingEngine.

(** An engine 31 s after one wallet file was born in the per-token
    directory. *)
Definition sellReadyEngine : State :=
  advance 31000
    (set_files Scenario.tokenStore 0
       (SessionScenario.freshEngine SessionScenario.twoCycles)).

End AuditScenario.

(** ** The rest of src/managers/WalletManager.ts *)

Module WalletStore.
Import Types Fs WalletManager.

(** [fs.unlinkSync(path.join(dir, name))]. *)
Definition unlinkSync (fs : Fs.t) (dir name : string) : Thrown + Fs.t :=
  match fs !! dir with
  | Some (Directory d) =>
      match d !! name with
      | Some _ => inr (<[dir := Directory (delete name d)]> fs)
      | None => inl (JsError "ENOENT: no such file or directory, unlink")
      end
  | _ => inl (JsError "ENOENT: no such file or directory, unlink")
  end.

(** [fs.copyFileSync(path.join(srcDir, name), path.join(dstDir, name))] at
    time [now]; a destination that exists is overwritten in place. *)
Definition copyFileSync (fs : Fs.t) (srcDir dstDir name : string) (now : Z)
  : Thrown + Fs.t :=
  match lookupFile fs srcDir name with
  | None => inl (JsError "ENOENT: no such file or directory, copyfile")
  | Some f =>
      match fs !! dstDir with
      | Some (Directory d) =>
          let born := match d !! name with
                      | Some g => birthtime g
                      | None => now
                      end in
          inr (<[dstDir := Directory
                   (<[name := {| birthtime := born; content := content f |}]> d)]> fs)
      | _ => inl (JsError "ENOENT: no such file or directory, copyfile")
      end
  end.

(** [fs.existsSync(path.join(dir, name))] for an entry of a directory. *)
Definition fileExists (fs : Fs.t) (dir name : string) : bool :=
  match lookupFile fs dir name with Some _ => true | None => false end.

(** [`wallet_${publicKey}.json`]. *)
Definition walletFile (publicKey : string) : string :=
  "wallet_" +:+ publicKey +:+ ".json".

(** [Keypair.fromSecretKey(new Uint8Array(walletData.secretKey))] on a
    record that parsed: the key pair the record was written from, as in
    [sellCandidate]. *)
Definition keypairOf (walletData : WalletData) : Keypair :=
  {| publicKey := wd_publicKey walletData;
     secretKey := wd_secretKey walletData |}.

(** [loadWallet(publicKey)]; [None] is [null]. *)
Definition loadWallet (fs : Fs.t) (publicKey : string) : option Keypair :=
  let filename := walletFile publicKey in
  if negb (fileExists fs walletsDir filename) then None
  else
    match lookupFile fs walletsDir filename with
    | Some {| content := Some walletData |} => Some (keypairOf walletData)
    | _ => None
    end.

(** Body of the loop of [getAllWallets]. *)
Definition anyCandidate (fs : Fs.t) (dir : string) (file : string)
  : option Keypair :=
  if negb (endsWith file ".json") then None
  else
    match lookupFile fs dir file with
    | Some {| content := Some walletData |} => Some (keypairOf walletData)
    | _ => None
    end.

(** [getAllWallets(tokenMint)]. *)
Definition getAllWallets (fs : Fs.t) (tokenMint : string)
  : Thrown + list Keypair :=
  let tokenWalletsDir := join walletsDir tokenMint in
  if negb (existsSync fs tokenWalletsDir) then inr []
  else
    match readdirSync fs tokenWalletsDir with
    | inl error => inl error
    | inr files => inr (omap (anyCandidate fs tokenWalletsDir) files)
    end.

(** [backupWallet(wallet)] at time [now]: what it throws is logged. *)
Definition backupWallet (fs : Fs.t) (now : Z) (wallet : Keypair) : Fs.t :=
  let filename := walletFile (publicKey wallet) in
  if fileExists fs walletsDir filename then
    match copyFileSync fs walletsDir backupDir filename now with
    | inr fs' => fs'
    | inl _ => fs
    end
  else fs.

(** [deleteWallet(wallet, tokenMint?)] at time [now]; [tokenMint] is not
    used, and what is thrown is logged. *)
Definition deleteWallet (fs : Fs.t) (now : Z) (wallet : Keypair)
    (tokenMint : option string) : Fs.t :=
  let filename := walletFile (publicKey wallet) in
  if fileExists fs walletsDir filename then
    let fs1 := backupWallet fs now wallet in
    match unlinkSync fs1 walletsDir filename with
    | inr fs2 => fs2
    | inl _ => fs1
    end
  else fs.

(** Whether the loop of [cleanupOldWallets] deletes for an entry: its
    name ends in [.json], it is strictly older than [maxAge], and it
    parses to a key pair. *)
Definition expired (now maxAge : Z) (file : string) (f : File) : option Keypair :=
  if negb (endsWith file ".json") then None
  else if maxAge <? now - birthtime f then
    match content f with
    | Some walletData => Some (keypairOf walletData)
    | None => None
    end
  else None.

(** The loop [for (const file of files)] of [cleanupOldWallets]. *)
Fixpoint cleanupLoop (now maxAge : Z) (files : list string) (fs : Fs.t)
    (cleanedCount : Z) : Fs.t * Z :=
  match files with
  | [] => (fs, cleanedCount)
  | file :: files' =>
      match lookupFile fs walletsDir file with
      | None => cleanupLoop now maxAge files' fs cleanedCount
      | Some f =>
          match expired now maxAge file f with
          | Some keypair =>
              cleanupLoop now maxAge files'
                (deleteWallet fs now keypair None) (cleanedCount + 1)
          | None => cleanupLoop now maxAge files' fs cleanedCount
          end
      end
  end.

(** [cleanupOldWallets(maxAge)] at time [now]; the default [maxAge] is
    one day. *)
Definition cleanupOldWallets (fs : Fs.t) (now : Z) (maxAge : option Z)
  : Thrown + (Fs.t * Z) :=
  let maxAge := default (24 * 60 * 60 * 1000) maxAge in
  if negb (existsSync fs walletsDir) then inr (fs, 0)
  else
    match readdirSync fs walletsDir with
    | inl error => inl error
    | inr files => inr (cleanupLoop now maxAge files fs 0)
    end.

(** Every wallet file of the root directory is named after the key pair
    it holds, as [saveWallet] names them. *)
Definition canonical (fs : Fs.t) : Prop :=
  forall file f walletData,
    lookupFile fs walletsDir file = Some f ->
    content f = Some walletData ->
    endsWith file ".json" = true ->
    file = walletFile (wd_publicKey walletData).

(** What [getWalletStatus] returns. *)
Record WalletStatus : Type := mkWalletStatus
  { mainWalletBalance : Q;
    activeWallets : Z;
    totalWallets : Z }.

Definition LAMPORTS_PER_SOL : Z := 1000000000.

(** Whether the inner loop of [getWalletStatus] counts an entry;
    [getBalance] is the ledger's answer for a public key. *)
Definition isActiveWallet (fs : Fs.t) (getBalance : string -> Thrown + Z)
    (file : string) : bool :=
  if negb (endsWith file ".json") then false
  else
    match lookupFile fs walletsDir file with
    | Some {| content := Some walletData |} =>
        match getBalance (publicKey (keypairOf walletData)) with
        | inr balance => 0 <? balance
        | inl _ => false
        end
    | _ => false
    end.

(** [getWalletStatus()]; [mainWallet] is what [getConnection()] and
    [getWallet()] give, or what they throw. *)
Definition getWalletStatus (fs : Fs.t) (mainWallet : Thrown + string)
    (getBalance : string -> Thrown + Z) : WalletStatus :=
  let failed := {| mainWalletBalance := 0%Q; activeWallets := 0; totalWallets := 0 |} in
  match mainWallet with
  | inl _ => failed
  | inr main =>
      match getBalance main with
      | inl _ => failed
      | inr mainBalance =>
          let mainBalanceSol := (inject_Z mainBalance / inject_Z LAMPORTS_PER_SOL)%Q in
          if existsSync fs walletsDir then
            match readdirSync fs walletsDir with
            | inl _ => failed
            | inr files =>
                {| mainWalletBalance := mainBalanceSol;
                   activeWallets :=
                     Z.of_nat (length (filter (fun file => isActiveWallet fs getBalance file = true) files));
                   totalWallets :=
                     Z.of_nat (length (filter (fun file => endsWith file ".json" = true) files)) |}
            end
          else
            {| mainWalletBalance := mainBalanceSol;
               activeWallets := 0;
               totalWallets := 0 |}
      end
  end.

End WalletStore.

(** ** Fund retrieval: [WalletManager.retrieveFunds] and the engine's
    [retrieveFunds] and [retrieveFundsBatch] *)

Module FundsRecovery.
Import Types WalletManager WalletStore.

(** What happens during one call of [WalletManager.retrieveFunds], step
    by step in the order of the source: [treasury] stands for
    [getConnection()] and [getWallet()], [transferBuilt] for the dynamic
    import and [SystemProgram.transfer], [transferSigned] for compiling
    the message and signing it, the other fields for the awaited RPCs;
    [transferConfirmed] carries [value.err].  [inl] is a throw or a
    rejected promise.  The second dynamic import, of the module the
    first one loaded, is taken to resolve. *)
Record SweepLedger : Type := mkSweepLedger
  { treasury : Thrown + string;
    balanceOf : Thrown + Z;
    transferBuilt : Thrown + unit;
    recentBlockhash : Thrown + string;
    transferSigned : Thrown + unit;
    transferSent : Thrown + string;
    transferConfirmed : Thrown + option string }.

(** How a call that returned ended. *)
Inductive Sweep : Type :=
| Skipped (balance : Z)
| Transferred (lamports : Z) (signature : string).

(** What one call did: the transfer for which [sendTransaction] returned
    a signature, if any (its lamports and that signature), and how the
    call ended. *)
Record Retrieval : Type := mkRetrieval
  { submitted : option (Z * string);
    result : Thrown + Sweep }.

(** A call that ended by throwing [e] before anything was submitted. *)
Definition failedBefore (e : Thrown) : Retrieval :=
  {| submitted := None; result := inl e |}.

(** [WalletManager.retrieveFunds(wallet)]; its [catch] logs and rethrows. *)
Definition retrieveFunds (l : SweepLedger) : Retrieval :=
  match treasury l with
  | inl e => failedBefore e
  | inr mainWallet =>
      match balanceOf l with
      | inl e => failedBefore e
      | inr balance =>
          if balance <=? 5000
          then {| submitted := None; result := inr (Skipped balance) |}
          else
            let transferAmount := balance - 5000 in
            match transferBuilt l with
            | inl e => failedBefore e
            | inr _ =>
            match recentBlockhash l with
            | inl e => failedBefore e
            | inr blockhash =>
            match transferSigned l with
            | inl e => failedBefore e
            | inr _ =>
            match transferSent l with
            | inl e => failedBefore e
            | inr signature =>
                {| submitted := Some (transferAmount, signature);
                   result :=
                     match transferConfirmed l with
                     | inl e => inl e
                     | inr _ => inr (Transferred transferAmount signature)
                     end |}
            end end end end
      end
  end.

(** [TradingEngine.retrieveFundsBatch(wallets, delayMs)]: per wallet, what
    [retrieveFunds] did, and the pauses taken.  [ledger n] answers the
    [n]-th call, [first] numbers the first wallet of the batch. *)
Fixpoint retrieveFundsBatch (ledger : nat -> SweepLedger) (delayMs : Z)
    (first : nat) (wallets : list Keypair)
  : list (Keypair * Retrieval) * list Z :=
  match wallets with
  | [] => ([], [])
  | wallet :: rest =>
      let r := retrieveFunds (ledger first) in
      let later := retrieveFundsBatch ledger delayMs (S first) rest in
      ((wallet, r) :: later.1,
       match result r with
       | inr _ => delayMs :: later.2
       | inl _ => later.2
       end)
  end.

(** The loop [for (let i = 0; i < wallets.length; i += batchSize)] of
    [TradingEngine.retrieveFunds], with [iterations] passes left. *)
Fixpoint sweepLoop (ledger : nat -> SweepLedger) (delayMs : Z)
    (wallets : list Keypair) (iterations : nat) (i : nat)
  : list (Keypair * Retrieval) * list Z :=
  match iterations with
  | O => ([], [])
  | S iterations' =>
      let batchSize := 5%nat in
      let batch := take batchSize (drop i wallets) in
      let done := retrieveFundsBatch ledger delayMs i batch in
      let later := sweepLoop ledger delayMs wallets iterations' (i + batchSize) in
      (done.1 ++ later.1, done.2 ++ [delayMs] ++ later.2)
  end.

(** [TradingEngine.retrieveFunds(tokenMint, delayMs)]; the default delay
    is 300 ms. *)
Definition sweepAll (fs : Fs.t) (ledger : nat -> SweepLedger)
    (tokenMint : string) (delayMs : option Z)
  : Thrown + (list (Keypair * Retrieval) * list Z) :=
  let delayMs := default 300 delayMs in
  match getAllWallets fs tokenMint with
  | inl e => inl e
  | inr wallets =>
      if (length wallets =? 0)%nat then inr ([], [])
      else inr (sweepLoop ledger delayMs wallets ((length wallets + 4) / 5) 0)
  end.

(** Whether a sweep returned. *)
Definition returned (r : Retrieval) : bool :=
  match result r with inr _ => true | inl _ => false end.

End FundsRecovery.

Module FundsScenario.
Import Types FundsRecovery.

(** A wallet holding [balance] lamports whose transfer goes through, the
    confirmation reporting [err]. *)
Definition funded (balance : Z) (err : option string) : SweepLedger :=
  {| treasury := inr "Treasury1111111111111111111111111111111111";
     balanceOf := inr balance;
     transferBuilt := inr tt;
     recentBlockhash := inr "blockhash";
     transferSigned := inr tt;
     transferSent := inr "sweep-signature";
     transferConfirmed := inr err |}.

(** The same wallet when the confirmation call rejects with a timeout. *)
Definition unconfirmed (balance : Z) : SweepLedger :=
  {| treasury := inr "Treasury1111111111111111111111111111111111";
     balanceOf := inr balance;
     transferBuilt := inr tt;
     recentBlockhash := inr "blockhash";
     transferSigned := inr tt;
     transferSent := inr "sweep-signature";
     transferConfirmed := inl (JsError "Transaction was not confirmed in 30.00 seconds") |}.

End FundsScenario.


Module SweepScenario.
Import Types FundsRecovery.

(** The file of wallet number [n], born at [Scenario.T0]. *)
Definition walletEntry (n : nat) : string * Fs.File :=
  (WalletStore.walletFile (WalletManager.publicKey (Scenario.keys n)),
   {| Fs.birthtime := Scenario.T0;
      Fs.content := Some {| Fs.wd_publicKey := WalletManager.publicKey (Scenario.keys n);
                            Fs.wd_secretKey := WalletManager.secretKey (Scenario.keys n);
                            Fs.wd_balance := 0%Q;
                            Fs.wd_tokenBalance := 0%Q;
                            Fs.wd_createdAt := Scenario.T0;
                            Fs.wd_transactionCount := 0 |} |}).

(** A per-token directory holding six wallet files: two batches. *)
Definition sixStore : Fs.t :=
  <[Fs.join WalletManager.walletsDir Scenario.mint :=
      Fs.Directory (list_to_map (walletEntry <$> seq 0 6))]>
    Scenario.emptyStore.

(** The RPC node is down. *)
Definition offline : SweepLedger :=
  {| treasury := inr "Treasury1111111111111111111111111111111111";
     balanceOf := inl (JsError "fetch failed");
     transferBuilt := inr tt;
     recentBlockhash := inl (JsError "fetch failed");
     transferSigned := inr tt;
     transferSent := inl (JsError "fetch failed");
     transferConfirmed := inl (JsError "fetch failed") |}.

(** The third call finds the node down; the others sweep 10000 lamports. *)
Definition flaky (call : nat) : SweepLedger :=
  if (call =? 2)%nat then offline else FundsScenario.funded 10000 None.

End SweepScenario.


Module Paths.
Import Types.

(** The names for which [path.join(dir, name)] is [dir], a separator and
    [name], as [Fs.join] has it: one path segment, neither empty nor a
    dot name (characters 47 and 92 are the slash and the backslash).  A
    base58 mint address is one. *)
Definition isSegment (name : string) : bool :=
  negb (String.eqb name "") && negb (String.eqb name ".")
  && negb (String.eqb name "..")
  && forallb (fun c => negb (Ascii.eqb c (Ascii.ascii_of_nat 47))
                      && negb (Ascii.eqb c (Ascii.ascii_of_nat 92)))
             (list_ascii_of_string name).

End Paths.


(** ** src/core/ConfigManager.ts *)

Module ConfigManager.
Import Types.

(** The numbers [JSON.parse] returns: finite ones and, for a literal out
    of the range of doubles such as [1e999], an infinity; never [NaN]. *)
Inductive Num : Type :=
| Finite (q : Q)
| PosInfinity
| NegInfinity.

(** What [JSON.parse] returns; the members of an object are its own
    properties. *)
#[warnings="-register-all"] Inductive Json : Type :=
| JNull
| JBool (b : bool)
| JNumber (n : Num)
| JString (s : string)
| JArray (items : list Json)
| JObject (members : gmap string Json).

(** [a < b] on numbers. *)
Definition numLt (a b : Num) : bool :=
  match a, b with
  | Finite p, Finite q => negb (Qle_bool q p)
  | NegInfinity, NegInfinity => false
  | NegInfinity, _ => true
  | _, PosInfinity => match a with PosInfinity => false | _ => true end
  | _, _ => false
  end.

(** [v.key] for a value [v] other than [null] and a key that no string,
    array, number or boolean has: [None] is [undefined]. *)
Definition get (v : Json) (key : string) : option Json :=
  match v with
  | JObject members => members !! key
  | _ => None
  end.

(** [v.key] where [v] may be [undefined]; read only behind a test that
    [v] is truthy. *)
Definition member (v : option Json) (key : string) : option Json :=
  match v with
  | Some o => get o key
  | None => None
  end.

(** A value used as a condition. *)
Definition truthyValue (v : option Json) : bool :=
  match v with
  | None => false
  | Some JNull => false
  | Some (JBool b) => b
  | Some (JNumber (Finite q)) => negb (Qeq_bool q 0)
  | Some (JNumber _) => true
  | Some (JString s) => negb (String.eqb s "")
  | Some (JArray _) => true
  | Some (JObject _) => true
  end.

(** [typeof v]. *)
Inductive TypeTag : Type :=
| TUndefined | TObject | TBoolean | TNumber | TString.

Definition typeof (v : option Json) : TypeTag :=
  match v with
  | None => TUndefined
  | Some JNull => TObject
  | Some (JBool _) => TBoolean
  | Some (JNumber _) => TNumber
  | Some (JString _) => TString
  | Some (JArray _) => TObject
  | Some (JObject _) => TObject
  end.

Definition isObjectTag (t : TypeTag) : bool :=
  match t with TObject => true | _ => false end.

Definition isStringTag (t : TypeTag) : bool :=
  match t with TString => true | _ => false end.

(** [typeof v !== 'number' || v <= 0]. *)
Definition notPositive (v : option Json) : bool :=
  match v with
  | Some (JNumber n) => negb (numLt (Finite 0) n)
  | _ => true
  end.

(** [typeof v !== 'number' || v < 0]. *)
Definition negative (v : option Json) : bool :=
  match v with
  | Some (JNumber n) => numLt n (Finite 0)
  | _ => true
  end.

(** [errors.join(sep)]. *)
Fixpoint joinWith (sep : string) (parts : list string) : string :=
  match parts with
  | [] => ""
  | [part] => part
  | part :: rest => part +:+ sep +:+ joinWith sep rest
  end.

(** The line feed of the template literals. *)
Definition newline : string := String (Ascii.ascii_of_nat 10) "".

Section Validation.

(** Whether [new PublicKey(s)] returns rather than throws. *)
Variable isPublicKey : string -> bool.

(** [a > b] for two defined operands that are not both numbers. *)
Variable looseGreater : Json -> Json -> bool.

(** [a > b]: a comparison with [undefined] is false. *)
Definition greater (a b : option Json) : bool :=
  match a, b with
  | Some (JNumber x), Some (JNumber y) => numLt y x
  | Some x, Some y => looseGreater x y
  | _, _ => false
  end.

(** One of the four blocks that validate a [{ min, max }] member;
    [tooSmall] is the test either bound must fail, the other arguments
    are the messages of the block. *)
Definition checkRange (tooSmall : option Json -> bool) (range : option Json)
    (required minMessage maxMessage orderMessage : string) : list string :=
  if negb (truthyValue range) || negb (isObjectTag (typeof range)) then [required]
  else
    (if tooSmall (member range "min") then [minMessage] else [])
    ++ (if tooSmall (member range "max") then [maxMessage] else [])
    ++ (if greater (member range "min") (member range "max")
        then [orderMessage] else []).

(** The [errors] array of [validateConfig] when it reaches the final
    test, for a [config] other than [null]. *)
Definition configErrors (config : Json) : list string :=
  (let tokenMint := get config "tokenMint" in
   if negb (truthyValue tokenMint) || negb (isStringTag (typeof tokenMint))
   then ["tokenMint is required and must be a string"]
   else
     match tokenMint with
     | Some (JString s) =>
         if isPublicKey s then []
         else ["tokenMint must be a valid Solana public key"]
     | _ => []
     end)
  ++ checkRange notPositive (get config "buyAmount")
       "buyAmount is required and must be an object"
       "buyAmount.min must be a positive number"
       "buyAmount.max must be a positive number"
       "buyAmount.min must be less than or equal to buyAmount.max"
  ++ checkRange notPositive (get config "sellAmount")
       "sellAmount is required and must be an object"
       "sellAmount.min must be a positive number"
       "sellAmount.max must be a positive number"
       "sellAmount.min must be less than or equal to sellAmount.max"
  ++ checkRange notPositive (get config "walletCount")
       "walletCount is required and must be an object"
       "walletCount.min must be a positive number"
       "walletCount.max must be a positive number"
       "walletCount.min must be less than or equal to walletCount.max"
  ++ checkRange negative (get config "delay")
       "delay is required and must be an object"
       "delay.min must be a non-negative number"
       "delay.max must be a non-negative number"
       "delay.min must be less than or equal to delay.max"
  ++ (if notPositive (get config "cycles")
      then ["cycles must be a positive number"] else [])
  ++ (if negative (get config "jitoTip")
      then ["jitoTip must be a non-negative number"] else []).

(** [validateConfig(config)]: reading [config.tokenMint] of [null]
    throws a [TypeError]; the object returned is the one received. *)
Definition validateConfig (config : Json) : Thrown + Json :=
  match config with
  | JNull => inl (JsError "Cannot read properties of null (reading 'tokenMint')")
  | _ =>
      let errors := configErrors config in
      if (0 <? length errors)%nat
      then inl (JsError ("Configuration validation failed:" +:+ newline
                         +:+ joinWith newline errors))
      else inr config
  end.

(** [loadConfigFromFile(configPath)]: [files] maps the paths that exist
    to their text, [parse] is [JSON.parse]; the result is also what
    [this.config] becomes when the call returns. *)
Definition loadConfigFromFile (files : gmap string string)
    (parse : string -> Thrown + Json) (configPath : string) : Thrown + Json :=
  match files !! configPath with
  | None => inl (JsError ("Configuration file not found: " +:+ configPath))
  | Some text =>
      match parse text with
      | inl e => inl e
      | inr configData => validateConfig configData
      end
  end.

End Validation.

(** What [validateConfig] demands of a [{ min, max }] member: an object
    whose bounds are numbers above [floor] ([strict]) or not below it,
    in order. *)
Definition boundOk (strict : bool) (n : Num) : Prop :=
  if strict then numLt (Finite 0) n = true else numLt n (Finite 0) = false.

Definition rangeOk (strict : bool) (v : option Json) : Prop :=
  exists members lo hi,
    v = Some (JObject members)
    /\ members !! "min" = Some (JNumber lo)
    /\ members !! "max" = Some (JNumber hi)
    /\ boundOk strict lo /\ boundOk strict hi /\ numLt hi lo = false.

Definition wellFormed (isPublicKey : string -> bool) (config : Json) : Prop :=
  (exists s, get config "tokenMint" = Some (JString s)
             /\ s <> "" /\ isPublicKey s = true)
  /\ rangeOk true (get config "buyAmount")
  /\ rangeOk true (get config "sellAmount")
  /\ rangeOk true (get config "walletCount")
  /\ rangeOk false (get config "delay")
  /\ (exists n, get config "cycles" = Some (JNumber n) /\ boundOk true n)
  /\ (exists n, get config "jitoTip" = Some (JNumber n) /\ boundOk false n).

(** The members [validateConfig] reads. *)
Definition validatedKeys : list string :=
  ["tokenMint"; "buyAmount"; "sellAmount"; "walletCount"; "delay"; "cycles";
   "jitoTip"].

End ConfigManager.


Module ConfigLoading.
Import Types.

(** The fields of a [ConfigManager] that [loadConfig] sets: the RPC URL
    the connection was built for, the public key of the wallet, and
    whether the provider was built. *)
Record Manager : Type := mkManager
  { connection : option string;
    wallet : option string;
    provider : bool }.

Definition fresh : Manager :=
  {| connection := None; wallet := None; provider := false |}.

(** What the outside answers during [loadConfig]: [env] is [process.env]
    once [dotenv.config()] has run, [newConnection] whether the
    [Connection] constructor accepts the URL, [getVersion] the awaited
    RPC, [fromSecretKey] what [Keypair.fromSecretKey(bs58.decode(s))]
    gives, [describe] how a caught value prints inside a template
    literal. *)
Record World : Type := mkWorld
  { env : gmap string string;
    newConnection : string -> Thrown + unit;
    getVersion : Thrown + string;
    fromSecretKey : string -> Thrown + string;
    describe : Thrown -> string }.

(** [!process.env[varName]]: unset or empty. *)
Definition unset (env : gmap string string) (varName : string) : bool :=
  match env !! varName with
  | Some value => String.eqb value ""
  | None => true
  end.

Definition requiredVars : list string := ["RPC"; "SECRET_KEY"; "API_KEY"].

(** The loop of [validateEnvironmentVariables]. *)
Fixpoint missingLoop (env : gmap string string) (vars : list string)
    (missingVars : list string) : list string :=
  match vars with
  | [] => missingVars
  | varName :: rest =>
      if unset env varName then missingLoop env rest (missingVars ++ [varName])
      else missingLoop env rest missingVars
  end.

(** [validateEnvironmentVariables()]. *)
Definition validateEnvironmentVariables (env : gmap string string)
  : Thrown + unit :=
  let missingVars := missingLoop env requiredVars [] in
  if (0 <? length missingVars)%nat
  then inl (JsError ("Missing required environment variables: "
                     +:+ ConfigManager.joinWith ", " missingVars))
  else inr tt.

(** [process.env.RPC!] in a template literal or as an argument. *)
Definition envOr (env : gmap string string) (varName : string) : string :=
  default "undefined" (env !! varName).

(** [initializeConnection()]: the field is assigned before the test
    call. *)
Definition initializeConnection (w : World) (m : Manager)
  : (Thrown + unit) * Manager :=
  let rpcUrl := envOr (env w) "RPC" in
  match newConnection w rpcUrl with
  | inl e => (inl e, m)
  | inr _ =>
      let m' := {| connection := Some rpcUrl; wallet := wallet m;
                   provider := provider m |} in
      match getVersion w with
      | inr _ => (inr tt, m')
      | inl e =>
          (inl (JsError ("Failed to connect to Solana RPC: " +:+ describe w e)),
           m')
      end
  end.

(** [initializeWallet()]. *)
Definition initializeWallet (w : World) (m : Manager)
  : (Thrown + unit) * Manager :=
  match fromSecretKey w (envOr (env w) "SECRET_KEY") with
  | inr publicKey =>
      (inr tt, {| connection := connection m; wallet := Some publicKey;
                  provider := provider m |})
  | inl e =>
      (inl (JsError ("Failed to initialize wallet: " +:+ describe w e)), m)
  end.

(** [initializeProvider()]; the constructors of [NodeWallet] and
    [AnchorProvider] only store their arguments. *)
Definition initializeProvider (m : Manager) : (Thrown + unit) * Manager :=
  match connection m, wallet m with
  | Some _, Some _ =>
      (inr tt, {| connection := connection m; wallet := wallet m;
                  provider := true |})
  | _, _ =>
      (inl (JsError "Connection and wallet must be initialized before creating provider"),
       m)
  end.

(** [loadConfig()]. *)
Definition loadConfig (w : World) (m : Manager) : (Thrown + unit) * Manager :=
  match validateEnvironmentVariables (env w) with
  | inl e => (inl e, m)
  | inr _ =>
      match initializeConnection w m with
      | (inl e, m1) => (inl e, m1)
      | (inr _, m1) =>
          match initializeWallet w m1 with
          | (inl e, m2) => (inl e, m2)
          | (inr _, m2) => initializeProvider m2
          end
      end
  end.

(** [getConnection()], [getWallet()] and [getProvider()]. *)
Definition getConnection (m : Manager) : Thrown + string :=
  match connection m with
  | Some c => inr c
  | None => inl (JsError "Connection not initialized")
  end.

Definition getWallet (m : Manager) : Thrown + string :=
  match wallet m with
  | Some k => inr k
  | None => inl (JsError "Wallet not initialized")
  end.

Definition getProvider (m : Manager) : Thrown + unit :=
  if provider m then inr tt else inl (JsError "Provider not initialized").

(** A variable that is set to a non-empty value. *)
Definition isSet (env : gmap string string) (varName : string) : Prop :=
  exists value, env !! varName = Some value /\ value <> "".

End ConfigLoading.


(** ** src/utils/Logger.ts *)

Module Logger.
Import Types.

(** [type LogLevel]. *)
Inductive LogLevel : Type := debug | info | warn | error.

Definition LogLevel_eqb (a b : LogLevel) : bool :=
  match a, b with
  | debug, debug | info, info | warn, warn | error, error => true
  | _, _ => false
  end.

(** [levels.indexOf(level)]; -1 when absent. *)
Fixpoint indexOf (levels : list LogLevel) (level : LogLevel) (from : Z) : Z :=
  match levels with
  | [] => -1
  | l :: rest => if LogLevel_eqb l level then from else indexOf rest level (from + 1)
  end.

(** [shouldLog(level)] of a logger whose level is [current]. *)
Definition shouldLog (current level : LogLevel) : bool :=
  let levels := [debug; info; warn; error] in
  let currentLevelIndex := indexOf levels current 0 in
  let messageLevelIndex := indexOf levels level 0 in
  currentLevelIndex <=? messageLevelIndex.

(** The log files: the bytes of each path that exists.  The paths the
    logger touches name regular files inside a directory that the
    constructor created, so that the calls guarded by [existsSync] do not
    throw. *)
Abbreviation Files := (gmap string string).

Definition logFile : string := Fs.join "logs" "bot.log".
Definition maxLogSize : Z := 10 * 1024 * 1024.
Definition maxLogFiles : nat := 5.

(** The template [`${this.logFile}.${i}`]. *)
Definition rotated (i : nat) : string := logFile +:+ "." +:+ pretty i.

Definition existsSync (fs : Files) (path : string) : bool :=
  match fs !! path with Some _ => true | None => false end.

(** [fs.unlinkSync(path)] and [fs.renameSync(oldPath, newPath)] of a file
    that exists; the destination of a rename is replaced. *)
Definition unlinkSync (fs : Files) (path : string) : Files := delete path fs.

Definition renameSync (fs : Files) (oldPath newPath : string) : Files :=
  match fs !! oldPath with
  | Some bytes => <[newPath := bytes]> (delete oldPath fs)
  | None => fs
  end.

(** The loop [for (let i = this.maxLogFiles - 1; i > 0; i--)] of
    [rotateLog], entered at [i]. *)
Fixpoint rotateLoop (i : nat) (fs : Files) : Files :=
  match i with
  | O => fs
  | S i' =>
      let oldFile := rotated i in
      let newFile := rotated (i + 1) in
      let fs' :=
        if existsSync fs oldFile then
          if (i =? maxLogFiles - 1)%nat then unlinkSync fs oldFile
          else renameSync fs oldFile newFile
        else fs in
      rotateLoop i' fs'
  end.

(** [rotateLog()]. *)
Definition rotateLog (fs : Files) : Files :=
  let fs' := rotateLoop (maxLogFiles - 1) fs in
  if existsSync fs' logFile then renameSync fs' logFile (rotated 1) else fs'.

(** [stats.size] of the log file exceeds [maxLogSize]. *)
Definition oversized (fs : Files) : bool :=
  match fs !! logFile with
  | Some bytes => maxLogSize <? Z.of_nat (String.length bytes)
  | None => false
  end.

(** [rotateLogIfNeeded()]. *)
Definition rotateLogIfNeeded (fs : Files) : Files :=
  if existsSync fs logFile then
    if oversized fs then rotateLog fs else fs
  else fs.

(** [fs.appendFileSync(path, data)]: creates the file when missing. *)
Definition appendFileSync (fs : Files) (path data : string) : Files :=
  <[path := default "" (fs !! path) +:+ data]> fs.

(** [logToFile(entry)], with [logLine] the bytes of
    [JSON.stringify(entry) + '\n']. *)
Definition logToFile (fs : Files) (logLine : string) : Files :=
  appendFileSync (rotateLogIfNeeded fs) logFile logLine.

(** What [log(level, message, context)] does to the files, for a logger
    whose level is [current]; the console output is left out. *)
Definition log (current level : LogLevel) (logLine : string) (fs : Files) : Files :=
  if negb (shouldLog current level) then fs else logToFile fs logLine.

(** [clearLog()]. *)
Definition clearLog (fs : Files) : Files :=
  if existsSync fs logFile then unlinkSync fs logFile else fs.

(** The generations of the log: 0 is the live file, [k] the file with
    suffix [k]. *)
Definition generation (k : nat) : string :=
  match k with
  | O => logFile
  | S _ => rotated k
  end.

(** The order of the levels: debug < info < warn < error. *)
Definition rank (level : LogLevel) : Z :=
  match level with
  | debug => 0
  | info => 1
  | warn => 2
  | error => 3
  end.

End Logger.


(** ** src/managers/PoolManager.ts *)

Module PoolManager.
Import Types.

(** [interface PoolInfo]; a [PublicKey] is held as its base58 text. *)
Record PoolInfo : Type := mkPoolInfo
  { poolId : string;
    baseMint : string;
    quoteMint : string;
    baseVault : string;
    quoteVault : string;
    baseDecimals : Z;
    quoteDecimals : Z;
    virtualBase : Z;
    virtualQuote : Z;
    realBase : Z;
    realQuote : Z;
    globalConfig : string;
    platformConfig : string }.

Section Pool.

(** [new PublicKey(value)]: the key, or what the constructor throws. *)
Variable newPublicKey : string -> Thrown + string.

(** [getPoolInfo(tokenMint)]: the object literal evaluates its
    constructor calls in order; a throw is caught and gives [null]. *)
Definition getPoolInfo (tokenMint : string) : option PoolInfo :=
  match newPublicKey "mock-pool-id" with
  | inl _ => None
  | inr poolId =>
  match newPublicKey tokenMint with
  | inl _ => None
  | inr baseMint =>
  match newPublicKey "So11111111111111111111111111111111111111112" with
  | inl _ => None
  | inr quoteMint =>
  match newPublicKey "mock-base-vault" with
  | inl _ => None
  | inr baseVault =>
  match newPublicKey "mock-quote-vault" with
  | inl _ => None
  | inr quoteVault =>
  match newPublicKey "mock-global-config" with
  | inl _ => None
  | inr globalConfig =>
  match newPublicKey "mock-platform-config" with
  | inl _ => None
  | inr platformConfig =>
      Some {| poolId := poolId;
              baseMint := baseMint;
              quoteMint := quoteMint;
              baseVault := baseVault;
              quoteVault := quoteVault;
              baseDecimals := 9;
              quoteDecimals := 9;
              virtualBase := 1000000;
              virtualQuote := 1000000;
              realBase := 500000;
              realQuote := 500000;
              globalConfig := globalConfig;
              platformConfig := platformConfig |}
  end end end end end end end.

(** [getSwapInstruction(tokenMint, amount, payer, isSell)]: the program
    id of the instruction it built, or [null]. *)
Definition getSwapInstruction (tokenMint : string) (amount : Q)
    (payer : string) (isSell : bool) : option string :=
  match newPublicKey "mock-program-id" with
  | inl _ => None
  | inr programId => Some programId
  end.

(** [validatePool(tokenMint)]. *)
Definition validatePool (tokenMint : string) : bool :=
  match getPoolInfo tokenMint with
  | None => false
  | Some _ => true
  end.

(** [getPoolLiquidity(tokenMint)]: base, quote and total liquidity. *)
Definition getPoolLiquidity (tokenMint : string) : option (Q * Q * Q) :=
  match getPoolInfo tokenMint with
  | None => None
  | Some poolInfo =>
      let baseLiquidity :=
        (inject_Z (realBase poolInfo) / inject_Z (10 ^ baseDecimals poolInfo))%Q in
      let quoteLiquidity :=
        (inject_Z (realQuote poolInfo) / inject_Z (10 ^ quoteDecimals poolInfo))%Q in
      let totalLiquidity := (baseLiquidity + quoteLiquidity)%Q in
      Some (baseLiquidity, quoteLiquidity, totalLiquidity)
  end.

(** [hasSufficientLiquidity(tokenMint, requiredAmount)]. *)
Definition hasSufficientLiquidity (tokenMint : string) (requiredAmount : Q) : bool :=
  match getPoolLiquidity tokenMint with
  | None => false
  | Some (_, _, totalLiquidity) => Qle_bool requiredAmount totalLiquidity
  end.

(** [getPoolPrice(tokenMint)]. *)
Definition getPoolPrice (tokenMint : string) : option Q :=
  match getPoolInfo tokenMint with
  | None => None
  | Some poolInfo =>
      let baseReserve := realBase poolInfo + virtualBase poolInfo in
      let quoteReserve := realQuote poolInfo + virtualQuote poolInfo in
      Some (inject_Z quoteReserve / inject_Z baseReserve)%Q
  end.

End Pool.

(** The collaborators of the engine when its pool manager is this
    class. *)
Definition withPoolManager (newPublicKey : string -> Thrown + string)
    (env : TradingEngine.Env) : TradingEngine.Env :=
  {| TradingEngine.isDebugMode := TradingEngine.isDebugMode env;
     TradingEngine.getPoolInfo :=
       fun tokenMint => poolId <$> getPoolInfo newPublicKey tokenMint;
     TradingEngine.getSwapInstruction := getSwapInstruction newPublicKey;
     TradingEngine.operation := TradingEngine.operation env;
     TradingEngine.random := TradingEngine.random env;
     TradingEngine.generate := TradingEngine.generate env;
     TradingEngine.stopRequested := TradingEngine.stopRequested env |}.

(** A [PublicKey] constructor that rejects, as base58 decoding does, any
    text holding a hyphen. *)
Definition rejectHyphen (value : string) : Thrown + string :=
  if existsb (fun c => Ascii.eqb c (Ascii.ascii_of_nat 45))
             (list_ascii_of_string value)
  then inl (JsError "Non-base58 character")
  else inr value.

End PoolManager.


Module RetryScenario.
Import Types TransactionManager.

(** An attempt whose blockhash request rejects with [why]. *)
Definition rejecting (why : Thrown) : LedgerAttempt :=
  {| latestBlockhash := inl why;
     signed := inr tt;
     simulation := inr None;
     submitted := inr "sig";
     confirmation := inr None |}.

(** Two attempts fail with an [Error], the third rejects with [null]. *)
Definition nullOnThird : Operation :=
  fun attempt =>
    if attempt =? 3 then rejecting (Nullish true)
    else rejecting (JsError "rpc down").

(** The first attempt rejects with [undefined]; a second one would
    succeed. *)
Definition undefinedThenFine : Operation :=
  fun attempt =>
    if attempt =? 1 then rejecting (Nullish false)
    else {| latestBlockhash := inr ("blockhash", 100);
            signed := inr tt;
            simulation := inr None;
            submitted := inr "sig";
            confirmation := inr None |}.

End RetryScenario.

(** * Properties *)

(** ** Metrics aggregator *)

Module MetricsFacts.
Import Types MetricsCollector.

Lemma recordAll_snoc c rs r :
  recordAll c (rs ++ [r]) = recordTransaction (recordAll c rs) r.
Proof. unfold recordAll. now rewrite fold_left_app. Qed.

Lemma count_success_snoc rs r :
  count_success (rs ++ [r]) =
  count_success rs + (if success r then 1 else 0).
Proof.
  unfold count_success. rewrite filter_app, length_app, Nat2Z.inj_add.
  f_equal. cbn. destruct (success r); cbn; [reflexivity|].
  case_decide; [discriminate | reflexivity].
Qed.

Lemma count_success_le rs : 0 <= count_success rs <= Z.of_nat (length rs).
Proof.
  unfold count_success. split; [lia|].
  apply inj_le. apply length_filter.
Qed.

(** The stored state after recording [rs] into an empty collector. *)
Lemma recordAll_shape now rs :
  let c := recordAll (new now) rs in
  totalTransactions (metrics c) = Z.of_nat (length rs)
  /\ successfulTransactions (metrics c) = count_success rs
  /\ failedTransactions (metrics c) = Z.of_nat (length rs) - count_success rs
  /\ transactionTimes c = map executionTime rs
  /\ successRate (metrics c) = calculateSuccessRate (metrics c)
  /\ averageTransactionTime (metrics c)
     = calculateAverageTransactionTime (transactionTimes c).
Proof.
  induction rs as [|r rs IH] using rev_ind; cbn zeta.
  - cbn. repeat split; reflexivity.
  - rewrite recordAll_snoc.
    destruct IH as (Ht & Hs & Hf & Htimes & _ & _).
    set (c := recordAll (new now) rs) in *.
    rewrite length_app, count_success_snoc, map_app. cbn [length map].
    unfold recordTransaction; cbn [metrics transactionTimes
      totalTransactions successfulTransactions failedTransactions
      successRate averageTransactionTime].
    rewrite Ht, Hs, Hf, Htimes.
    repeat split; try reflexivity; destruct (success r); lia.
Qed.

Lemma fold_left_Qplus (xs : list Q) (a : Q) :
  (fold_left Qplus xs a == a + fold_right Qplus 0 xs)%Q.
Proof.
  revert a. induction xs as [|x xs IH]; intros a; cbn.
  - ring.
  - rewrite IH. ring.
Qed.

Lemma average_is_mean (xs : list Q) :
  (calculateAverageTransactionTime xs == arithmetic_mean xs)%Q.
Proof.
  unfold calculateAverageTransactionTime, arithmetic_mean, reduce_sum.
  destruct xs as [|x xs]; [reflexivity|].
  change (Z.of_nat (length (x :: xs)) =? 0) with false. cbn iota.
  rewrite fold_left_Qplus. now rewrite Qplus_0_l.
Qed.

Lemma rate_is_percentage (m : TradingMetrics) :
  (calculateSuccessRate m ==
     if totalTransactions m =? 0 then 0
     else 100 * inject_Z (successfulTransactions m)
          / inject_Z (totalTransactions m))%Q.
Proof.
  unfold calculateSuccessRate.
  destruct (totalTransactions m =? 0) eqn:E; [reflexivity|].
  apply Z.eqb_neq in E.
  field. intros H. apply E.
  unfold Qeq in H. cbn in H. lia.
Qed.

(** C10.  After any sequence of [recordTransaction] calls on a freshly
    constructed or a reset collector, the stored metrics satisfy
    total = successful + failed (and total is the number of calls),
    successRate = 100 * successful / total (0 for no calls), and
    averageTransactionTime is the arithmetic mean of the recorded
    execution times (0 for no calls). *)
Theorem metrics_invariant_after_records :
  forall (now : Z) (old : MetricsCollector.t) (rs : list TransactionResult),
    accounted rs (recordAll (new now) rs)
    /\ accounted rs (recordAll (reset now old) rs).
Proof.
  intros now old rs.
  assert (H : accounted rs (recordAll (new now) rs)).
  { destruct (recordAll_shape now rs) as (Ht & Hs & Hf & Htimes & Hr & Ha).
    unfold accounted; cbn zeta.
    repeat split.
    - lia.
    - exact Ht.
    - exact Hs.
    - rewrite Hr at 1. apply rate_is_percentage.
    - rewrite Ha, Htimes. apply average_is_mean. }
  split; [exact H | exact H].
Qed.

Lemma isHealthy_after_shape (c : MetricsCollector.t) :
  isHealthy c = true <->
  0 < totalTransactions (metrics c)
  /\ (80 <= successRate (metrics c))%Q
  /\ (averageTransactionTime (metrics c) <= 30000)%Q.
Proof.
  unfold isHealthy.
  rewrite !andb_true_iff, Z.ltb_lt, !Qle_bool_iff. tauto.
Qed.

(** C9.  [isHealthy()] is true exactly when the recorded total is
    positive, the recorded success rate is at least 80 and the recorded
    average transaction time is at most 30000 ms. *)
Theorem isHealthy_iff :
  forall c : MetricsCollector.t,
    isHealthy c = true <->
    0 < totalTransactions (metrics c)
    /\ (80 <= successRate (metrics c))%Q
    /\ (averageTransactionTime (metrics c) <= 30000)%Q.
Proof.
  intros c. unfold isHealthy.
  rewrite !andb_true_iff, Z.ltb_lt, !Qle_bool_iff. tauto.
Qed.

(** Read on what was recorded: a collector is healthy exactly when it
    holds at least one result, at least four in five of them succeeded,
    and their mean execution time is at most 30 s. *)
Lemma isHealthy_after_records (now : Z) (rs : list TransactionResult) :
  isHealthy (recordAll (new now) rs) = true <->
  rs <> []
  /\ 4 * Z.of_nat (length rs) <= 5 * count_success rs
  /\ (arithmetic_mean (map executionTime rs) <= 30000)%Q.
Proof.
  rewrite isHealthy_after_shape.
  destruct (recordAll_shape now rs) as (Ht & Hs & _ & Htimes & Hr & Ha).
  cbn zeta in *. rewrite Hr, Ha, Htimes, average_is_mean, rate_is_percentage.
  rewrite Ht, Hs.
  destruct rs as [|r rs].
  - cbn. split; [intros [H _]; lia | intros [H _]; congruence].
  - set (n := Z.of_nat (length (r :: rs))).
    assert (Hn : 0 < n) by (unfold n; cbn [length]; lia).
    replace (n =? 0) with false by (symmetry; apply Z.eqb_neq; lia).
    set (k := count_success (r :: rs)).
    assert (Hq : (80 <= 100 * inject_Z k / inject_Z n)%Q <-> 4 * n <= 5 * k).
    { unfold Qle, Qdiv, Qmult, Qinv, inject_Z; cbn.
      destruct n as [|np|np]; try lia. cbn. lia. }
    rewrite Hq. split.
    + intros (_ & H1 & H2). split; [discriminate | auto].
    + intros (_ & H1 & H2). auto.
Qed.

End MetricsFacts.

(** ** Transaction execution engine *)

Module RetryFacts.
Import Types TransactionManager.

(** For any policy with a non-negative base delay and a multiplier of at
    least 1, the specified delay is capped and grows with the attempt. *)
Lemma spec_retry_delay_capped (p : RetryConfig) (k : Z) :
  spec_retry_delay p k <= maxDelay p.
Proof. unfold spec_retry_delay. apply Z.le_min_r. Qed.

Lemma spec_retry_delay_mono (p : RetryConfig) (j k : Z) :
  0 <= baseDelay p -> 1 <= backoffMultiplier p ->
  1 <= j -> j <= k ->
  spec_retry_delay p j <= spec_retry_delay p k.
Proof.
  intros Hb Hm Hj Hjk. unfold spec_retry_delay.
  apply Z.min_le_compat_r.
  apply Z.mul_le_mono_nonneg_l; [exact Hb|].
  apply Z.pow_le_mono_r; lia.
Qed.

(** C3.  For every attempt number k >= 1 the computed retry delay is
    min(baseDelay * backoffMultiplier^(k-1), maxDelay), which for the
    default policy is min(1000 * 2^(k-1), 10000); it never exceeds
    maxDelay and it does not decrease when the attempt number grows. *)
Theorem calculateRetryDelay_backoff :
  forall j k : Z,
    1 <= j -> j <= k ->
    calculateRetryDelay k = spec_retry_delay DEFAULT_RETRY_CONFIG k
    /\ calculateRetryDelay k = Z.min (1000 * 2 ^ (k - 1)) 10000
    /\ calculateRetryDelay k <= maxDelay DEFAULT_RETRY_CONFIG
    /\ calculateRetryDelay j <= calculateRetryDelay k.
Proof.
  intros j k Hj Hjk.
  assert (E : forall a, calculateRetryDelay a = spec_retry_delay DEFAULT_RETRY_CONFIG a)
    by reflexivity.
  repeat split.
  - rewrite E. apply spec_retry_delay_capped.
  - rewrite !E. apply spec_retry_delay_mono; cbn; lia.
Qed.

Lemma calculateRetryDelay_backoff_witness :
  1 <= 2 /\ 2 <= 5
  /\ calculateRetryDelay 5 = Z.min (1000 * 2 ^ (5 - 1)) 10000
  /\ calculateRetryDelay 2 <= calculateRetryDelay 5.
Proof.
  split; [lia|]. split; [lia|].
  destruct (calculateRetryDelay_backoff 2 5) as (_ & H2 & _ & H4); [lia | lia |].
  split; [exact H2 | exact H4].
Defined.

(** The delays the default policy yields, attempt by attempt. *)
Example calculateRetryDelay_table :
  map calculateRetryDelay [1; 2; 3; 4; 5; 6; 50]
  = [1000; 2000; 4000; 8000; 10000; 10000; 10000].
Proof. reflexivity. Qed.

(** The loop, when every attempt it still has to make fails. *)
Lemma retryLoop_all_fail debugMode op maxA n :
  forall a last delays e,
    (forall j, a <= j < a + Z.of_nat n -> retriedAt debugMode op j) ->
    (n = O -> last = Some e) ->
    (n <> O -> sendTransaction debugMode (op (a + Z.of_nat n - 1)) = inl e) ->
    let x := retryLoop debugMode op maxA n a last delays in
    outcome x = inl (exhausted maxA (Some e))
    /\ attemptsMade x = a + Z.of_nat n - 1.
Proof.
  induction n as [|n IH]; intros a last delays e Hall H0 Hlast; cbn zeta.
  - cbn. rewrite (H0 eq_refl). split; [reflexivity | lia].
  - cbn [retryLoop].
    destruct (Hall a ltac:(lia)) as (e1 & He1 & Hr). rewrite He1.
    assert (Hstep :
      match e1 with
      | Nullish isNull =>
          {| outcome := inl (messageOfNullish isNull);
             attemptsMade := a; slept := delays |}
      | _ =>
          retryLoop debugMode op maxA n (a + 1) (Some e1)
            (if a <? maxA then delays ++ [calculateRetryDelay a] else delays)
      end
      = retryLoop debugMode op maxA n (a + 1) (Some e1)
          (if a <? maxA then delays ++ [calculateRetryDelay a] else delays)).
    { destruct e1 as [m|m t l|m|isNull]; try reflexivity.
      exfalso. exact (Hr isNull eq_refl). }
    rewrite Hstep. clear Hstep.
    specialize (IH (a + 1) (Some e1)
      (if a <? maxA then delays ++ [calculateRetryDelay a] else delays) e).
    cbn zeta in IH.
    replace (a + Z.of_nat (S n) - 1) with (a + 1 + Z.of_nat n - 1) by lia.
    apply IH.
    + intros j Hj. apply Hall. lia.
    + intros ->. specialize (Hlast ltac:(discriminate)).
      replace (a + Z.of_nat 1 - 1) with a in Hlast by lia. congruence.
    + intros Hn. specialize (Hlast ltac:(discriminate)).
      replace (a + 1 + Z.of_nat n - 1) with (a + Z.of_nat (S n) - 1) by lia.
      exact Hlast.
Qed.


End RetryFacts.

Module EngineContract.
Import Types TransactionManager.
Import TradingEngine (Env, isDebugMode, getSwapInstruction, fulfilled,
                      executeBuyTransaction, executeSellTransaction).








(** The first attempt that is not retried is the same however it is
    found. *)
Lemma first_stop_unique debugMode op (k k' : Z) :
  (forall j, 1 <= j < k -> retriedAt debugMode op j) ->
  (forall j, 1 <= j < k' -> retriedAt debugMode op j) ->
  1 <= k -> 1 <= k' ->
  ~ retriedAt debugMode op k -> ~ retriedAt debugMode op k' ->
  k = k'.
Proof.
  intros Hb Hb' H1 H1' Hk Hk'.
  destruct (Z.lt_trichotomy k k') as [Hlt | [-> | Hgt]]; [|reflexivity|].
  - exfalso. apply Hk, Hb'. lia.
  - exfalso. apply Hk', Hb. lia.
Qed.






Example three_failures_end_in_TypeError :
  let x := executeTransaction false RetryScenario.nullOnThird in
  attemptsMade x = 3
  /\ slept x = [1000; 2000]
  /\ outcome x = inl (JsError "Cannot read properties of null (reading 'message')").
Proof. vm_compute. repeat split; reflexivity. Qed.

(** A first attempt that rejects with [undefined] ends the call at once:
    the second attempt, which would succeed, is never made. *)
Example no_retry_after_undefined_rejection :
  let x := executeTransaction false RetryScenario.undefinedThenFine in
  attemptsMade x = 1 /\ slept x = []
  /\ outcome x
     = inl (JsError "Cannot read properties of undefined (reading 'message')")
  /\ sendTransaction false (RetryScenario.undefinedThenFine 2) = inr "sig".
Proof. vm_compute. repeat split; reflexivity. Qed.

End EngineContract.

Module BatchFacts.
Import Types TransactionManager.

Lemma parallelTask_success debugMode tx :
  batch_success (parallelTask debugMode tx) = true <->
  exists sig, outcome (executeTransaction debugMode tx) = inr sig.
Proof.
  unfold parallelTask.
  destruct (outcome (executeTransaction debugMode tx)) as [e|sig]; cbn.
  - split; [discriminate | intros [sig H]; discriminate].
  - split; [eauto | reflexivity].
Qed.

Lemma parallelTask_failure debugMode tx :
  batch_success (parallelTask debugMode tx) = false <->
  exists e, outcome (executeTransaction debugMode tx) = inl e.
Proof.
  unfold parallelTask.
  destruct (outcome (executeTransaction debugMode tx)) as [e|sig]; cbn.
  - split; [eauto | reflexivity].
  - split; [discriminate | intros [e H]; discriminate].
Qed.

(** C5.  [executeTransactionsParallel] returns one result per input
    operation; the result at position i is the one of input operation i
    (successful with its signature exactly when that operation's
    [executeTransaction] returned, failed with the error message exactly
    when it threw); and the result at a position is the same whatever the
    operations at the other positions are or do. *)
Theorem executeTransactionsParallel_positional :
  forall (debugMode : bool) (transactions : list Operation),
    let results := executeTransactionsParallel debugMode transactions in
    length results = length transactions
    /\ (forall (i : nat) (tx : Operation),
          transactions !! i = Some tx ->
          exists r,
            results !! i = Some r
            /\ r = parallelTask debugMode tx
            /\ (batch_success r = true <->
                exists sig, outcome (executeTransaction debugMode tx) = inr sig
                            /\ batch_signature r = Some sig)
            /\ (batch_success r = false <->
                exists e, outcome (executeTransaction debugMode tx) = inl e
                          /\ batch_error r = Some (message_or_unknown e)))
    /\ (forall (others : list Operation) (i : nat),
          others !! i = transactions !! i ->
          executeTransactionsParallel debugMode others !! i = results !! i).
Proof.
  intros debugMode transactions results. subst results.
  unfold executeTransactionsParallel.
  split; [apply length_map|]. split.
  - intros i tx Hi. exists (parallelTask debugMode tx).
    split; [rewrite list_lookup_fmap, Hi; reflexivity|].
    split; [reflexivity|].
    unfold parallelTask.
    destruct (outcome (executeTransaction debugMode tx)) as [e|sig]; cbn; split.
    + split; [discriminate | intros (sig & H & _); discriminate].
    + split; [intros _; exists e; split; reflexivity | reflexivity].
    + split; [intros _; exists sig; split; reflexivity | reflexivity].
    + split; [discriminate | intros (e & H & _); discriminate].
  - intros others i Hi. rewrite !list_lookup_fmap, Hi. reflexivity.
Qed.

(** A batch of four whose second and fourth operations always fail. *)
Example executeTransactionsParallel_pattern :
  let ok : Operation := fun _ =>
    {| latestBlockhash := inr ("bh", 7); signed := inr tt;
       simulation := inr None;
       submitted := inr "sig"; confirmation := inr None |} in
  let bad : Operation := fun _ =>
    {| latestBlockhash := inr ("bh", 7); signed := inr tt;
       simulation := inr None;
       submitted := inl (JsError "rpc down"); confirmation := inr None |} in
  map batch_success (executeTransactionsParallel false [ok; bad; ok; bad])
  = [true; false; true; false].
Proof. reflexivity. Qed.

End BatchFacts.

(** ** Wallet lifecycle manager *)

Module WalletFacts.
Import Types Fs WalletManager.

Lemma tokenDir_not_walletsDir (tokenMint : string) :
  join walletsDir tokenMint <> walletsDir.
Proof. unfold join, walletsDir, join. cbn. discriminate. Qed.

(** The sell query reads nothing but the per-token directory. *)
Lemma getWalletsForSelling_reads_tokenDir (fs fs' : Fs.t) now tokenMint :
  fs' !! join walletsDir tokenMint = fs !! join walletsDir tokenMint ->
  getWalletsForSelling fs' now tokenMint = getWalletsForSelling fs now tokenMint.
Proof.
  intros H. unfold getWalletsForSelling, existsSync, readdirSync.
  rewrite H. destruct (fs !! join walletsDir tokenMint) as [[g|f]|] eqn:E;
    try reflexivity.
  cbn. f_equal.
  assert (Hf : forall file,
    sellCandidate fs' (join walletsDir tokenMint) now file
    = sellCandidate fs (join walletsDir tokenMint) now file).
  { intros file. unfold sellCandidate, lookupFile. rewrite H, E. reflexivity. }
  induction ((map_to_list g).*1) as [|file l IH]; cbn; [reflexivity|].
  rewrite Hf, IH. reflexivity.
Qed.

(** [saveWallet] writes under [walletsDir] and nowhere else. *)
Lemma saveWallet_other_dirs fs now wallet tokenMint fs' dir :
  saveWallet fs now wallet tokenMint = inr fs' ->
  dir <> walletsDir -> fs' !! dir = fs !! dir.
Proof.
  unfold saveWallet, writeFileSync. intros H Hdir.
  destruct (fs !! walletsDir) as [[d|f]|]; try discriminate.
  injection H as <-. now rewrite lookup_insert_ne.
Qed.

Lemma createLoop_other_dirs generate now dir :
  dir <> walletsDir ->
  forall remaining i fs wallets,
    (createLoop generate now remaining i fs wallets).2 !! dir = fs !! dir.
Proof.
  intros Hdir. induction remaining as [|n IH]; intros i fs wallets; cbn.
  - reflexivity.
  - destruct (saveWallet fs now (generate i) None) as [e|fs'] eqn:E.
    + apply IH.
    + rewrite IH. eapply saveWallet_other_dirs; eassumption.
Qed.

(** Creating wallets never changes what the sell query returns. *)
Lemma createWallets_invisible_to_selling generate first created count fs now tokenMint :
  getWalletsForSelling (createWallets generate first created count fs).2 now tokenMint
  = getWalletsForSelling fs now tokenMint.
Proof.
  apply getWalletsForSelling_reads_tokenDir.
  unfold createWallets. apply createLoop_other_dirs.
  apply tokenDir_not_walletsDir.
Qed.

(** The age test of the query, for a file that is where the query looks. *)
Lemma sellCandidate_age fs dir now file f walletData :
  endsWith file ".json" = true ->
  lookupFile fs dir file = Some f ->
  content f = Some walletData ->
  (is_Some (sellCandidate fs dir now file) <-> 30000 <= now - birthtime f).
Proof.
  intros He Hf Hc. unfold sellCandidate. rewrite He, Hf, Hc. cbn.
  destruct (30000 <=? now - birthtime f) eqn:E.
  - apply Z.leb_le in E. split; [intros _; exact E | intros _; eauto].
  - apply Z.leb_gt in E. split; [intros [x Hx]; discriminate | lia].
Qed.

(** A wallet file born at [T0] inside the per-token directory is left out
    29 s later and returned 31 s later. *)
Example tokenStore_threshold :
  getWalletsForSelling Scenario.tokenStore (Scenario.T0 + 29000) Scenario.mint
  = inr []
  /\ getWalletsForSelling Scenario.tokenStore (Scenario.T0 + 31000) Scenario.mint
     = inr [{| publicKey := "W0"; secretKey := [0] |}].
Proof. split; vm_compute; reflexivity. Qed.

(** C2, evaluated on the code.  [createWallets(1)] at time [T0] returns
    the new wallet and saves it as data/wallets/wallet_W0.json, and the
    sell-eligibility query for the session's token returns no wallet
    both at [T0] + 29 s and at [T0] + 31 s: the file is not in the
    directory the query scans. *)
Theorem created_wallet_never_eligible :
  let created :=
    createWallets Scenario.keys 0 Scenario.T0 1 Scenario.emptyStore in
  created.1 = [Scenario.keys 0]
  /\ readdirSync created.2 walletsDir = inr ["wallet_W0.json"]
  /\ existsSync created.2 (join walletsDir Scenario.mint) = false
  /\ getWalletsForSelling created.2 (Scenario.T0 + 29000) Scenario.mint = inr []
  /\ getWalletsForSelling created.2 (Scenario.T0 + 31000) Scenario.mint = inr [].
Proof. cbn zeta. repeat split; vm_compute; reflexivity. Qed.

End WalletFacts.

(** ** Session orchestrator *)

Module SessionFacts.
Import Types TradingEngine SessionSpec.

(** *** Frames *)

Lemma frame_refl s : frame s s [].
Proof. unfold frame. rewrite app_nil_r. tauto. Qed.

Lemma frame_trans s1 s2 s3 a b :
  frame s1 s2 a -> frame s2 s3 b -> frame s1 s3 (a ++ b).
Proof.
  intros (Ht1 & Hc1 & Hr1 & Ha1) (Ht2 & Hc2 & Hr2 & Ha2).
  unfold frame. rewrite Ht2, Ht1, Hc2, Hc1, Hr2, Hr1, app_assoc. tauto.
Qed.

Lemma quiet_ret {A} (a : A) : quiet (ret a).
Proof.
  intros s. exists (inr a), s, []. split; [reflexivity|].
  split; [apply frame_refl | reflexivity].
Qed.

Lemma quiet_await {A} (r : Thrown + A) : quiet (await r).
Proof.
  intros s. exists r, s, []. split; [reflexivity|].
  split; [apply frame_refl | reflexivity].
Qed.

Lemma quiet_get : quiet get.
Proof.
  intros s. exists (inr s), s, []. split; [reflexivity|].
  split; [apply frame_refl | reflexivity].
Qed.

Lemma quiet_bind {A B} (m : M A) (k : A -> M B) :
  quiet m -> (forall a, quiet (k a)) -> quiet (bind m k).
Proof.
  intros Hm Hk s.
  destruct (Hm s) as ([e|a] & s1 & added1 & E1 & F1 & P1).
  - exists (inl e), s1, added1. unfold bind. rewrite E1. auto.
  - destruct (Hk a s1) as (r & s2 & added2 & E2 & F2 & P2).
    exists r, s2, (added1 ++ added2). unfold bind. rewrite E1, E2.
    split; [reflexivity|]. split; [eapply frame_trans; eassumption|].
    rewrite forallb_app, P1, P2. reflexivity.
Qed.

(** A [catch] block that only logs and rethrows changes nothing. *)
Lemma tryCatch_rethrow {A} (body : M A) s :
  tryCatch body (fun error => throw error) s = body s.
Proof.
  unfold tryCatch, throw. destruct (body s) as [[e|a] s']; reflexivity.
Qed.

Lemma quiet_rethrow {A} (body : M A) :
  quiet body -> quiet (tryCatch body (fun error => throw error)).
Proof.
  intros Hb s. rewrite tryCatch_rethrow. apply Hb.
Qed.

Lemma quiet_modify (f : State -> State) :
  (forall s, frame s (f s) []) -> quiet (modify f).
Proof.
  intros Hf s. exists (inr tt), (f s), []. split; [reflexivity|].
  split; [apply Hf | reflexivity].
Qed.

Lemma frame_set_launched n s : frame s (set_launched n s) [].
Proof. unfold frame; cbn. rewrite app_nil_r. tauto. Qed.

Lemma frame_set_draws n s : frame s (set_draws n s) [].
Proof. unfold frame; cbn. rewrite app_nil_r. tauto. Qed.

Lemma frame_set_files fs n s : frame s (set_files fs n s) [].
Proof. unfold frame; cbn. rewrite app_nil_r. tauto. Qed.

Lemma frame_advance ms s : frame s (advance ms s) [].
Proof. unfold frame; cbn. rewrite app_nil_r. tauto. Qed.

Lemma quiet_mathRandom env : quiet (mathRandom env).
Proof.
  intros s. exists (inr (random env (draws s))), (set_draws (S (draws s)) s), [].
  split; [reflexivity|]. split; [apply frame_set_draws | reflexivity].
Qed.

Lemma quiet_createWallets env count : quiet (createWallets env count).
Proof.
  intros s. unfold createWallets.
  destruct (WalletManager.createWallets (generate env) (generated s) (now s)
              count (files s)) as [wallets fs'].
  do 3 eexists. split; [reflexivity|].
  split; [apply frame_set_files | reflexivity].
Qed.

Lemma sleep_frame why ms s :
  exists s', sleep why ms s = (inr tt, s') /\ frame s s' [Slept why ms].
Proof.
  eexists. split; [reflexivity|]. unfold frame; cbn. tauto.
Qed.

Lemma quiet_sleep why ms : why <> BetweenCycles -> quiet (sleep why ms).
Proof.
  intros Hw s. destruct (sleep_frame why ms s) as (s' & E & F).
  exists (inr tt), s', [Slept why ms]. split; [exact E|]. split; [exact F|].
  destruct why; [reflexivity | reflexivity | congruence].
Qed.

(** *** The executors always fulfil *)

Lemma executeBuyTransaction_fulfils env tokenMint amount wallet op :
  fulfils (executeBuyTransaction env tokenMint amount wallet op).1.
Proof.
  unfold executeBuyTransaction, fulfils.
  destruct (swapAndSend env _ tokenMint amount wallet false op).1;
    cbn; eauto.
Qed.

Lemma executeSellTransaction_fulfils env tokenMint amount wallet op :
  fulfils (executeSellTransaction env tokenMint amount wallet op).1.
Proof.
  unfold executeSellTransaction, fulfils.
  destruct (swapAndSend env _ tokenMint amount wallet true op).1;
    cbn; eauto.
Qed.

(** *** The result loops *)

Lemma processBuyResult_config buyAmount b r :
  TradingSession.config (processBuyResult buyAmount b r).1
  = TradingSession.config b.1.
Proof.
  destruct b as [s c], r as [value|reason]; cbn; [|reflexivity].
  destruct (success value); reflexivity.
Qed.

Lemma processSellResult_config b r :
  TradingSession.config (processSellResult b r).1 = TradingSession.config b.1.
Proof.
  destruct b as [s c], r as [value|reason]; cbn; [|reflexivity].
  destruct (success value); reflexivity.
Qed.

(** A fulfilled result keeps the accounting identity. *)
Lemma processBuyResult_agree buyAmount b r :
  fulfils r -> counters_agree b.1 ->
  counters_agree (processBuyResult buyAmount b r).1.
Proof.
  intros [value ->]. destruct b as [s c]. unfold counters_agree. cbn.
  destruct (success value); cbn; lia.
Qed.

Lemma processSellResult_agree b r :
  fulfils r -> counters_agree b.1 ->
  counters_agree (processSellResult b r).1.
Proof.
  intros [value ->]. destruct b as [s c]. unfold counters_agree. cbn.
  destruct (success value); cbn; lia.
Qed.

(** A rejected one would break it: [failedTransactions] alone grows. *)
Lemma processBuyResult_rejected buyAmount b reason :
  counters_agree b.1 ->
  ~ counters_agree (processBuyResult buyAmount b (rejected reason)).1.
Proof.
  destruct b as [s c]. unfold counters_agree. cbn. lia.
Qed.

Lemma processSellResult_rejected b reason :
  counters_agree b.1 ->
  ~ counters_agree (processSellResult b (rejected reason)).1.
Proof.
  destruct b as [s c]. unfold counters_agree. cbn. lia.
Qed.

Lemma fold_processBuy buyAmount results :
  Forall fulfils results ->
  forall b,
    let b' := fold_left (processBuyResult buyAmount) results b in
    TradingSession.config b'.1 = TradingSession.config b.1
    /\ (counters_agree b.1 -> counters_agree b'.1).
Proof.
  induction 1 as [|r results Hr _ IH]; intros b; cbn zeta; cbn [fold_left].
  - tauto.
  - destruct (IH (processBuyResult buyAmount b r)) as [Hc Ha].
    cbn zeta in Hc, Ha. rewrite Hc, processBuyResult_config.
    split; [reflexivity|]. intros H. apply Ha.
    now apply processBuyResult_agree.
Qed.

Lemma fold_processSell results :
  Forall fulfils results ->
  forall b,
    let b' := fold_left processSellResult results b in
    TradingSession.config b'.1 = TradingSession.config b.1
    /\ (counters_agree b.1 -> counters_agree b'.1).
Proof.
  induction 1 as [|r results Hr _ IH]; intros b; cbn zeta; cbn [fold_left].
  - tauto.
  - destruct (IH (processSellResult b r)) as [Hc Ha].
    cbn zeta in Hc, Ha. rewrite Hc, processSellResult_config.
    split; [reflexivity|]. intros H. apply Ha.
    now apply processSellResult_agree.
Qed.

Lemma frame_books (process : Books -> Settled TransactionResult -> Books)
    (results : list (Settled TransactionResult)) :
  (forall b,
     let b' := fold_left process results b in
     TradingSession.config b'.1 = TradingSession.config b.1
     /\ (counters_agree b.1 -> counters_agree b'.1)) ->
  forall s,
    frame s (let (sess, c) := fold_left process results (session s, collector s) in
             set_books sess c s) [].
Proof.
  intros H s. specialize (H (session s, collector s)). cbn zeta in H.
  destruct (fold_left process results (session s, collector s)) as [sess c].
  unfold frame; cbn in *. rewrite app_nil_r. tauto.
Qed.

Lemma launched_fulfil {A} (f : nat -> A -> Settled TransactionResult * Z) (l : list A) :
  (forall i x, fulfils (f i x).1) -> Forall fulfils (imap f l).*1.
Proof.
  intros Hf. apply Forall_forall. intros r Hr.
  apply list_elem_of_fmap in Hr as (t & -> & Ht).
  apply elem_of_lookup_imap_1 in Ht as (i & x & -> & _). apply Hf.
Qed.

Lemma quiet_executeBuyTransactions env wallets buyAmount :
  quiet (executeBuyTransactions env wallets buyAmount).
Proof.
  unfold executeBuyTransactions.
  apply quiet_bind; [apply quiet_get|]. intros s.
  apply quiet_bind; [apply quiet_modify, frame_set_launched|]. intros _.
  apply quiet_bind; [apply quiet_modify, frame_advance|]. intros _.
  apply quiet_modify. apply frame_books. apply fold_processBuy.
  apply launched_fulfil. intros i wallet. apply executeBuyTransaction_fulfils.
Qed.

Lemma quiet_executeSellBatch env wallets : quiet (executeSellBatch env wallets).
Proof.
  unfold executeSellBatch.
  apply quiet_bind; [apply quiet_get|]. intros s.
  apply quiet_bind; [apply quiet_modify, frame_set_draws|]. intros _.
  apply quiet_bind; [apply quiet_modify, frame_set_launched|]. intros _.
  apply quiet_bind; [apply quiet_modify, frame_advance|]. intros _.
  apply quiet_modify. apply frame_books. apply fold_processSell.
  apply launched_fulfil. intros i wallet. apply executeSellTransaction_fulfils.
Qed.

Lemma quiet_sellLoop env sellWallets iterations :
  forall i, quiet (sellLoop env sellWallets iterations i).
Proof.
  induction iterations as [|n IH]; intros i; cbn [sellLoop].
  - apply quiet_ret.
  - apply quiet_bind; [apply quiet_executeSellBatch|]. intros _.
    apply quiet_bind; [apply quiet_sleep; discriminate|]. intros _.
    apply IH.
Qed.

Lemma quiet_executeSellTransactions env : quiet (executeSellTransactions env).
Proof.
  unfold executeSellTransactions. apply quiet_rethrow.
  apply quiet_bind; [apply quiet_get|]. intros s.
  apply quiet_bind; [apply quiet_await|]. intros sellWallets.
  destruct (length sellWallets =? 0)%nat; [apply quiet_ret | apply quiet_sellLoop].
Qed.

(** *** One cycle *)

Lemma completes_bind {A B} c (m : M A) (k : A -> M B) :
  quiet m -> (forall a, completes c (k a)) -> completes c (bind m k).
Proof.
  intros Hm Hk s.
  destruct (Hm s) as ([e|a] & s1 & added1 & E1 & F1 & P1).
  - exists (inl e), s1, added1. unfold bind. rewrite E1. auto.
  - destruct (Hk a s1) as (r & s2 & added2 & E2 & F2 & T2).
    exists r, s2, (added1 ++ added2). unfold bind. rewrite E1, E2.
    split; [reflexivity|]. split; [eapply frame_trans; eassumption|].
    destruct r as [e|b]; cbn in T2 |- *.
    + rewrite forallb_app, P1, T2. reflexivity.
    + destruct T2 as (mid & -> & Pm). exists (added1 ++ mid).
      rewrite app_assoc, forallb_app, P1, Pm. auto.
Qed.

Lemma completes_emit c : completes c (modify (emit (CycleCompleted c))).
Proof.
  intros s. exists (inr tt), (emit (CycleCompleted c) s), [CycleCompleted c].
  split; [reflexivity|]. split; [unfold frame; cbn; tauto|].
  exists []. auto.
Qed.

(** A cycle records its start, then pauses, then its completion unless
    it throws. *)
Lemma executeTradingCycle_block env c s :
  exists r s' added,
    executeTradingCycle env c s = (r, s')
    /\ frame s s' (CycleStarted c :: added)
    /\ cycle_tail c r added.
Proof.
  assert (H : completes c (cycleBody env c)).
  { unfold cycleBody.
    apply completes_bind; [apply quiet_get|]. intros s0. cbn zeta.
    apply completes_bind; [apply quiet_mathRandom|]. intros r1.
    apply completes_bind; [apply quiet_mathRandom|]. intros r2.
    apply completes_bind; [apply quiet_createWallets|]. intros wallets.
    apply completes_bind; [apply quiet_executeBuyTransactions|]. intros _.
    apply completes_bind; [apply quiet_sleep; discriminate|]. intros _.
    apply completes_bind; [apply quiet_executeSellTransactions|]. intros _.
    apply completes_emit. }
  destruct (H (emit (CycleStarted c) s)) as (r & s' & added & E & F & T).
  exists r, s', added.
  assert (Hrun : executeTradingCycle env c s
                 = tryCatch (cycleBody env c) (fun error => throw error)
                            (emit (CycleStarted c) s)) by reflexivity.
  rewrite Hrun, tryCatch_rethrow, E.
  split; [reflexivity|]. split; [|exact T].
  change (CycleStarted c :: added) with ([CycleStarted c] ++ added).
  eapply frame_trans; [|exact F].
  unfold frame; cbn. tauto.
Qed.

(** *** The cycle loop *)

Lemma interleaveStop_session env c s :
  session (interleaveStop env c s).2 = session s
  /\ trace (interleaveStop env c s).2 = trace s
  /\ draws (interleaveStop env c s).2 = draws s.
Proof.
  unfold interleaveStop, modify; cbn.
  destruct (stopRequested env c); cbn; tauto.
Qed.

(** The loop appends one block per cycle it runs, each completed one
    ending with the inter-cycle sleep; it stops at a cycle that throws. *)
Lemma cycleLoop_blocks env cfg :
  forall remaining c s,
    TradingSession.config (session s) = cfg ->
    exists r s' blocks,
      cycleLoop env remaining c s = (r, s')
      /\ trace s' = trace s ++ blocks
      /\ TradingSession.config (session s') = cfg
      /\ (counters_agree (session s) -> counters_agree (session s'))
      /\ cycle_blocks (delay_drawn env cfg) c blocks.
Proof.
  induction remaining as [|n IH]; intros c s Hcfg.
  - exists (inr tt), s, []. cbn. rewrite app_nil_r.
    repeat split; auto. constructor.
  - destruct (isRunning s) eqn:Hr.
    + destruct (executeTradingCycle_block env (c + 1) s)
        as ([e|[]] & s1 & added & E1 & (Ht1 & Hc1 & _ & Ha1) & T1);
        cbn in T1.
      * (* the cycle throws *)
        exists (inl e), s1, (CycleStarted (c + 1) :: added).
        cbn [cycleLoop]. unfold bind at 1. cbn [get]. rewrite Hr. cbn [negb].
        unfold bind at 1. rewrite E1.
        split; [reflexivity|]. split; [exact Ht1|].
        split; [congruence|]. split; [exact Ha1|].
        now constructor.
      * (* the cycle returns *)
        destruct T1 as (mid & -> & P1).
        pose (s2 := (interleaveStop env (c + 1) s1).2).
        destruct (interleaveStop_session env (c + 1) s1) as (Hs2 & Ht2 & _).
        fold s2 in Hs2, Ht2.
        pose (d := getRandomDelay
                     (TradingSession.delay (TradingSession.config (session s)))
                     (random env (draws s2))).
        pose (s4 := advance (Qfloor (d * 1000))
                      (emit (Slept BetweenCycles (d * 1000))
                         (set_draws (S (draws s2)) s2))).
        assert (Heq : cycleLoop env (S n) c s = cycleLoop env n (c + 1) s4).
        { cbn [cycleLoop]. unfold bind at 1. cbn [get]. rewrite Hr. cbn [negb].
          unfold bind at 1. rewrite E1. reflexivity. }
        assert (Hc4 : TradingSession.config (session s4) = cfg).
        { change (TradingSession.config (session s2) = cfg).
          rewrite Hs2, Hc1. exact Hcfg. }
        destruct (IH (c + 1) s4 Hc4) as (r & s' & rest & E & Ht & Hc & Ha & Hb).
        exists r, s', (CycleStarted (c + 1) :: mid
                       ++ CycleCompleted (c + 1)
                       :: Slept BetweenCycles (d * 1000) :: rest).
        rewrite Heq, E. split; [reflexivity|]. split; [|split; [exact Hc|split]].
        -- rewrite Ht.
           change (trace s4) with (trace s2 ++ [Slept BetweenCycles (d * 1000)]).
           rewrite Ht2, Ht1, <- !app_assoc. cbn. rewrite <- app_assoc. reflexivity.
        -- intros H. apply Ha. change (session s4) with (session s2).
           rewrite Hs2. apply Ha1, H.
        -- constructor; [exact P1 | | exact Hb].
           exists (draws s2). unfold d. rewrite Hcfg. reflexivity.
    + exists (inr tt), s, []. cbn [cycleLoop]. unfold bind at 1. cbn [get].
      rewrite Hr. cbn. rewrite app_nil_r. repeat split; auto. constructor.
Qed.




(** *** The whole session *)

(** The state in which the [try] block of [executeSession] looks up the
    pool, and the one both of its exits leave behind. *)
Lemma executeSession_no_pool env s :
  getPoolInfo env (TradingSession.tokenMint (TradingSession.config (session s))) = None ->
  executeSession env s
  = (inl (BotError ("Pool not found for token: "
                    +:+ TradingSession.tokenMint (TradingSession.config (session s)))
                   VALIDATION_ERROR None),
     set_isRunning false
       (with_session
          (fun sess => TradingSession.set_endTime (now s)
                         (TradingSession.set_isActive false sess))
          (set_isRunning true (with_session (TradingSession.set_isActive true) s)))).
Proof.
  intros H.
  unfold executeSession, tryFinally, tryCatch, bind, modify, get, throw, closeSession.
  cbn. rewrite H. reflexivity.
Qed.

Lemma executeSession_with_pool env s poolInfo r s' :
  getPoolInfo env (TradingSession.tokenMint (TradingSession.config (session s)))
  = Some poolInfo ->
  cycleLoop env (Z.to_nat (TradingSession.cycles (TradingSession.config (session s)))) 0
    (interleaveStop env 0
       (set_isRunning true (with_session (TradingSession.set_isActive true) s))).2
  = (r, s') ->
  executeSession env s
  = (r,
     set_isRunning false
       (with_session
          (fun sess => TradingSession.set_endTime (now s')
                         (TradingSession.set_isActive false sess)) s')).
Proof.
  intros H E.
  unfold executeSession, tryFinally, tryCatch.
  unfold bind at 1. unfold modify at 1.
  unfold bind at 1. unfold modify at 1.
  unfold bind at 1. unfold get at 1.
  unfold bind at 1.
  change (TradingSession.config (session (set_isRunning true
            (with_session (TradingSession.set_isActive true) s))))
    with (TradingSession.config (session s)).
  rewrite H. unfold ret at 1. unfold bind at 1.
  destruct (interleaveStop env 0 _) as [[e|[]] st] eqn:Est.
  - unfold interleaveStop, modify in Est. discriminate.
  - cbn [snd] in E. unfold bind at 1. rewrite E.
    destruct r as [e|[]]; reflexivity.
Qed.

(** Every run of [executeSession]: the bookkeeping of both exits, and the
    trace of the cycles when the pool was found. *)
Lemma executeSession_outcome env s :
  let cfg := TradingSession.config (session s) in
  let out := executeSession env s in
  TradingSession.config (session out.2) = cfg
  /\ isRunning out.2 = false
  /\ TradingSession.isActive (session out.2) = false
  /\ TradingSession.endTime (session out.2) = Some (now out.2)
  /\ (counters_agree (session s) -> counters_agree (session out.2))
  /\ match getPoolInfo env (TradingSession.tokenMint cfg) with
     | None =>
         out.1 = inl (BotError ("Pool not found for token: "
                                +:+ TradingSession.tokenMint cfg)
                               VALIDATION_ERROR None)
         /\ trace out.2 = trace s
     | Some _ =>
         exists blocks,
           trace out.2 = trace s ++ blocks
           /\ cycle_blocks (delay_drawn env cfg) 0 blocks
     end.
Proof.
  cbn zeta.
  destruct (getPoolInfo env (TradingSession.tokenMint (TradingSession.config (session s))))
    as [poolInfo|] eqn:Hpool.
  - pose (s1 := (interleaveStop env 0
       (set_isRunning true (with_session (TradingSession.set_isActive true) s))).2).
    destruct (cycleLoop_blocks env (TradingSession.config (session s))
                (Z.to_nat (TradingSession.cycles (TradingSession.config (session s))))
                0 s1) as (r & s' & blocks & E & Ht & Hc & Ha & Hb).
    { unfold s1.
      destruct (interleaveStop_session env 0
        (set_isRunning true (with_session (TradingSession.set_isActive true) s)))
        as (-> & _ & _). reflexivity. }
    rewrite (executeSession_with_pool env s poolInfo r s' Hpool E).
    destruct (interleaveStop_session env 0
      (set_isRunning true (with_session (TradingSession.set_isActive true) s)))
      as (Hs1 & Ht1 & _).
    fold s1 in Hs1, Ht1.
    cbn. repeat split; try reflexivity.
    + exact Hc.
    + intros H. specialize (Ha ltac:(rewrite Hs1; exact H)). exact Ha.
    + exists blocks. split; [|exact Hb]. rewrite Ht, Ht1. reflexivity.
  - rewrite (executeSession_no_pool env s Hpool).
    cbn. repeat split; try reflexivity. tauto.
Qed.

(** *** Random draws *)


(** C8.  On a degenerate range, min = max = v, the amount drawn (and the
    delay drawn) equals v whatever [Math.random()] returns, and when v is
    an integer n the wallet count drawn is n. *)
Theorem degenerate_range_is_deterministic :
  forall (range : Range.t) (v r : Q),
    (Range.min range == v)%Q -> (Range.max range == v)%Q ->
    (getRandomAmount range r == v)%Q
    /\ (getRandomDelay range r == v)%Q
    /\ (forall n : Z, (v == inject_Z n)%Q -> getRandomWalletCount range r = n).
Proof.
  intros [lo hi] v r Hlo Hhi. cbn in Hlo, Hhi.
  assert (E : (lo + r * (hi - lo) == v)%Q) by (rewrite Hlo, Hhi; ring).
  split; [exact E|]. split; [exact E|].
  intros n Hn. change (Qfloor (lo + r * (hi - lo)) = n).
  rewrite <- (Qfloor_Z n). apply Qfloor_comp. rewrite E. exact Hn.
Qed.

Lemma degenerate_range_is_deterministic_witness :
  (Range.min (Range.mk 2 2) == 2)%Q /\ (Range.max (Range.mk 2 2) == 2)%Q
  /\ (getRandomAmount (Range.mk 2 2) (7 # 10) == 2)%Q
  /\ getRandomWalletCount (Range.mk 2 2) (7 # 10) = 2.
Proof.
  split; [reflexivity|]. split; [reflexivity|].
  destruct (degenerate_range_is_deterministic (Range.mk 2 2) 2 (7 # 10))
    as (Ha & _ & Hn); [reflexivity | reflexivity |].
  split; [exact Ha | apply Hn; reflexivity].
Defined.

(** *** Guarantees of the session *)

(** C1.  If the session's counters agree when [executeSession] starts (as
    they do for a new session), they agree when it exits, whether it ran
    all cycles, was stopped, or threw: totalTransactions =
    successfulTransactions + failedTransactions.  The promises of the buy
    and sell executors always fulfil, so the result loops never take their
    rejected branch. *)
Theorem session_counters_agree :
  forall (env : Env) (s : State),
    counters_agree (session s) ->
    counters_agree (session (executeSession env s).2)
    /\ (forall tokenMint amount wallet op,
          fulfils (executeBuyTransaction env tokenMint amount wallet op).1
          /\ fulfils (executeSellTransaction env tokenMint amount wallet op).1).
Proof.
  intros env s H. split.
  - destruct (executeSession_outcome env s) as (_ & _ & _ & _ & Ha & _).
    exact (Ha H).
  - intros tokenMint amount wallet op.
    split; [apply executeBuyTransaction_fulfils | apply executeSellTransaction_fulfils].
Qed.

Lemma session_counters_agree_witness :
  counters_agree (session (SessionScenario.freshEngine SessionScenario.twoCycles))
  /\ counters_agree
       (session (executeSession (SessionScenario.calmEnv 7)
                   (SessionScenario.freshEngine SessionScenario.twoCycles)).2).
Proof.
  split; [reflexivity|].
  apply (session_counters_agree (SessionScenario.calmEnv 7)
           (SessionScenario.freshEngine SessionScenario.twoCycles)).
  reflexivity.
Defined.

(** The session of the specification's first scenario: one cycle of two
    wallets, nothing old enough to sell. *)
Example one_cycle_two_buys :
  let cfg :=
    {| TradingSession.tokenMint := Scenario.mint;
       TradingSession.buyAmount := Range.mk (1 # 100) (1 # 100);
       TradingSession.sellAmount := Range.mk (1 # 100) (1 # 100);
       TradingSession.walletCount := Range.mk 2 2;
       TradingSession.delay := Range.mk 0 0;
       TradingSession.cycles := 1;
       TradingSession.jitoTip := 0%Q;
       TradingSession.dryRun := None |} in
  let out := executeSession (SessionScenario.calmEnv 7) (SessionScenario.freshEngine cfg) in
  TradingSession.totalTransactions (session out.2) = 2
  /\ TradingSession.successfulTransactions (session out.2) = 2
  /\ TradingSession.failedTransactions (session out.2) = 0
  /\ (TradingSession.getSuccessRate (session out.2) == 100)%Q.
Proof. vm_compute. repeat split; reflexivity. Qed.

(** C6.  Whenever [executeSession] exits, by returning (all cycles run or
    stopped) or by throwing (no pool, or an error that left a cycle), the
    session is inactive and its end time is set, to the time of the exit;
    a thrown error reaches the caller together with that bookkeeping. *)
Theorem session_finalized_on_every_exit :
  forall (env : Env) (s : State),
    let out := executeSession env s in
    let tokenMint := TradingSession.tokenMint (TradingSession.config (session s)) in
    finalized (session out.2)
    /\ TradingSession.endTime (session out.2) = Some (now out.2)
    /\ isRunning out.2 = false
    /\ (forall e, out.1 = inl e -> finalized (session out.2))
    /\ (getPoolInfo env tokenMint = None ->
        out.1 = inl (BotError ("Pool not found for token: " +:+ tokenMint)
                              VALIDATION_ERROR None)
        /\ TradingSession.endTime (session out.2) = Some (now s)).
Proof.
  intros env s. cbn zeta.
  destruct (executeSession_outcome env s) as (_ & Hr & Hi & He & _ & Hp).
  cbn zeta in Hp.
  assert (Hfin : finalized (session (executeSession env s).2)).
  { unfold finalized. rewrite Hi, He. split; [reflexivity | eauto]. }
  split; [exact Hfin|]. split; [exact He|]. split; [exact Hr|].
  split; [intros e _; exact Hfin|].
  intros Hnone. rewrite Hnone in Hp. destruct Hp as [Ho _].
  split; [exact Ho|].
  rewrite (executeSession_no_pool env s Hnone). reflexivity.
Qed.

(** A session whose per-token path is not a directory: the first cycle
    buys twice, then [readdirSync] throws out of the sell phase; the error
    reaches the caller, the session is closed and its counters agree. *)
Example session_closed_when_a_cycle_throws :
  let out := executeSession (SessionScenario.calmEnv 7) SessionScenario.brokenStoreEngine in
  out.1 = inl (JsError "ENOTDIR: not a directory, scandir")
  /\ TradingSession.isActive (session out.2) = false
  /\ TradingSession.endTime (session out.2) = Some (Scenario.T0 + 5000)
  /\ TradingSession.totalTransactions (session out.2) = 2
  /\ TradingSession.successfulTransactions (session out.2) = 2
  /\ TradingSession.failedTransactions (session out.2) = 0
  /\ isRunning out.2 = false.
Proof. vm_compute. repeat split; reflexivity. Qed.


(** The same happens after the last configured cycle of an undisturbed
    session. *)
Example sleep_after_last_cycle :
  let out := executeSession (SessionScenario.calmEnv 7)
               (SessionScenario.freshEngine SessionScenario.twoCycles) in
  out.1 = inr tt
  /\ In (CycleCompleted 2) (trace out.2)
  /\ isInterCycleSleep (afterCycle 2 (trace out.2)) = true.
Proof.
  vm_compute. split; [reflexivity|]. split; [|reflexivity].
  do 6 right. left. reflexivity.
Qed.

End SessionFacts.

(** * Further properties *)

(** ** Transaction execution engine, continued *)

Module TransactionExtras.
Import Types TransactionManager SequentialExecution.


(** X2.  The pauses of [executeTransaction] are the first
    [attemptsMade - 1] entries of 1000 ms, 2000 ms: it pauses between
    attempts only, never after the last one, and it sleeps 3000 ms at
    most in total. *)
Theorem executeTransaction_backoff_schedule :
  forall (debugMode : bool) (op : Operation),
    let x := executeTransaction debugMode op in
    slept x = take (Z.to_nat (attemptsMade x - 1)) [1000; 2000]
    /\ Z.of_nat (length (slept x)) = attemptsMade x - 1
    /\ 0 <= elapsed x <= 3000.
Proof.
  intros debugMode op. cbn zeta.
  change (executeTransaction debugMode op)
    with (retryLoop debugMode op 3 3%nat 1 None []).
  cbn [retryLoop].
  destruct (sendTransaction debugMode (op 1)) as [[m1|m1 t1 l1|m1|b1]|s1];
    [destruct (sendTransaction debugMode (op (1 + 1))) as [[m2|m2 t2 l2|m2|b2]|s2];
     [destruct (sendTransaction debugMode (op (1 + 1 + 1)))
        as [[m3|m3 t3 l3|m3|b3]|s3] .. | | ] ..
    | | ];
    vm_compute; repeat split; congruence.
Qed.

Lemma sequentialLoop_spec debugMode delayMs total :
  forall rest i results delays,
    i + Z.of_nat (length rest) = total ->
    sequentialLoop debugMode delayMs total i rest results delays
    = (results ++ map (parallelTask debugMode) rest,
       delays ++ repeat delayMs
                   (length (filter (fun tx => succeeds debugMode tx = true)
                                   (removelast rest)))).
Proof.
  induction rest as [|tx rest IH]; intros i results delays Hlen.
  - cbn. now rewrite !app_nil_r.
  - cbn [sequentialLoop map]. cbn [length] in Hlen.
    unfold parallelTask at 1.
    assert (Hrl : removelast (tx :: rest)
                  = if decide (rest = []) then [] else tx :: removelast rest).
    { destruct rest; reflexivity. }
    rewrite Hrl.
    assert (Hs : succeeds debugMode tx
                 = match outcome (executeTransaction debugMode tx) with
                   | inr _ => true | inl _ => false end) by reflexivity.
    destruct (outcome (executeTransaction debugMode tx)) as [e|sig].
    + (* the operation failed: no pause *)
      rewrite IH by lia. rewrite <- app_assoc. cbn [app]. f_equal. f_equal.
      destruct (decide (rest = [])) as [->|Hne]; [reflexivity|].
      rewrite filter_cons. case_decide; [congruence | reflexivity].
    + (* it succeeded: a pause unless it was the last input *)
      rewrite IH by lia. rewrite <- app_assoc. cbn [app]. f_equal.
      destruct (decide (rest = [])) as [->|Hne].
      * cbn. replace (i <? total - 1) with false
          by (symmetry; apply Z.ltb_ge; cbn in Hlen; lia).
        reflexivity.
      * replace (i <? total - 1) with true
          by (symmetry; apply Z.ltb_lt; destruct rest; [congruence|]; cbn in Hlen; lia).
        rewrite filter_cons. case_decide; [|congruence].
        cbn [length repeat]. rewrite <- app_assoc. reflexivity.
Qed.

(** X3.  [executeTransactionsSequential] returns the same results, in the
    same order, as [executeTransactionsParallel] on the same operations
    (a failure does not stop the later ones), and it pauses [delayMs]
    once for each successful operation other than the last input; it
    does not pause after a failed one. *)
Theorem executeTransactionsSequential_results :
  forall (debugMode : bool) (transactions : list Operation) (delayMs : Z),
    let run := executeTransactionsSequential debugMode transactions delayMs in
    run.1 = executeTransactionsParallel debugMode transactions
    /\ length run.1 = length transactions
    /\ run.2 = repeat delayMs
                 (length (filter (fun tx => succeeds debugMode tx = true)
                                 (removelast transactions))).
Proof.
  intros debugMode transactions delayMs. cbn zeta.
  unfold executeTransactionsSequential.
  rewrite (sequentialLoop_spec debugMode delayMs
             (Z.of_nat (length transactions)) transactions 0 [] []) by lia.
  cbn [fst snd app]. unfold executeTransactionsParallel.
  repeat split. apply length_map.
Qed.

End TransactionExtras.

(** ** Metrics aggregator, continued *)

Module MetricsExtras.
Import Types MetricsCollector MetricsCalls.

Lemma callAll_snoc c xs x : callAll c (xs ++ [x]) = call (callAll c xs) x.
Proof. unfold callAll. now rewrite fold_left_app. Qed.

Lemma recorded_snoc xs x :
  recorded (xs ++ [x])
  = recorded xs ++ match x with RecordTransaction r => [r] | _ => [] end.
Proof. unfold recorded. rewrite omap_app. destruct x; reflexivity. Qed.

Lemma sumQ_snoc (xs : list Q) (x : Q) : (sumQ (xs ++ [x]) == sumQ xs + x)%Q.
Proof.
  unfold sumQ. induction xs as [|y xs IH]; cbn.
  - ring.
  - rewrite IH. ring.
Qed.

Lemma truthy_adds (x : option Q) (a : Q) :
  ((if truthy x then a + or_zero x else a) == a + or_zero x)%Q.
Proof.
  destruct x as [v|]; cbn; [|ring].
  destruct (Qeq_bool v 0) eqn:E; cbn; [|reflexivity].
  apply Qeq_bool_iff in E. rewrite E. ring.
Qed.

(** The stored state after any sequence of calls on an empty collector. *)
Lemma callAll_shape now xs :
  let c := callAll (new now) xs in
  let rs := recorded xs in
  totalTransactions (metrics c) = Z.of_nat (length rs)
  /\ successfulTransactions (metrics c) = count_success rs
  /\ failedTransactions (metrics c) = Z.of_nat (length rs) - count_success rs
  /\ transactionTimes c = map executionTime rs
  /\ successRate (metrics c) = calculateSuccessRate (metrics c)
  /\ averageTransactionTime (metrics c)
     = calculateAverageTransactionTime (transactionTimes c)
  /\ (totalVolume (metrics c) == sumQ (map volumeOf xs))%Q
  /\ (totalFees (metrics c) == sumQ (map feesOf xs))%Q.
Proof.
  induction xs as [|x xs IH] using rev_ind; cbn zeta.
  - cbn. repeat split; reflexivity.
  - rewrite callAll_snoc, recorded_snoc, !map_app. cbn [map].
    rewrite !sumQ_snoc.
    destruct IH as (Ht & Hs & Hf & Htimes & Hr & Ha & Hv & Hfe).
    set (c := callAll (new now) xs) in *.
    destruct x as [r|v|f|a]; cbn [call volumeOf feesOf].
    + rewrite length_app, MetricsFacts.count_success_snoc.
      cbn [length map].
      unfold recordTransaction; cbn [metrics transactionTimes
        totalTransactions successfulTransactions failedTransactions
        successRate averageTransactionTime totalVolume totalFees].
      rewrite Ht, Hs, Hf, Htimes.
      repeat split; try reflexivity; try (destruct (success r); lia).
      * rewrite truthy_adds, Hv. reflexivity.
      * rewrite truthy_adds, Hfe. reflexivity.
    + cbn [map]. rewrite !app_nil_r.
      split; [exact Ht|]. split; [exact Hs|]. split; [exact Hf|].
      split; [exact Htimes|]. split; [exact Hr|]. split; [exact Ha|].
      split; cbn; [rewrite Hv; reflexivity | rewrite Hfe; ring].
    + cbn [map]. rewrite !app_nil_r.
      split; [exact Ht|]. split; [exact Hs|]. split; [exact Hf|].
      split; [exact Htimes|]. split; [exact Hr|]. split; [exact Ha|].
      split; cbn; [rewrite Hv; ring | rewrite Hfe; reflexivity].
    + cbn [map]. rewrite !app_nil_r.
      split; [exact Ht|]. split; [exact Hs|]. split; [exact Hf|].
      split; [exact Htimes|]. split; [exact Hr|]. split; [exact Ha|].
      split; cbn; [rewrite Hv; ring | rewrite Hfe; ring].
Qed.

(** X4.  Whatever sequence of [recordTransaction], [recordVolume],
    [recordFees] and [recordProfitLoss] calls a new collector receives,
    its counters, success rate and mean time are those of the transaction
    results among the calls: total = successful + failed = number of
    results, rate = 100 * successful / total, mean = arithmetic mean of
    their execution times. *)
Theorem metrics_invariant_under_all_calls :
  forall (now : Z) (xs : list Call),
    accounted (recorded xs) (callAll (new now) xs).
Proof.
  intros now xs.
  destruct (callAll_shape now xs) as (Ht & Hs & Hf & Htimes & Hr & Ha & _ & _).
  cbn zeta in *. unfold accounted; cbn zeta.
  repeat split.
  - lia.
  - exact Ht.
  - exact Hs.
  - rewrite Hr at 1. apply MetricsFacts.rate_is_percentage.
  - rewrite Ha, Htimes. apply MetricsFacts.average_is_mean.
Qed.

(** X5.  The volume of a collector is the sum of the volumes of all
    recorded results, failed ones included, plus what [recordVolume]
    added; its fees are the sum of [gasUsed] over all results plus what
    [recordFees] added. *)
Theorem metrics_volume_and_fees_are_sums :
  forall (now : Z) (xs : list Call),
    (totalVolume (getMetrics (callAll (new now) xs)) == sumQ (map volumeOf xs))%Q
    /\ (totalFees (getMetrics (callAll (new now) xs)) == sumQ (map feesOf xs))%Q.
Proof.
  intros now xs.
  destruct (callAll_shape now xs) as (_ & _ & _ & _ & _ & _ & Hv & Hf).
  split; [exact Hv | exact Hf].
Qed.

Lemma percentage_bounds (k n : Z) :
  0 <= k <= n -> 0 < n ->
  (0 <= inject_Z k / inject_Z n * 100)%Q
  /\ (inject_Z k / inject_Z n * 100 <= 100)%Q.
Proof.
  intros Hk Hn.
  unfold Qle, Qdiv, Qmult, Qinv, inject_Z; cbn.
  destruct n as [|np|np]; try lia. cbn. split; nia.
Qed.

(** X6.  The success rate stored in a collector is always between 0 and
    100, whatever was recorded. *)
Theorem metrics_success_rate_bounded :
  forall (now : Z) (xs : list Call),
    (0 <= successRate (getMetrics (callAll (new now) xs)))%Q
    /\ (successRate (getMetrics (callAll (new now) xs)) <= 100)%Q.
Proof.
  intros now xs. unfold getMetrics.
  destruct (callAll_shape now xs) as (Ht & Hs & _ & _ & Hr & _).
  cbn zeta in *. rewrite Hr. unfold calculateSuccessRate.
  rewrite Ht, Hs.
  pose proof (MetricsFacts.count_success_le (recorded xs)) as Hle.
  destruct (Z.of_nat (length (recorded xs)) =? 0) eqn:E.
  - split; discriminate.
  - apply Z.eqb_neq in E. apply percentage_bounds; lia.
Qed.

End MetricsExtras.

(** ** Session orchestrator, continued *)

Module SessionExtras.
Import Types TradingEngine SessionSpec SessionAudit.

(** *** How the books evolve *)

Lemma evolves_refl s : evolves s s.
Proof. unfold evolves. repeat split; lia || reflexivity. Qed.

Lemma evolves_trans s1 s2 s3 : evolves s1 s2 -> evolves s2 s3 -> evolves s1 s3.
Proof.
  unfold evolves.
  intros (A1 & A2 & A3 & A4 & A5 & A6 & A7 & A8 & A9 & A10 & A11)
         (B1 & B2 & B3 & B4 & B5 & B6 & B7 & B8 & B9 & B10 & B11).
  repeat split; try congruence; try lia.
  rewrite B11. exact A11.
Qed.

(** A step that touches neither the session's books, nor the collector,
    nor the launch count. *)
Lemma evolves_aside s s' :
  session s' = session s -> collector s' = collector s ->
  launched s' = launched s -> evolves s s'.
Proof.
  intros Hs Hc Hl.
  unfold evolves, uncounted, totalGap, successGap, failedGap, volumeGap.
  rewrite Hs, Hc, Hl. repeat split; lia || reflexivity.
Qed.

(** The lifecycle assignments: the counters stay where they are. *)
Lemma evolves_lifecycle (f : TradingSession.t -> TradingSession.t) s :
  (forall x, TradingSession.id (f x) = TradingSession.id x
             /\ TradingSession.startTime (f x) = TradingSession.startTime x
             /\ TradingSession.config (f x) = TradingSession.config x
             /\ TradingSession.totalTransactions (f x) = TradingSession.totalTransactions x
             /\ TradingSession.successfulTransactions (f x) = TradingSession.successfulTransactions x
             /\ TradingSession.failedTransactions (f x) = TradingSession.failedTransactions x
             /\ TradingSession.totalVolume (f x) = TradingSession.totalVolume x) ->
  evolves s (with_session f s).
Proof.
  intros Hf. destruct (Hf (session s)) as (H1 & H2 & H3 & H4 & H5 & H6 & H7).
  unfold evolves, uncounted, totalGap, successGap, failedGap, volumeGap.
  cbn [with_session session collector launched].
  rewrite H1, H2, H3, H4, H5, H6, H7. repeat split; lia || reflexivity.
Qed.

Lemma steady_ret {A} (a : A) : steady (ret a).
Proof. intros s. apply evolves_refl. Qed.

Lemma steady_get : steady get.
Proof. intros s. apply evolves_refl. Qed.

Lemma steady_await {A} (r : Thrown + A) : steady (await r).
Proof. intros s. apply evolves_refl. Qed.

Lemma steady_throw {A} (e : Thrown) : steady (@throw A e).
Proof. intros s. apply evolves_refl. Qed.

Lemma steady_modify (f : State -> State) :
  (forall s, evolves s (f s)) -> steady (modify f).
Proof. intros Hf s. apply Hf. Qed.

Lemma steady_bind {A B} (m : M A) (k : A -> M B) :
  steady m -> (forall a, steady (k a)) -> steady (bind m k).
Proof.
  intros Hm Hk s. specialize (Hm s). unfold bind.
  destruct (m s) as [[e|a] s1]; cbn [snd] in *; [exact Hm|].
  eapply evolves_trans; [exact Hm | apply Hk].
Qed.

Lemma steady_tryCatch {A} (body : M A) (handler : Thrown -> M A) :
  steady body -> (forall e, steady (handler e)) -> steady (tryCatch body handler).
Proof.
  intros Hb Hh s. specialize (Hb s). unfold tryCatch.
  destruct (body s) as [[e|a] s1]; cbn [snd] in *; [|exact Hb].
  eapply evolves_trans; [exact Hb | apply Hh].
Qed.

Lemma steady_tryFinally {A} (body : M A) (cleanup : State -> State) :
  steady body -> (forall s, evolves s (cleanup s)) -> steady (tryFinally body cleanup).
Proof.
  intros Hb Hc s. specialize (Hb s). unfold tryFinally.
  destruct (body s) as [r s1]; cbn [snd] in *.
  eapply evolves_trans; [exact Hb | apply Hc].
Qed.

Lemma steady_mathRandom env : steady (mathRandom env).
Proof. intros s. now apply evolves_aside. Qed.

Lemma steady_sleep why ms : steady (sleep why ms).
Proof. intros s. now apply evolves_aside. Qed.

Lemma steady_createWallets env count : steady (createWallets env count).
Proof.
  intros s. unfold createWallets.
  destruct (WalletManager.createWallets _ _ _ _ _) as [wallets fs'].
  now apply evolves_aside.
Qed.

Lemma steady_interleaveStop env c : steady (interleaveStop env c).
Proof.
  intros s. unfold interleaveStop, modify; cbn [snd].
  destruct (stopRequested env c); [now apply evolves_aside | apply evolves_refl].
Qed.

(** *** The result loops, result by result *)

Lemma books_evolve_refl b : books_evolve 0 b b.
Proof. unfold books_evolve. repeat split; lia || reflexivity. Qed.

Lemma books_evolve_trans n m a b c :
  books_evolve n a b -> books_evolve m b c -> books_evolve (n + m) a c.
Proof.
  unfold books_evolve.
  intros (A1 & A2 & A3 & A4 & A5 & A6 & A7 & A8 & A9 & A10 & A11 & A12)
         (B1 & B2 & B3 & B4 & B5 & B6 & B7 & B8 & B9 & B10 & B11 & B12).
  repeat split; try congruence; try lia.
  rewrite B12. exact A12.
Qed.

Lemma executeBuyTransaction_result env tokenMint amount wallet op :
  executorResult amount (executeBuyTransaction env tokenMint amount wallet op).1.
Proof.
  unfold executeBuyTransaction, executorResult.
  destruct (swapAndSend env _ tokenMint amount wallet false op).1;
    cbn; eexists; split; reflexivity.
Qed.

Lemma executeSellTransaction_result env tokenMint amount wallet op :
  sellResult (executeSellTransaction env tokenMint amount wallet op).1.
Proof.
  exists amount. unfold executeSellTransaction, executorResult.
  destruct (swapAndSend env _ tokenMint amount wallet true op).1;
    cbn; eexists; split; reflexivity.
Qed.

Lemma processBuyResult_books buyAmount b r :
  executorResult buyAmount r ->
  books_evolve 1 b (processBuyResult buyAmount b r).
Proof.
  intros (value & -> & Hvol). destruct b as [sess c].
  unfold books_evolve, processBuyResult, MetricsCollector.recordTransaction.
  rewrite Hvol.
  destruct (success value); cbn [fst snd TradingSession.set_counters
    TradingSession.id TradingSession.startTime TradingSession.config
    TradingSession.isActive TradingSession.endTime
    TradingSession.totalTransactions TradingSession.successfulTransactions
    TradingSession.failedTransactions TradingSession.totalVolume
    MetricsCollector.metrics totalTransactions successfulTransactions
    failedTransactions totalVolume];
    repeat split; try lia.
  rewrite MetricsExtras.truthy_adds. cbn [or_zero]. ring.
Qed.

Lemma processSellResult_books b r :
  sellResult r -> books_evolve 1 b (processSellResult b r).
Proof.
  intros (amount & value & -> & Hvol). destruct b as [sess c].
  unfold books_evolve, processSellResult, MetricsCollector.recordTransaction.
  rewrite Hvol.
  destruct (success value); cbn [fst snd TradingSession.set_counters
    TradingSession.id TradingSession.startTime TradingSession.config
    TradingSession.isActive TradingSession.endTime
    TradingSession.totalTransactions TradingSession.successfulTransactions
    TradingSession.failedTransactions TradingSession.totalVolume
    MetricsCollector.metrics totalTransactions successfulTransactions
    failedTransactions totalVolume];
    repeat split; try lia.
  rewrite MetricsExtras.truthy_adds. cbn [or_zero]. ring.
Qed.

Lemma fold_books (process : Books -> Settled TransactionResult -> Books)
    (P : Settled TransactionResult -> Prop) :
  (forall b r, P r -> books_evolve 1 b (process b r)) ->
  forall results, Forall P results ->
  forall b, books_evolve (Z.of_nat (length results)) b (fold_left process results b).
Proof.
  intros Hstep. induction 1 as [|r results Hr _ IH]; intros b.
  - apply books_evolve_refl.
  - cbn [fold_left length]. rewrite Nat2Z.inj_succ.
    replace (Z.succ (Z.of_nat (length results)))
      with (1 + Z.of_nat (length results)) by lia.
    eapply books_evolve_trans; [apply Hstep, Hr | apply IH].
Qed.

Lemma launched_all {A} (P : Settled TransactionResult -> Prop)
    (f : nat -> A -> Settled TransactionResult * Z) (l : list A) :
  (forall i x, P (f i x).1) -> Forall P (imap f l).*1.
Proof.
  intros Hf. apply Forall_forall. intros r Hr.
  apply list_elem_of_fmap in Hr as (t & -> & Ht).
  apply elem_of_lookup_imap_1 in Ht as (i & x & -> & _). apply Hf.
Qed.

(** From the books to the state: [n] operations launched, [n] counted. *)
Lemma books_to_state n (s s' : State) :
  books_evolve (Z.of_nat n) (session s, collector s) (session s', collector s') ->
  launched s' = (launched s + n)%nat ->
  evolves s s'.
Proof.
  unfold books_evolve, evolves, uncounted, totalGap, successGap, failedGap, volumeGap.
  cbn [fst snd].
  intros (A1 & A2 & A3 & _ & _ & A6 & A7 & A8 & A9 & A10 & A11 & A12) Hl.
  rewrite Hl, Nat2Z.inj_add.
  repeat split; try congruence; try lia; try exact A12.
Qed.

Lemma steady_executeBuyTransactions env wallets buyAmount :
  steady (executeBuyTransactions env wallets buyAmount).
Proof.
  intros s.
  set (tokenMint := TradingSession.tokenMint (TradingSession.config (session s))).
  set (transactions :=
    imap (fun i wallet =>
            executeBuyTransaction env tokenMint buyAmount wallet
              (operation env (launched s + i)%nat)) wallets).
  assert (Hb : books_evolve (Z.of_nat (length wallets))
                 (session s, collector s)
                 (fold_left (processBuyResult buyAmount) transactions.*1
                            (session s, collector s))).
  { replace (length wallets) with (length transactions.*1)
      by (unfold transactions; now rewrite length_fmap, length_imap).
    apply fold_books with (P := executorResult buyAmount).
    - intros b r. apply processBuyResult_books.
    - apply launched_all. intros i wallet. apply executeBuyTransaction_result. }
  unfold executeBuyTransactions, bind, get, modify. cbn [fst snd].
  fold tokenMint. fold transactions.
  destruct (fold_left (processBuyResult buyAmount) transactions.*1
              (session s, collector s)) as [sess c] eqn:E.
  cbn [session collector set_launched advance] in E |- *. rewrite E.
  apply (books_to_state (length wallets)); [exact Hb | reflexivity].
Qed.

Lemma steady_executeSellBatch env wallets : steady (executeSellBatch env wallets).
Proof.
  intros s.
  set (cfg := TradingSession.config (session s)).
  set (transactions :=
    imap (fun i wallet =>
            let sellAmount :=
              getRandomAmount (TradingSession.sellAmount cfg)
                              (random env (draws s + i)%nat) in
            executeSellTransaction env (TradingSession.tokenMint cfg)
              sellAmount wallet (operation env (launched s + i)%nat)) wallets).
  assert (Hb : books_evolve (Z.of_nat (length wallets))
                 (session s, collector s)
                 (fold_left processSellResult transactions.*1
                            (session s, collector s))).
  { replace (length wallets) with (length transactions.*1)
      by (unfold transactions; now rewrite length_fmap, length_imap).
    apply fold_books with (P := sellResult).
    - intros b r. apply processSellResult_books.
    - apply launched_all. intros i wallet. apply executeSellTransaction_result. }
  unfold executeSellBatch, bind, get, modify. cbn [fst snd].
  fold cfg. fold transactions.
  destruct (fold_left processSellResult transactions.*1
              (session s, collector s)) as [sess c] eqn:E.
  cbn [session collector set_launched set_draws advance] in E |- *. rewrite E.
  apply (books_to_state (length wallets)); [exact Hb | reflexivity].
Qed.

(** *** From the batches to the session *)

Lemma steady_sellLoop env sellWallets iterations :
  forall i, steady (sellLoop env sellWallets iterations i).
Proof.
  induction iterations as [|n IH]; intros i; cbn [sellLoop].
  - apply steady_ret.
  - apply steady_bind; [apply steady_executeSellBatch|]. intros _.
    apply steady_bind; [apply steady_sleep|]. intros _. apply IH.
Qed.

Lemma steady_executeSellTransactions env : steady (executeSellTransactions env).
Proof.
  unfold executeSellTransactions.
  apply steady_tryCatch; [|intros e; apply steady_throw].
  apply steady_bind; [apply steady_get|]. intros s.
  apply steady_bind; [apply steady_await|]. intros sellWallets.
  destruct (length sellWallets =? 0)%nat; [apply steady_ret | apply steady_sellLoop].
Qed.

Lemma steady_emit e : steady (modify (emit e)).
Proof. apply steady_modify. intros s. now apply evolves_aside. Qed.

Lemma steady_executeTradingCycle env c : steady (executeTradingCycle env c).
Proof.
  unfold executeTradingCycle.
  apply steady_bind; [apply steady_emit|]. intros _.
  apply steady_tryCatch; [|intros e; apply steady_throw].
  unfold cycleBody.
  apply steady_bind; [apply steady_get|]. intros s0. cbn zeta.
  apply steady_bind; [apply steady_mathRandom|]. intros r1.
  apply steady_bind; [apply steady_mathRandom|]. intros r2.
  apply steady_bind; [apply steady_createWallets|]. intros wallets.
  apply steady_bind; [apply steady_executeBuyTransactions|]. intros _.
  apply steady_bind; [apply steady_sleep|]. intros _.
  apply steady_bind; [apply steady_executeSellTransactions|]. intros _.
  apply steady_emit.
Qed.

Lemma steady_cycleLoop env remaining :
  forall c, steady (cycleLoop env remaining c).
Proof.
  induction remaining as [|n IH]; intros c; cbn [cycleLoop].
  - apply steady_ret.
  - apply steady_bind; [apply steady_get|]. intros s.
    destruct (negb (isRunning s)); [apply steady_ret|].
    apply steady_bind; [apply steady_executeTradingCycle|]. intros _.
    apply steady_bind; [apply steady_interleaveStop|]. intros _.
    apply steady_bind; [apply steady_mathRandom|]. intros r.
    apply steady_bind; [apply steady_sleep|]. intros _. apply IH.
Qed.

Lemma steady_closeSession : steady closeSession.
Proof.
  apply steady_modify. intros s. apply evolves_lifecycle.
  intros x. repeat split.
Qed.

Lemma steady_executeSession env : steady (executeSession env).
Proof.
  unfold executeSession.
  apply steady_tryFinally; [|intros s; now apply evolves_aside].
  apply steady_tryCatch.
  - apply steady_bind.
    { apply steady_modify. intros s. apply evolves_lifecycle.
      intros x. repeat split. }
    intros _.
    apply steady_bind; [apply steady_modify; intros s; now apply evolves_aside|].
    intros _.
    apply steady_bind; [apply steady_get|]. intros s.
    apply steady_bind.
    { destruct (getPoolInfo env _); [apply steady_ret | apply steady_throw]. }
    intros poolInfo.
    apply steady_bind; [apply steady_interleaveStop|]. intros _.
    apply steady_bind; [apply steady_cycleLoop|]. intros _.
    apply steady_closeSession.
  - intros e. apply steady_bind; [apply steady_closeSession|]. intros _.
    apply steady_throw.
Qed.

(** X7.  A session and a metrics collector that hold the same counts and
    volume when [executeSession] starts hold the same counts and volume
    when it exits: every result the session counts is recorded in the
    collector, as a success or a failure alike, with the same volume. *)
Theorem session_and_metrics_in_step :
  forall (env : Env) (s : State),
    in_step s ->
    let s' := (executeSession env s).2 in
    TradingSession.totalTransactions (session s')
    = totalTransactions (MetricsCollector.metrics (collector s'))
    /\ TradingSession.successfulTransactions (session s')
       = successfulTransactions (MetricsCollector.metrics (collector s'))
    /\ TradingSession.failedTransactions (session s')
       = failedTransactions (MetricsCollector.metrics (collector s'))
    /\ (TradingSession.totalVolume (session s')
        == totalVolume (MetricsCollector.metrics (collector s')))%Q.
Proof.
  intros env s (H1 & H2 & H3 & H4). cbn zeta.
  destruct (steady_executeSession env s)
    as (_ & _ & _ & _ & _ & _ & _ & G1 & G2 & G3 & G4).
  unfold totalGap, successGap, failedGap, volumeGap in *.
  repeat split; try lia.
  rewrite H4 in G4. lra.
Qed.

Lemma session_and_metrics_in_step_witness :
  let s := SessionScenario.freshEngine SessionScenario.twoCycles in
  let s' := (executeSession (SessionScenario.calmEnv 7) s).2 in
  in_step s
  /\ TradingSession.totalTransactions (session s')
     = totalTransactions (MetricsCollector.metrics (collector s'))
  /\ (TradingSession.totalVolume (session s')
      == totalVolume (MetricsCollector.metrics (collector s')))%Q.
Proof.
  cbn zeta.
  assert (H0 : in_step (SessionScenario.freshEngine SessionScenario.twoCycles)).
  { repeat split. }
  split; [exact H0|].
  destruct (session_and_metrics_in_step (SessionScenario.calmEnv 7)
              (SessionScenario.freshEngine SessionScenario.twoCycles) H0)
    as (Ht & _ & _ & Hv).
  split; [exact Ht | exact Hv].
Defined.

(** X8.  Over a whole run of [executeSession] the session's total grows
    by exactly the number of operations launched: every buy or sell that
    is started is counted once, none is dropped or counted twice, also
    when the run throws; no counter decreases. *)
Theorem every_launched_operation_is_counted_once :
  forall (env : Env) (s : State),
    let s' := (executeSession env s).2 in
    (launched s <= launched s')%nat
    /\ TradingSession.totalTransactions (session s')
       = TradingSession.totalTransactions (session s)
         + Z.of_nat (launched s' - launched s)
    /\ TradingSession.successfulTransactions (session s)
       <= TradingSession.successfulTransactions (session s')
    /\ TradingSession.failedTransactions (session s)
       <= TradingSession.failedTransactions (session s').
Proof.
  intros env s. cbn zeta.
  destruct (steady_executeSession env s)
    as (_ & _ & _ & Hu & Ht & Hs & Hf & _).
  unfold uncounted in Hu.
  assert (launched s <= launched (executeSession env s).2)%nat by lia.
  repeat split; try assumption. lia.
Qed.

(** X9.  Once [executeSession] has exited, the session's duration no
    longer depends on the clock: [getDuration()] is the time of the exit
    minus the session's start time, whenever it is read. *)
Theorem duration_is_fixed_after_exit :
  forall (env : Env) (s : State) (readAt : Z),
    TradingSession.getDuration readAt (session (executeSession env s).2)
    = now (executeSession env s).2 - TradingSession.startTime (session s).
Proof.
  intros env s readAt.
  destruct (SessionFacts.executeSession_outcome env s) as (_ & _ & _ & He & _).
  destruct (steady_executeSession env s) as (_ & Hstart & _).
  unfold TradingSession.getDuration. rewrite He, Hstart. reflexivity.
Qed.

(** X10.  A session whose counters are non-negative and agree when
    [executeSession] starts reports, after the exit, a success rate
    between 0 and 100. *)
Theorem session_success_rate_bounded :
  forall (env : Env) (s : State),
    counters_agree (session s) ->
    0 <= TradingSession.successfulTransactions (session s) ->
    0 <= TradingSession.failedTransactions (session s) ->
    (0 <= TradingSession.getSuccessRate (session (executeSession env s).2))%Q
    /\ (TradingSession.getSuccessRate (session (executeSession env s).2) <= 100)%Q.
Proof.
  intros env s Hagree Hs Hf.
  destruct (SessionFacts.executeSession_outcome env s) as (_ & _ & _ & _ & Ha & _).
  specialize (Ha Hagree). unfold counters_agree in Ha.
  destruct (steady_executeSession env s) as (_ & _ & _ & _ & _ & Hs' & Hf' & _).
  unfold TradingSession.getSuccessRate.
  destruct (TradingSession.totalTransactions _ =? 0) eqn:E.
  - split; discriminate.
  - apply Z.eqb_neq in E. apply MetricsExtras.percentage_bounds; lia.
Qed.

Lemma session_success_rate_bounded_witness :
  let s := SessionScenario.freshEngine SessionScenario.twoCycles in
  counters_agree (session s)
  /\ 0 <= TradingSession.successfulTransactions (session s)
  /\ 0 <= TradingSession.failedTransactions (session s)
  /\ (TradingSession.getSuccessRate
        (session (executeSession (SessionScenario.calmEnv 7) s).2) <= 100)%Q.
Proof.
  cbn zeta. split; [reflexivity|]. split; [reflexivity|]. split; [reflexivity|].
  apply (session_success_rate_bounded (SessionScenario.calmEnv 7)
           (SessionScenario.freshEngine SessionScenario.twoCycles));
    reflexivity.
Defined.

(** *** Cooperative stop and the numbering of cycles *)

Lemma cycleLoop_not_running env remaining c s :
  isRunning s = false -> cycleLoop env remaining c s = (inr tt, s).
Proof.
  intros Hr. destruct remaining as [|n]; [reflexivity|].
  cbn [cycleLoop]. unfold bind at 1. cbn [get]. rewrite Hr. reflexivity.
Qed.

(** X11.  When [stop()] is called before the first cycle begins (while the
    pool lookup awaits), [executeSession] returns without running any
    cycle: nothing is launched, no wallet is created, no random value is
    drawn, the counters and the trace are untouched, and the session is
    closed at the current time. *)
Theorem stop_before_first_cycle :
  forall (env : Env) (s : State) (poolInfo : string),
    getPoolInfo env (TradingSession.tokenMint (TradingSession.config (session s)))
    = Some poolInfo ->
    stopRequested env 0 = true ->
    let out := executeSession env s in
    out.1 = inr tt
    /\ trace out.2 = trace s
    /\ launched out.2 = launched s
    /\ generated out.2 = generated s
    /\ draws out.2 = draws s
    /\ files out.2 = files s
    /\ collector out.2 = collector s
    /\ TradingSession.totalTransactions (session out.2)
       = TradingSession.totalTransactions (session s)
    /\ TradingSession.isActive (session out.2) = false
    /\ TradingSession.endTime (session out.2) = Some (now s).
Proof.
  intros env s poolInfo Hpool Hstop. cbn zeta.
  assert (Hs1 : (interleaveStop env 0
            (set_isRunning true (with_session (TradingSession.set_isActive true) s))).2
          = set_isRunning false
              (set_isRunning true (with_session (TradingSession.set_isActive true) s))).
  { unfold interleaveStop, modify. cbn [snd]. rewrite Hstop. reflexivity. }
  rewrite (SessionFacts.executeSession_with_pool env s poolInfo (inr tt)
             (set_isRunning false
                (set_isRunning true (with_session (TradingSession.set_isActive true) s)))
             Hpool).
  - repeat split.
  - rewrite Hs1. apply cycleLoop_not_running. reflexivity.
Qed.

Lemma stop_before_first_cycle_witness :
  let env := SessionScenario.calmEnv 0 in
  let s := SessionScenario.freshEngine SessionScenario.twoCycles in
  stopRequested env 0 = true
  /\ (executeSession env s).1 = inr tt
  /\ trace (executeSession env s).2 = []
  /\ launched (executeSession env s).2 = 0%nat.
Proof.
  cbn zeta. split; [reflexivity|].
  destruct (stop_before_first_cycle (SessionScenario.calmEnv 0)
              (SessionScenario.freshEngine SessionScenario.twoCycles) "pool")
    as (H1 & H2 & H3 & _); [reflexivity | reflexivity |].
  split; [exact H1|]. split; [exact H2 | exact H3].
Defined.

Lemma started_app tr1 tr2 : started (tr1 ++ tr2) = started tr1 ++ started tr2.
Proof. unfold started. apply omap_app. Qed.

Lemma started_pauses mid : forallb is_pause mid = true -> started mid = [].
Proof.
  induction mid as [|e mid IH]; [reflexivity|]. cbn [forallb].
  intros H. apply andb_true_iff in H as [He Hm].
  destruct e as [k|k|why ms]; cbn in He; try discriminate.
  cbn. now apply IH.
Qed.

Lemma started_cycle_tail {A} c (r : Thrown + A) added :
  cycle_tail c r added -> started added = [].
Proof.
  destruct r as [e|a]; cbn.
  - apply started_pauses.
  - intros (mid & -> & Hm). rewrite started_app, started_pauses by exact Hm.
    reflexivity.
Qed.

Lemma started_cons_start c tr : started (CycleStarted c :: tr) = c :: started tr.
Proof. reflexivity. Qed.

Lemma numbered_S first m :
  numbered first (S m) = (first + 1) :: numbered (first + 1) m.
Proof.
  unfold numbered. cbn [seq map]. f_equal.
  rewrite <- seq_shift, map_map. apply map_ext. intros k. lia.
Qed.

(** The cycles a run of the loop starts are numbered consecutively; a
    cycle during which a stop was requested is the last one started; and
    a loop that returns without any stop request starts all of them. *)
Lemma cycleLoop_started env :
  forall remaining c s,
    exists m,
      (m <= remaining)%nat
      /\ started (trace (cycleLoop env remaining c s).2)
         = started (trace s) ++ numbered c m
      /\ (forall k, (1 <= k < m)%nat -> stopRequested env (c + Z.of_nat k) = false)
      /\ (m <> 0%nat -> isRunning s = true)
      /\ ((cycleLoop env remaining c s).1 = inr tt ->
          isRunning s = true ->
          (forall k, (1 <= k <= remaining)%nat ->
                     stopRequested env (c + Z.of_nat k) = false) ->
          m = remaining).
Proof.
  induction remaining as [|n IH]; intros c s.
  - exists 0%nat. cbn. rewrite app_nil_r.
    repeat split; try lia; try congruence.
  - destruct (isRunning s) eqn:Hr.
    2:{ exists 0%nat. rewrite cycleLoop_not_running by exact Hr.
        cbn [snd]. unfold numbered; cbn. rewrite app_nil_r.
        repeat split; try lia; try congruence. }
    destruct (SessionFacts.executeTradingCycle_block env (c + 1) s)
      as ([e|[]] & s1 & added & E1 & (Ht1 & _ & Hr1 & _) & T1).
    + (* the cycle throws *)
      exists 1%nat.
      assert (Heq : cycleLoop env (S n) c s = (inl e, s1)).
      { cbn [cycleLoop]. unfold bind at 1. cbn [get]. rewrite Hr. cbn [negb].
        unfold bind at 1. rewrite E1. reflexivity. }
      rewrite Heq. cbn [fst snd].
      split; [lia|]. split.
      { rewrite Ht1, started_app, started_cons_start,
          (started_cycle_tail _ _ _ T1). reflexivity. }
      split; [intros k Hk; lia|]. split; [reflexivity|]. discriminate.
    + (* the cycle returns *)
      pose (s2 := (interleaveStop env (c + 1) s1).2).
      pose (d := getRandomDelay
                   (TradingSession.delay (TradingSession.config (session s)))
                   (random env (draws s2))).
      pose (s4 := advance (Qfloor (d * 1000))
                    (emit (Slept BetweenCycles (d * 1000))
                       (set_draws (S (draws s2)) s2))).
      assert (Heq : cycleLoop env (S n) c s = cycleLoop env n (c + 1) s4).
      { cbn [cycleLoop]. unfold bind at 1. cbn [get]. rewrite Hr. cbn [negb].
        unfold bind at 1. rewrite E1. reflexivity. }
      assert (Hrun4 : isRunning s4
                      = if stopRequested env (c + 1) then false else true).
      { change (isRunning s4) with (isRunning s2). unfold s2, interleaveStop, modify.
        cbn [snd]. destruct (stopRequested env (c + 1)); cbn; congruence. }
      assert (Hst4 : started (trace s4) = started (trace s) ++ [c + 1]).
      { change (trace s4) with (trace s2 ++ [Slept BetweenCycles (d * 1000)]).
        destruct (SessionFacts.interleaveStop_session env (c + 1) s1) as (_ & Ht2 & _).
        fold s2 in Ht2.
        rewrite Ht2, Ht1, !started_app, started_cons_start,
          (started_cycle_tail _ _ _ T1).
        change (started [Slept BetweenCycles (d * 1000)]) with (@nil Z).
        rewrite app_nil_r. reflexivity. }
      destruct (IH (c + 1) s4) as (m & Hm & Hs & Hstop & Hpos & Hall).
      exists (S m). rewrite Heq.
      split; [lia|]. split.
      { rewrite Hs, Hst4, numbered_S, <- app_assoc. reflexivity. }
      split.
      { intros k Hk. destruct (decide (k = 1%nat)) as [->|Hk1].
        - assert (Hm0 : m <> 0%nat) by lia. specialize (Hpos Hm0).
          rewrite Hrun4 in Hpos.
          change (Z.of_nat 1) with 1.
          destruct (stopRequested env (c + 1)); [discriminate | reflexivity].
        - specialize (Hstop (k - 1)%nat ltac:(lia)).
          replace (c + Z.of_nat k) with (c + 1 + Z.of_nat (k - 1)) by lia.
          exact Hstop. }
      split; [reflexivity|].
      intros Hret _ Hnone. f_equal. apply Hall.
      * exact Hret.
      * rewrite Hrun4. specialize (Hnone 1%nat ltac:(lia)).
        change (Z.of_nat 1) with 1 in Hnone. rewrite Hnone. reflexivity.
      * intros k Hk. specialize (Hnone (S k) ltac:(lia)).
        replace (c + 1 + Z.of_nat k) with (c + Z.of_nat (S k)) by lia.
        exact Hnone.
Qed.

(** X12.  In a session started with an empty trace, the cycles that start
    are numbered 1, 2, ..., m in this order with m at most the configured
    number of cycles; no cycle starts after one during which [stop()] was
    called (none at all when it was called before the first); and a run
    that returns without any stop request starts exactly the configured
    number of cycles. *)
Theorem cycles_start_in_order_until_stopped :
  forall (env : Env) (s : State),
    trace s = [] ->
    exists m : nat,
      (m <= Z.to_nat (TradingSession.cycles (TradingSession.config (session s))))%nat
      /\ started (trace (executeSession env s).2) = numbered 0 m
      /\ (forall c, 0 <= c -> stopRequested env c = true -> Z.of_nat m <= c)
      /\ ((executeSession env s).1 = inr tt ->
          (forall c, stopRequested env c = false) ->
          m = Z.to_nat (TradingSession.cycles (TradingSession.config (session s)))).
Proof.
  intros env s Htrace.
  destruct (getPoolInfo env (TradingSession.tokenMint (TradingSession.config (session s))))
    as [poolInfo|] eqn:Hpool.
  - pose (s0 := set_isRunning true (with_session (TradingSession.set_isActive true) s)).
    pose (s1 := (interleaveStop env 0 s0).2).
    pose (n := Z.to_nat (TradingSession.cycles (TradingSession.config (session s)))).
    destruct (cycleLoop_started env n 0 s1) as (m & Hm & Hs & Hstop & Hpos & Hall).
    destruct (cycleLoop env n 0 s1) as [r s'] eqn:E.
    rewrite (SessionFacts.executeSession_with_pool env s poolInfo r s' Hpool E).
    cbn [fst snd] in *.
    assert (Hrun1 : isRunning s1 = if stopRequested env 0 then false else true).
    { unfold s1, interleaveStop, modify. cbn [snd].
      destruct (stopRequested env 0); reflexivity. }
    exists m. split; [exact Hm|]. split.
    { change (trace (set_isRunning false _)) with (trace s').
      rewrite Hs.
      destruct (SessionFacts.interleaveStop_session env 0 s0) as (_ & Ht & _).
      fold s1 in Ht. rewrite Ht. change (trace s0) with (trace s).
      rewrite Htrace. reflexivity. }
    split.
    { intros c Hc Hreq. destruct (decide (c = 0)) as [->|Hc0].
      - destruct m as [|m]; [lia|].
        specialize (Hpos ltac:(discriminate)). rewrite Hrun1, Hreq in Hpos.
        discriminate.
      - destruct (decide (Z.of_nat m <= c)) as [|Hgt]; [assumption|].
        specialize (Hstop (Z.to_nat c) ltac:(lia)).
        rewrite Z2Nat.id, Z.add_0_l in Hstop by lia. congruence. }
    intros Hret Hnone. apply Hall.
    + exact Hret.
    + rewrite Hrun1, Hnone. reflexivity.
    + intros k _. apply Hnone.
  - exists 0%nat. rewrite (SessionFacts.executeSession_no_pool env s Hpool).
    cbn [fst snd]. split; [lia|]. split.
    { change (trace (set_isRunning false _)) with (trace s). rewrite Htrace.
      reflexivity. }
    split; [intros; lia | discriminate].
Qed.

Lemma cycles_start_in_order_until_stopped_witness :
  let s := SessionScenario.freshEngine SessionScenario.twoCycles in
  trace s = []
  /\ started (trace (executeSession (SessionScenario.calmEnv 1) s).2) = [1]
  /\ started (trace (executeSession (SessionScenario.calmEnv 7) s).2) = [1; 2]
  /\ exists m : nat,
       started (trace (executeSession (SessionScenario.calmEnv 1) s).2) = numbered 0 m
       /\ Z.of_nat m <= 1.
Proof.
  cbn zeta. split; [reflexivity|].
  split; [vm_compute; reflexivity|]. split; [vm_compute; reflexivity|].
  destruct (cycles_start_in_order_until_stopped (SessionScenario.calmEnv 1)
              (SessionScenario.freshEngine SessionScenario.twoCycles) eq_refl)
    as (m & _ & Hs & Hstop & _).
  exists m. split; [exact Hs|]. apply Hstop; [lia | reflexivity].
Defined.

(** *** The sell phase *)

Lemma executeSellBatch_counts env wallets s :
  (executeSellBatch env wallets s).1 = inr tt
  /\ launched (executeSellBatch env wallets s).2 = (launched s + length wallets)%nat
  /\ draws (executeSellBatch env wallets s).2 = (draws s + length wallets)%nat
  /\ trace (executeSellBatch env wallets s).2 = trace s.
Proof.
  unfold executeSellBatch, bind, get, modify. cbn [fst snd].
  destruct (fold_left processSellResult _ _) as [sess c].
  repeat split.
Qed.

Lemma sellLoop_counts env sellWallets :
  forall iterations i s,
    let out := sellLoop env sellWallets iterations i s in
    out.1 = inr tt
    /\ launched out.2
       = (launched s + length (take (5 * iterations) (drop i sellWallets)))%nat
    /\ draws out.2
       = (draws s + length (take (5 * iterations) (drop i sellWallets)))%nat
    /\ trace out.2 = trace s ++ repeat (Slept BetweenBatches 1000) iterations.
Proof.
  induction iterations as [|n IH]; intros i s; cbn zeta.
  - cbn. rewrite app_nil_r, take_0. cbn. repeat split; lia || reflexivity.
  - destruct (executeSellBatch_counts env (take 5 (drop i sellWallets)) s)
      as (E1 & L1 & D1 & T1).
    pose (s1 := (executeSellBatch env (take 5 (drop i sellWallets)) s).2).
    pose (s2 := advance (Qfloor 1000) (emit (Slept BetweenBatches 1000) s1)).
    assert (Hstep : sellLoop env sellWallets (S n) i s
                    = sellLoop env sellWallets n (i + 5) s2).
    { change (sellLoop env sellWallets (S n) i s)
        with ((run executeSellBatch env (take 5 (drop i sellWallets)) then
               run sleep BetweenBatches 1000 then
               sellLoop env sellWallets n (i + 5)) s).
      unfold bind at 1.
      destruct (executeSellBatch env (take 5 (drop i sellWallets)) s) as [r1 st1].
      cbn [fst snd] in *. subst r1. reflexivity. }
    rewrite Hstep.
    destruct (IH (i + 5)%nat s2) as (E2 & L2 & D2 & T2).
    split; [exact E2|].
    assert (Hlen : length (take (5 * S n) (drop i sellWallets))
                   = (length (take 5 (drop i sellWallets))
                      + length (take (5 * n) (drop (i + 5) sellWallets)))%nat).
    { rewrite !length_take, !length_drop. lia. }
    rewrite L2, D2, T2, Hlen.
    change (launched s2) with (launched s1). change (draws s2) with (draws s1).
    change (trace s2) with (trace s1 ++ [Slept BetweenBatches 1000]).
    fold s1 in L1, D1, T1. rewrite L1, D1, T1.
    repeat split; try lia.
    rewrite <- app_assoc. reflexivity.
Qed.

(** X13.  The sell phase over [n] eligible wallets launches exactly [n]
    sell operations, one per wallet, draws [n] random amounts, counts
    [n] more transactions in the session, and pauses 1000 ms after each
    batch of five: ceil(n / 5) pauses, also after the last batch. *)
Theorem sell_phase_batches :
  forall (env : Env) (s : State) (sellWallets : list WalletManager.Keypair),
    WalletManager.getWalletsForSelling (files s) (now s)
      (TradingSession.tokenMint (TradingSession.config (session s)))
    = inr sellWallets ->
    let out := executeSellTransactions env s in
    let n := length sellWallets in
    out.1 = inr tt
    /\ launched out.2 = (launched s + n)%nat
    /\ draws out.2 = (draws s + n)%nat
    /\ trace out.2 = trace s ++ repeat (Slept BetweenBatches 1000) ((n + 4) / 5)
    /\ TradingSession.totalTransactions (session out.2)
       = TradingSession.totalTransactions (session s) + Z.of_nat n.
Proof.
  intros env s sellWallets Hw. cbn zeta.
  destruct (steady_executeSellTransactions env s)
    as (_ & _ & _ & Hu & _).
  unfold uncounted in Hu.
  assert (Hrun : executeSellTransactions env s
    = if (length sellWallets =? 0)%nat then (inr tt, s)
      else sellLoop env sellWallets ((length sellWallets + 4) / 5) 0 s).
  { unfold executeSellTransactions. rewrite SessionFacts.tryCatch_rethrow.
    unfold bind at 1. cbn [get]. unfold bind at 1, await at 1. rewrite Hw.
    destruct (length sellWallets =? 0)%nat; reflexivity. }
  rewrite Hrun in Hu |- *.
  destruct (length sellWallets =? 0)%nat eqn:E.
  - apply Nat.eqb_eq in E. rewrite E in *. cbn in *. rewrite app_nil_r.
    repeat split; lia || reflexivity.
  - destruct (sellLoop_counts env sellWallets ((length sellWallets + 4) / 5) 0 s)
      as (E1 & L1 & D1 & T1).
    assert (Hall : length (take (5 * ((length sellWallets + 4) / 5)) (drop 0 sellWallets))
                   = length sellWallets).
    { rewrite drop_0, length_take.
      pose proof (Nat.div_mod_eq (length sellWallets + 4) 5).
      pose proof (Nat.mod_upper_bound (length sellWallets + 4) 5). lia. }
    rewrite Hall in L1, D1.
    split; [exact E1|]. split; [exact L1|]. split; [exact D1|].
    split; [exact T1|]. lia.
Qed.

Lemma sell_phase_batches_witness :
  let s := AuditScenario.sellReadyEngine in
  let out := executeSellTransactions (SessionScenario.calmEnv 7) s in
  WalletManager.getWalletsForSelling (files s) (now s)
    (TradingSession.tokenMint (TradingSession.config (session s)))
  = inr [Scenario.keys 0]
  /\ out.1 = inr tt
  /\ launched out.2 = 1%nat
  /\ trace out.2 = [Slept BetweenBatches 1000]
  /\ TradingSession.totalTransactions (session out.2) = 1.
Proof.
  cbn zeta.
  assert (Hw : WalletManager.getWalletsForSelling
                 (files AuditScenario.sellReadyEngine)
                 (now AuditScenario.sellReadyEngine)
                 (TradingSession.tokenMint
                    (TradingSession.config (session AuditScenario.sellReadyEngine)))
               = inr [Scenario.keys 0]) by (vm_compute; reflexivity).
  split; [exact Hw|].
  destruct (sell_phase_batches (SessionScenario.calmEnv 7)
              AuditScenario.sellReadyEngine [Scenario.keys 0] Hw)
    as (H1 & H2 & _ & H4 & H5).
  split; [exact H1|]. split; [exact H2|]. split; [exact H4 | exact H5].
Defined.

End SessionExtras.

(** ** The pause between cycles *)

Module SleepFacts.
Import Types TradingEngine SessionSpec SessionAudit.







End SleepFacts.

(** ** Wallet lifecycle manager, continued *)

Module WalletExtras.
Import Types Fs WalletManager WalletStore.

(** *** File names *)

Lemma length_append (s t : string) :
  String.length (s +:+ t) = (String.length s + String.length t)%nat.
Proof.
  induction s as [|c s IH]; [reflexivity|].
  change (S (String.length (s +:+ t)) = S (String.length s + String.length t)).
  now rewrite IH.
Qed.

Lemma append_inv_tail (t : string) :
  forall s1 s2 : string, s1 +:+ t = s2 +:+ t -> s1 = s2.
Proof.
  induction s1 as [|c s1 IH]; intros [|c2 s2] H.
  - reflexivity.
  - apply (f_equal String.length) in H.
    change (String.length t = S (String.length (s2 +:+ t))) in H.
    rewrite length_append in H. lia.
  - apply (f_equal String.length) in H.
    change (S (String.length (s1 +:+ t)) = String.length t) in H.
    rewrite length_append in H. lia.
  - change (String c (s1 +:+ t) = String c2 (s2 +:+ t)) in H.
    injection H as -> H. f_equal. now apply IH.
Qed.

Lemma walletFile_inj (a b : string) : walletFile a = walletFile b -> a = b.
Proof.
  unfold walletFile. intros H. apply (inj (String.append "wallet_")) in H.
  now apply append_inv_tail in H.
Qed.

Lemma substring_all (t : string) : substring 0 (String.length t) t = t.
Proof. induction t as [|c t IH]; cbn; [reflexivity | now rewrite IH]. Qed.

Lemma substring_skip (s t : string) (m : nat) :
  substring (String.length s) m (s +:+ t) = substring 0 m t.
Proof. induction s as [|c s IH]; cbn; [reflexivity | exact IH]. Qed.

Lemma endsWith_append (s suffix : string) : endsWith (s +:+ suffix) suffix = true.
Proof.
  unfold endsWith. rewrite length_append.
  replace (String.length s + String.length suffix - String.length suffix)%nat
    with (String.length s) by lia.
  rewrite substring_skip, substring_all, String.eqb_refl, andb_true_r.
  apply Nat.leb_le. lia.
Qed.

Lemma append_assoc (a b c : string) : (a +:+ b) +:+ c = a +:+ (b +:+ c).
Proof.
  induction a as [|x a IH]; [reflexivity|].
  change (String x ((a +:+ b) +:+ c) = String x (a +:+ (b +:+ c))).
  now rewrite IH.
Qed.

Lemma walletFile_json (publicKey : string) :
  endsWith (walletFile publicKey) ".json" = true.
Proof.
  unfold walletFile. rewrite <- append_assoc. apply endsWith_append.
Qed.

(** *** Saving and loading *)

Lemma loadWallet_lookup fs publicKey :
  loadWallet fs publicKey
  = match lookupFile fs walletsDir (walletFile publicKey) with
    | Some {| content := Some walletData |} => Some (keypairOf walletData)
    | _ => None
    end.
Proof.
  unfold loadWallet, fileExists.
  destruct (lookupFile fs walletsDir (walletFile publicKey)); reflexivity.
Qed.

Lemma saveWallet_lookup fs now wallet tokenMint fs' :
  saveWallet fs now wallet tokenMint = inr fs' ->
  exists d born,
    fs !! walletsDir = Some (Directory d)
    /\ fs' = <[walletsDir := Directory
                (<[walletFile (publicKey wallet) :=
                     {| birthtime := born;
                        content := Some {| wd_publicKey := publicKey wallet;
                                           wd_secretKey := secretKey wallet;
                                           wd_balance := 0%Q;
                                           wd_tokenBalance := 0%Q;
                                           wd_createdAt := now;
                                           wd_transactionCount := 0 |} |}]> d)]> fs.
Proof.
  unfold saveWallet, writeFileSync. intros H.
  destruct (fs !! walletsDir) as [[d|f]|]; try discriminate.
  injection H as <-. eauto.
Qed.

Lemma saveWallet_loadWallet_roundtrip_lemma fs fs' now wallet tokenMint :
  saveWallet fs now wallet tokenMint = inr fs' ->
  loadWallet fs' (publicKey wallet) = Some wallet
  /\ (forall other : string,
        other <> publicKey wallet -> loadWallet fs' other = loadWallet fs other).
Proof.
  intros H.
  destruct (saveWallet_lookup _ _ _ _ _ H) as (d & born & Hd & ->).
  split.
  - rewrite loadWallet_lookup. unfold lookupFile.
    rewrite lookup_insert_eq, lookup_insert_eq. destruct wallet; reflexivity.
  - intros other Hne. rewrite !loadWallet_lookup. unfold lookupFile.
    rewrite lookup_insert_eq, Hd, lookup_insert_ne; [reflexivity|].
    intros Heq. apply Hne. symmetry. now apply walletFile_inj.
Qed.

(** X14.  A wallet that [saveWallet] saved is returned intact by
    [loadWallet] under its public key, and saving it changes what
    [loadWallet] returns for no other public key. *)
Theorem saveWallet_loadWallet_roundtrip :
  forall (fs fs' : Fs.t) (now : Z) (wallet : Keypair) (tokenMint : option string),
    saveWallet fs now wallet tokenMint = inr fs' ->
    loadWallet fs' (publicKey wallet) = Some wallet
    /\ (forall other : string,
          other <> publicKey wallet -> loadWallet fs' other = loadWallet fs other).
Proof.
  intros fs fs' now wallet tokenMint H.
  now apply (saveWallet_loadWallet_roundtrip_lemma fs fs' now wallet tokenMint).
Qed.

Lemma saveWallet_loadWallet_roundtrip_witness :
  exists fs',
    saveWallet Scenario.emptyStore Scenario.T0 (Scenario.keys 3) None = inr fs'
    /\ loadWallet fs' (publicKey (Scenario.keys 3)) = Some (Scenario.keys 3).
Proof.
  destruct (saveWallet Scenario.emptyStore Scenario.T0 (Scenario.keys 3) None)
    as [e|fs'] eqn:E; [vm_compute in E; discriminate|].
  exists fs'. split; [reflexivity|].
  exact (proj1 (saveWallet_loadWallet_roundtrip _ _ _ _ _ E)).
Defined.

Lemma saveWallet_succeeds fs now wallet tokenMint d :
  fs !! walletsDir = Some (Directory d) ->
  exists fs' d',
    saveWallet fs now wallet tokenMint = inr fs'
    /\ fs' !! walletsDir = Some (Directory d').
Proof.
  intros Hd. unfold saveWallet, writeFileSync. rewrite Hd.
  do 2 eexists. split; [reflexivity|]. apply lookup_insert_eq.
Qed.

Lemma createLoop_loadable generate now :
  (forall i j, publicKey (generate i) = publicKey (generate j) -> i = j) ->
  forall remaining i fs wallets d,
    fs !! walletsDir = Some (Directory d) ->
    let out := createLoop generate now remaining i fs wallets in
    out.1 = wallets ++ map generate (seq i remaining)
    /\ (forall j, (i <= j < i + remaining)%nat ->
                  loadWallet out.2 (publicKey (generate j)) = Some (generate j))
    /\ (forall other,
          (forall j, (i <= j < i + remaining)%nat -> other <> publicKey (generate j)) ->
          loadWallet out.2 other = loadWallet fs other).
Proof.
  intros Hinj. induction remaining as [|n IH]; intros i fs wallets d Hd; cbn zeta.
  - cbn. rewrite app_nil_r. split; [reflexivity|]. split; [intros j Hj; lia|].
    reflexivity.
  - cbn [createLoop].
    destruct (saveWallet_succeeds fs now (generate i) None d Hd)
      as (fs1 & d1 & E & Hd1).
    rewrite E.
    destruct (saveWallet_loadWallet_roundtrip_lemma _ _ _ _ _ E) as [Hload Hother].
    destruct (IH (S i) fs1 (wallets ++ [generate i]) d1 Hd1) as (Hw & Hl & Ho).
    split; [|split].
    + rewrite Hw, <- app_assoc. reflexivity.
    + intros j Hj. destruct (decide (j = i)) as [->|Hne].
      * rewrite Ho; [exact Hload|].
        intros j Hj' Heq. apply Hinj in Heq. lia.
      * apply Hl. lia.
    + intros other Hnot. rewrite Ho.
      * apply Hother. apply Hnot. lia.
      * intros j Hj. apply Hnot. lia.
Qed.

(** X15.  When the wallets directory exists and the generated key pairs
    have distinct public keys, [createWallets(count)] returns all [count]
    generated wallets in order, and afterwards [loadWallet] returns each
    of them under its public key. *)
Theorem createWallets_all_loadable :
  forall (generate : nat -> Keypair) (first : nat) (now count : Z)
         (fs : Fs.t) (d : gmap string File),
    fs !! walletsDir = Some (Directory d) ->
    (forall i j, publicKey (generate i) = publicKey (generate j) -> i = j) ->
    let out := createWallets generate first now count fs in
    out.1 = map generate (seq first (Z.to_nat count))
    /\ length out.1 = Z.to_nat count
    /\ (forall wallet, In wallet out.1 ->
                       loadWallet out.2 (publicKey wallet) = Some wallet).
Proof.
  intros generate first now count fs d Hd Hinj. cbn zeta.
  unfold createWallets.
  destruct (createLoop_loadable generate now Hinj (Z.to_nat count) first fs [] d Hd)
    as (Hw & Hl & _).
  cbn [app] in Hw. rewrite Hw.
  split; [reflexivity|]. split; [now rewrite length_map, length_seq|].
  intros wallet Hin. apply in_map_iff in Hin as (j & <- & Hj).
  apply in_seq in Hj. apply Hl. lia.
Qed.

Lemma keys_distinct (i j : nat) :
  publicKey (Scenario.keys i) = publicKey (Scenario.keys j) -> i = j.
Proof.
  unfold Scenario.keys. cbn [publicKey]. intros H.
  apply (inj (String.append "W")) in H.
  apply (inj pretty) in H. exact H.
Qed.

Lemma createWallets_all_loadable_witness :
  let out := createWallets Scenario.keys 0 Scenario.T0 3 Scenario.emptyStore in
  Scenario.emptyStore !! walletsDir = Some (Directory ∅)
  /\ out.1 = [Scenario.keys 0; Scenario.keys 1; Scenario.keys 2]
  /\ loadWallet out.2 "W1" = Some (Scenario.keys 1).
Proof.
  cbn zeta.
  assert (Hd : Scenario.emptyStore !! walletsDir = Some (Directory ∅))
    by (vm_compute; reflexivity).
  split; [exact Hd|].
  destruct (createWallets_all_loadable Scenario.keys 0 Scenario.T0 3
              Scenario.emptyStore ∅ Hd keys_distinct) as (Hw & _ & Hl).
  split; [exact Hw|].
  apply (Hl (Scenario.keys 1)). rewrite Hw. right. left. reflexivity.
Defined.

(** *** Deleting *)

Lemma walletsDir_not_backupDir : walletsDir <> backupDir.
Proof. vm_compute. discriminate. Qed.

(** What [deleteWallet] does to the two directories. *)
Lemma deleteWallet_lookups fs now wallet tokenMint :
  let fs' := deleteWallet fs now wallet tokenMint in
  let file := walletFile (publicKey wallet) in
  lookupFile fs' walletsDir file = None
  /\ (forall other, other <> file ->
                    lookupFile fs' walletsDir other = lookupFile fs walletsDir other)
  /\ (forall f bd,
        lookupFile fs walletsDir file = Some f ->
        fs !! backupDir = Some (Directory bd) ->
        exists g, lookupFile fs' backupDir file = Some g /\ content g = content f)
  /\ (forall f,
        lookupFile fs walletsDir file = Some f ->
        fs !! backupDir = None ->
        lookupFile fs' backupDir file = None).
Proof.
  cbn zeta. unfold deleteWallet, fileExists.
  destruct (lookupFile fs walletsDir (walletFile (publicKey wallet))) as [f|] eqn:Hf.
  2:{ repeat split; try assumption; try reflexivity; intros; discriminate. }
  assert (Hdir : exists d, fs !! walletsDir = Some (Directory d)
                           /\ d !! walletFile (publicKey wallet) = Some f).
  { unfold lookupFile in Hf. destruct (fs !! walletsDir) as [[d|g]|];
      try discriminate. eauto. }
  destruct Hdir as (d & Hd & Hdf).
  pose proof walletsDir_not_backupDir as Hne.
  unfold backupWallet, fileExists, copyFileSync. rewrite Hf.
  destruct (fs !! backupDir) as [[bd|g]|] eqn:Hb.
  - unfold unlinkSync. rewrite lookup_insert_ne, Hd, Hdf by congruence.
    unfold lookupFile.
    rewrite !lookup_insert_eq, lookup_insert_ne, lookup_insert_eq by congruence.
    rewrite lookup_delete_eq. split; [reflexivity|]. split.
    { intros other Ho. rewrite Hd. now rewrite lookup_delete_ne. }
    split.
    { intros f0 bd0 [= <-] _. rewrite lookup_insert_eq. eauto. }
    intros f0 _ H0. discriminate.
  - unfold unlinkSync. rewrite Hd, Hdf. unfold lookupFile.
    rewrite !lookup_insert_eq, lookup_insert_ne, Hb by congruence.
    rewrite lookup_delete_eq. split; [reflexivity|]. split.
    { intros other Ho. rewrite Hd. now rewrite lookup_delete_ne. }
    split; [intros f0 bd0 _ H0; discriminate | intros f0 _ H0; discriminate].
  - unfold unlinkSync. rewrite Hd, Hdf. unfold lookupFile.
    rewrite !lookup_insert_eq, lookup_insert_ne, Hb by congruence.
    rewrite lookup_delete_eq. split; [reflexivity|]. split.
    { intros other Ho. rewrite Hd. now rewrite lookup_delete_ne. }
    split; [intros f0 bd0 _ H0; discriminate | reflexivity].
Qed.

(** X16.  After [deleteWallet(wallet)] the wallet can no longer be loaded
    and every other wallet file is untouched.  The deleted file's content
    is in the backup directory when that directory exists; when it does
    not, the failed backup is only logged, the file is deleted all the
    same, and no copy of the key is left. *)
Theorem deleteWallet_removes_and_backs_up :
  forall (fs : Fs.t) (now : Z) (wallet : Keypair) (tokenMint : option string),
    let fs' := deleteWallet fs now wallet tokenMint in
    let file := walletFile (publicKey wallet) in
    loadWallet fs' (publicKey wallet) = None
    /\ (forall other, other <> publicKey wallet ->
                      loadWallet fs' other = loadWallet fs other)
    /\ (forall f bd,
          lookupFile fs walletsDir file = Some f ->
          fs !! backupDir = Some (Directory bd) ->
          exists g, lookupFile fs' backupDir file = Some g /\ content g = content f)
    /\ (forall f,
          lookupFile fs walletsDir file = Some f ->
          fs !! backupDir = None ->
          lookupFile fs' backupDir file = None
          /\ lookupFile fs' walletsDir file = None).
Proof.
  intros fs now wallet tokenMint. cbn zeta.
  destruct (deleteWallet_lookups fs now wallet tokenMint) as (H1 & H2 & H3 & H4).
  cbn zeta in *. split; [|split; [|split]].
  - rewrite loadWallet_lookup, H1. reflexivity.
  - intros other Ho. rewrite !loadWallet_lookup, H2; [reflexivity|].
    intros Heq. apply Ho. now apply walletFile_inj.
  - exact H3.
  - intros f Hf Hb. split; [now apply (H4 f) | exact H1].
Qed.

(** *** Listing *)

Lemma sellCandidate_anyCandidate fs dir now file keypair :
  sellCandidate fs dir now file = Some keypair ->
  anyCandidate fs dir file = Some keypair.
Proof.
  unfold sellCandidate, anyCandidate.
  destruct (negb (endsWith file ".json")); [discriminate|].
  destruct (lookupFile fs dir file) as [[born [walletData|]]|]; cbn;
    try discriminate.
  - destruct (30000 <=? now - born); [|discriminate]. intros [= <-]. reflexivity.
  - destruct (30000 <=? now - born); discriminate.
Qed.

Lemma omap_sublist {A B} (f g : A -> option B) (l : list A) :
  (forall x y, f x = Some y -> g x = Some y) ->
  sublist (omap f l) (omap g l).
Proof.
  intros H. induction l as [|x l IH]; cbn; [constructor|].
  destruct (f x) as [y|] eqn:E.
  - rewrite (H _ _ E). now constructor.
  - destruct (g x); [now constructor | exact IH].
Qed.

(** X17.  The wallets [getWalletsForSelling] returns are, in the same
    order, among those [getAllWallets] returns for the same token, and
    the two methods throw in the same cases. *)
Theorem selling_wallets_among_all_wallets :
  forall (fs : Fs.t) (now : Z) (tokenMint : string),
    match getAllWallets fs tokenMint with
    | inl e => getWalletsForSelling fs now tokenMint = inl e
    | inr every =>
        exists selling,
          getWalletsForSelling fs now tokenMint = inr selling
          /\ sublist selling every
          /\ (length selling <= length every)%nat
    end.
Proof.
  intros fs now tokenMint. unfold getAllWallets, getWalletsForSelling.
  destruct (negb (existsSync fs (join walletsDir tokenMint))).
  - exists []. repeat split; [constructor | lia].
  - destruct (readdirSync fs (join walletsDir tokenMint)) as [e|files];
      [reflexivity|].
    eexists. split; [reflexivity|].
    assert (Hsub : sublist (omap (sellCandidate fs (join walletsDir tokenMint) now) files)
                           (omap (anyCandidate fs (join walletsDir tokenMint)) files)).
    { apply omap_sublist. intros x y. apply sellCandidate_anyCandidate. }
    split; [exact Hsub | now apply sublist_length].
Qed.

(** *** Cleaning up *)

Lemma canonical_after_delete fs now wallet tokenMint :
  canonical fs -> canonical (deleteWallet fs now wallet tokenMint).
Proof.
  intros Hc file f walletData Hf Hcontent Hjson.
  destruct (deleteWallet_lookups fs now wallet tokenMint) as (H1 & H2 & _).
  cbn zeta in *.
  destruct (decide (file = walletFile (publicKey wallet))) as [->|Hne].
  - rewrite H1 in Hf. discriminate.
  - rewrite H2 in Hf by exact Hne. eapply Hc; eassumption.
Qed.

(** What is left of an entry once the loop has passed over [files]. *)
Lemma cleanupLoop_lookup now maxAge :
  forall files fs count,
    canonical fs ->
    forall file,
      lookupFile (cleanupLoop now maxAge files fs count).1 walletsDir file
      = match lookupFile fs walletsDir file with
        | Some f =>
            if bool_decide (file ∈ files)
            then match expired now maxAge file f with
                 | Some _ => None
                 | None => Some f
                 end
            else Some f
        | None => None
        end.
Proof.
  induction files as [|x files IH]; intros fs count Hc file.
  - cbn. destruct (lookupFile fs walletsDir file); reflexivity.
  - cbn [cleanupLoop].
    destruct (lookupFile fs walletsDir x) as [fx|] eqn:Hx.
    2:{ rewrite IH by exact Hc.
        destruct (lookupFile fs walletsDir file) as [f|] eqn:Hf; [|reflexivity].
        assert (file <> x) by congruence.
        rewrite (bool_decide_ext (file ∈ x :: files) (file ∈ files));
          [reflexivity | rewrite elem_of_cons; tauto]. }
    destruct (expired now maxAge x fx) as [keypair|] eqn:He.
    + (* the entry is deleted *)
      assert (Hname : x = walletFile (publicKey keypair)).
      { unfold expired in He.
        destruct (endsWith x ".json") eqn:Hj; [|discriminate]. cbn in He.
        destruct (maxAge <? now - birthtime fx); [|discriminate].
        destruct (content fx) as [walletData|] eqn:Hcontent; [|discriminate].
        injection He as <-. exact (Hc x fx walletData Hx Hcontent Hj). }
      destruct (deleteWallet_lookups fs now keypair None) as (H1 & H2 & _).
      cbn zeta in *. rewrite <- Hname in H1, H2.
      rewrite IH by (now apply canonical_after_delete).
      destruct (decide (file = x)) as [->|Hne].
      * rewrite H1, Hx, He.
        rewrite bool_decide_eq_true_2 by (apply elem_of_cons; auto). reflexivity.
      * rewrite H2 by exact Hne.
        destruct (lookupFile fs walletsDir file) as [f|]; [|reflexivity].
        rewrite (bool_decide_ext (file ∈ x :: files) (file ∈ files));
          [reflexivity | rewrite elem_of_cons; tauto].
    + (* the entry stays *)
      rewrite IH by exact Hc.
      destruct (lookupFile fs walletsDir file) as [f|] eqn:Hf; [|reflexivity].
      destruct (decide (file = x)) as [->|Hne].
      * assert (f = fx) as -> by congruence. rewrite He.
        destruct (bool_decide (x ∈ files));
          rewrite bool_decide_eq_true_2 by (apply elem_of_cons; auto); reflexivity.
      * rewrite (bool_decide_ext (file ∈ x :: files) (file ∈ files));
          [reflexivity | rewrite elem_of_cons; tauto].
Qed.

(** X18.  On a wallets directory whose files are named after the keys
    they hold, [cleanupOldWallets(maxAge)] deletes exactly the [.json]
    wallet files strictly older than [maxAge]: a file whose age equals
    [maxAge], a file that does not parse and any other entry stay as they
    were. *)
Theorem cleanupOldWallets_deletes_exactly_the_expired :
  forall (fs fs' : Fs.t) (now maxAge count : Z),
    canonical fs ->
    cleanupOldWallets fs now (Some maxAge) = inr (fs', count) ->
    forall file : string,
      lookupFile fs' walletsDir file
      = match lookupFile fs walletsDir file with
        | Some f =>
            if endsWith file ".json" && (maxAge <? now - birthtime f)
               && bool_decide (is_Some (content f))
            then None else Some f
        | None => None
        end.
Proof.
  intros fs fs' now maxAge count Hc Hrun file.
  unfold cleanupOldWallets in Hrun. cbn [default] in Hrun.
  destruct (negb (existsSync fs walletsDir)) eqn:Hex.
  { injection Hrun as <- <-. unfold existsSync in Hex. unfold lookupFile.
    destruct (fs !! walletsDir); [discriminate | reflexivity]. }
  unfold readdirSync in Hrun.
  destruct (fs !! walletsDir) as [[d|g]|] eqn:Hd; try discriminate.
  injection Hrun as Hrun.
  apply (f_equal fst) in Hrun. cbn [fst] in Hrun. rewrite <- Hrun.
  rewrite cleanupLoop_lookup by exact Hc.
  destruct (lookupFile fs walletsDir file) as [f|] eqn:Hf; [|reflexivity].
  assert (Hin : file ∈ (map_to_list d).*1).
  { unfold lookupFile in Hf. rewrite Hd in Hf.
    apply list_elem_of_fmap. exists (file, f). split; [reflexivity|].
    now apply elem_of_map_to_list. }
  rewrite bool_decide_eq_true_2 by exact Hin.
  unfold expired.
  destruct (endsWith file ".json"); cbn; [|reflexivity].
  destruct (maxAge <? now - birthtime f); cbn; [|reflexivity].
  destruct (content f); cbn.
  - try rewrite bool_decide_eq_true_2 by eauto. reflexivity.
  - try rewrite bool_decide_eq_false_2 by (intros [x Hx]; discriminate).
    reflexivity.
Qed.

Lemma canonical_after_save fs fs' now wallet tokenMint :
  canonical fs -> saveWallet fs now wallet tokenMint = inr fs' -> canonical fs'.
Proof.
  intros Hc Hsave file f walletData Hf Hcontent Hjson.
  destruct (saveWallet_lookup _ _ _ _ _ Hsave) as (d & born & Hd & ->).
  unfold lookupFile in Hf. rewrite lookup_insert_eq in Hf.
  destruct (decide (file = walletFile (publicKey wallet))) as [->|Hne].
  - rewrite lookup_insert_eq in Hf. injection Hf as <-.
    cbn in Hcontent. injection Hcontent as <-. reflexivity.
  - rewrite lookup_insert_ne in Hf by congruence.
    apply (Hc file f walletData); [|assumption|assumption].
    unfold lookupFile. rewrite Hd. exact Hf.
Qed.

Lemma canonical_createLoop generate now :
  forall remaining i fs wallets,
    canonical fs -> canonical (createLoop generate now remaining i fs wallets).2.
Proof.
  induction remaining as [|n IH]; intros i fs wallets Hc; cbn [createLoop].
  - exact Hc.
  - destruct (saveWallet fs now (generate i) None) as [e|fs'] eqn:E.
    + now apply IH.
    + apply IH. eapply canonical_after_save; eassumption.
Qed.

Lemma canonical_emptyStore : canonical Scenario.emptyStore.
Proof.
  intros file f walletData Hf _ _. unfold lookupFile in Hf.
  assert (Hd : Scenario.emptyStore !! walletsDir = Some (Directory ∅))
    by (vm_compute; reflexivity).
  rewrite Hd, lookup_empty in Hf. discriminate.
Qed.

Lemma cleanupOldWallets_deletes_exactly_the_expired_witness :
  let fs := (createWallets Scenario.keys 0 Scenario.T0 2 Scenario.emptyStore).2 in
  canonical fs
  /\ exists fs',
       cleanupOldWallets fs (Scenario.T0 + 100) (Some 50) = inr (fs', 2)
       /\ lookupFile fs' walletsDir "wallet_W0.json" = None
       /\ cleanupOldWallets fs (Scenario.T0 + 50) (Some 50) = inr (fs, 0).
Proof.
  cbn zeta.
  assert (Hc : canonical
    (createWallets Scenario.keys 0 Scenario.T0 2 Scenario.emptyStore).2).
  { apply canonical_createLoop, canonical_emptyStore. }
  split; [exact Hc|].
  destruct (cleanupOldWallets
              (createWallets Scenario.keys 0 Scenario.T0 2 Scenario.emptyStore).2
              (Scenario.T0 + 100) (Some 50)) as [e|[fs' count]] eqn:E;
    [vm_compute in E; discriminate|].
  assert (Hcount : count = 2).
  { apply (f_equal (fun r => match r with inr (_, c) => c | inl _ => 0 end)) in E.
    vm_compute in E. congruence. }
  subst count. exists fs'. split; [reflexivity|]. split.
  - rewrite (cleanupOldWallets_deletes_exactly_the_expired _ _ _ _ _ Hc E
               "wallet_W0.json").
    vm_compute. reflexivity.
  - vm_compute. reflexivity.
Defined.

(** *** Wallet status *)

Lemma filter_length_le {A} (P Q : A -> Prop)
    `{forall x, Decision (P x)} `{forall x, Decision (Q x)} (l : list A) :
  (forall x, P x -> Q x) ->
  (length (filter P l) <= length (filter Q l))%nat.
Proof.
  intros HPQ. induction l as [|x l IH]; [reflexivity|].
  rewrite !filter_cons.
  destruct (decide (P x)) as [Hp|Hp].
  - destruct (decide (Q x)) as [Hq|Hq]; [cbn; lia | exfalso; auto].
  - destruct (decide (Q x)); cbn; lia.
Qed.

Lemma isActiveWallet_json fs getBalance file :
  isActiveWallet fs getBalance file = true -> endsWith file ".json" = true.
Proof.
  unfold isActiveWallet. destruct (endsWith file ".json"); [reflexivity|].
  discriminate.
Qed.

(** X19.  [getWalletStatus] never reports more active wallets than total
    wallets, and neither count is negative; when the main wallet or its
    balance cannot be obtained it reports zero for all three figures. *)
Theorem getWalletStatus_counts :
  forall (fs : Fs.t) (mainWallet : Thrown + string)
         (getBalance : string -> Thrown + Z),
    let status := getWalletStatus fs mainWallet getBalance in
    0 <= activeWallets status <= totalWallets status
    /\ ((forall main, mainWallet = inr main -> exists e, getBalance main = inl e) ->
        status = {| mainWalletBalance := 0%Q; activeWallets := 0; totalWallets := 0 |}).
Proof.
  intros fs mainWallet getBalance. cbn zeta. unfold getWalletStatus.
  destruct mainWallet as [e|main].
  { split; [cbn; lia | reflexivity]. }
  destruct (getBalance main) as [e|mainBalance] eqn:Hb.
  { split; [cbn; lia | reflexivity]. }
  split.
  - destruct (existsSync fs walletsDir); [|cbn; lia].
    destruct (readdirSync fs walletsDir) as [e|files]; [cbn; lia|].
    cbn [activeWallets totalWallets]. split; [lia|].
    apply inj_le. apply filter_length_le. intros file. apply isActiveWallet_json.
  - intros H. destruct (H main eq_refl) as [e He]. congruence.
Qed.

End WalletExtras.

(** ** Fund retrieval *)

Module FundsExtras.
Import Types Fs WalletManager WalletStore FundsRecovery.

(** Closes a goal about one path through [retrieveFunds] once the
    equations of that path are among the hypotheses. *)
Ltac settle :=
  intros;
  repeat match goal with
         | H : _ /\ _ |- _ => destruct H
         | H : exists _, _ |- _ => destruct H
         | H : inr _ = inr _ |- _ => injection H as H
         | H : inl _ = inl _ |- _ => injection H as H
         | H : Some _ = Some _ |- _ => injection H as H
         | H : (_, _) = (_, _) |- _ => injection H as H
         end;
  subst; try discriminate; try congruence; try lia;
  repeat split; eauto; try lia.

(** X20.  [WalletManager.retrieveFunds] submits a transfer exactly when
    the balance exceeds 5000 lamports and every step up to and including
    the submission goes through; the amount is the balance minus 5000,
    hence positive.  It returns after a transfer exactly when, besides,
    the confirmation call returns, whatever error that confirmation
    reports; when the confirmation call rejects it throws although the
    transfer was submitted.  With a balance of 5000 lamports or less it
    returns without submitting anything. *)
Theorem retrieveFunds_transfers_all_but_5000 :
  forall (l : SweepLedger),
    let r := retrieveFunds l in
    (forall lamports signature,
       submitted r = Some (lamports, signature) <->
       (exists main, treasury l = inr main)
       /\ (exists balance, balanceOf l = inr balance
                           /\ 5000 < balance /\ lamports = balance - 5000)
       /\ transferBuilt l = inr tt
       /\ (exists blockhash, recentBlockhash l = inr blockhash)
       /\ transferSigned l = inr tt
       /\ transferSent l = inr signature)
    /\ (forall lamports signature,
          submitted r = Some (lamports, signature) -> 0 < lamports)
    /\ (forall lamports signature,
          result r = inr (Transferred lamports signature) <->
          submitted r = Some (lamports, signature)
          /\ exists outcome, transferConfirmed l = inr outcome)
    /\ (forall e,
          submitted r <> None -> transferConfirmed l = inl e -> result r = inl e)
    /\ (forall balance,
          result r = inr (Skipped balance) <->
          (exists main, treasury l = inr main)
          /\ balanceOf l = inr balance /\ balance <= 5000)
    /\ (forall balance, result r = inr (Skipped balance) -> submitted r = None).
Proof.
  intros l. cbn zeta. unfold retrieveFunds, failedBefore.
  destruct (treasury l) as [e|main]; cbn [submitted result];
    [repeat split; settle|].
  destruct (balanceOf l) as [e|balance]; cbn [submitted result];
    [repeat split; settle|].
  destruct (balance <=? 5000) eqn:Hle; cbn [submitted result];
    [apply Z.leb_le in Hle; repeat split; settle | apply Z.leb_gt in Hle].
  destruct (transferBuilt l) as [e|[]]; cbn [submitted result];
    [repeat split; settle|].
  destruct (recentBlockhash l) as [e|blockhash]; cbn [submitted result];
    [repeat split; settle|].
  destruct (transferSigned l) as [e|[]]; cbn [submitted result];
    [repeat split; settle|].
  destruct (transferSent l) as [e|sig]; cbn [submitted result];
    [repeat split; settle|].
  destruct (transferConfirmed l) as [e|outcome]; repeat split; settle.
Qed.

(** A transfer whose confirmation reports an error is still a success;
    one whose confirmation call times out was submitted all the same. *)
Example retrieveFunds_ignores_confirmation_error :
  result (retrieveFunds (FundsScenario.funded 2000000 (Some "InstructionError")))
  = inr (Transferred 1995000 "sweep-signature")
  /\ result (retrieveFunds (FundsScenario.funded 5000 None)) = inr (Skipped 5000)
  /\ retrieveFunds (FundsScenario.funded 5001 None)
     = {| submitted := Some (1, "sweep-signature");
          result := inr (Transferred 1 "sweep-signature") |}
  /\ retrieveFunds (FundsScenario.unconfirmed 2000000)
     = {| submitted := Some (1995000, "sweep-signature");
          result := inl (JsError "Transaction was not confirmed in 30.00 seconds") |}.
Proof. repeat split. Qed.

(** The outcomes of sweeping [wallets], the first one being call number
    [first] of the ledger. *)
Lemma retrieveFundsBatch_spec ledger delayMs :
  forall wallets first,
    let out := retrieveFundsBatch ledger delayMs first wallets in
    out.1 = imap (fun k wallet => (wallet, retrieveFunds (ledger (first + k)%nat))) wallets
    /\ out.2 = repeat delayMs
                 (length (filter (fun o => returned o.2 = true) out.1)).
Proof.
  induction wallets as [|wallet rest IH]; intros first; cbn zeta.
  - split; reflexivity.
  - cbn [retrieveFundsBatch fst snd]. destruct (IH (S first)) as [H1 H2].
    cbn zeta in H1, H2. split.
    + rewrite imap_cons, Nat.add_0_r, H1. f_equal.
      apply imap_ext. intros k x _. cbn. do 3 f_equal. lia.
    + rewrite filter_cons. cbn [snd].
      assert (Hret : returned (retrieveFunds (ledger first))
                     = match result (retrieveFunds (ledger first)) with
                       | inr _ => true
                       | inl _ => false
                       end) by reflexivity.
      destruct (result (retrieveFunds (ledger first))) as [e|sweep].
      * case_decide; [congruence|]. exact H2.
      * case_decide; [|congruence]. cbn [length repeat]. now rewrite H2.
Qed.

Lemma repeat_pause (d : Z) (a m : nat) :
  repeat d a ++ [d] ++ repeat d m = repeat d (a + S m).
Proof. rewrite repeat_app. reflexivity. Qed.

Lemma sweepLoop_spec ledger delayMs wallets :
  forall iterations i,
    let out := sweepLoop ledger delayMs wallets iterations i in
    out.1 = imap (fun k wallet => (wallet, retrieveFunds (ledger (i + k)%nat)))
                 (take (5 * iterations) (drop i wallets))
    /\ out.2 = repeat delayMs
                 (length (filter (fun o => returned o.2 = true) out.1) + iterations).
Proof.
  induction iterations as [|n IH]; intros i; cbn zeta.
  - cbn [sweepLoop fst snd]. rewrite Nat.mul_0_r, take_0. split; reflexivity.
  - cbn [sweepLoop fst snd].
    destruct (retrieveFundsBatch_spec ledger delayMs (take 5 (drop i wallets)) i)
      as [B1 B2].
    destruct (IH (i + 5)%nat) as [L1 L2]. cbn zeta in B1, B2, L1, L2.
    split.
    + replace (5 * S n)%nat with (5 + 5 * n)%nat by lia.
      rewrite <- take_take_drop, drop_drop, imap_app, B1, L1. f_equal.
      apply imap_ext. intros k x Hk. do 3 f_equal.
      assert (Hlong : (5 <= length (drop i wallets))%nat).
      { apply lookup_lt_Some in Hk. rewrite length_take, length_drop in Hk.
        rewrite length_drop. lia. }
      rewrite length_take. lia.
    + rewrite filter_app, length_app, B2, L2, repeat_pause. f_equal. lia.
Qed.

(** X21.  [TradingEngine.retrieveFunds] attempts every wallet that
    [getAllWallets] returns exactly once and in order, whatever the
    earlier attempts did: an attempt that throws is skipped over.  It
    pauses [delayMs] after each attempt that returned and once after each
    batch of five. *)
Theorem sweepAll_attempts_every_wallet :
  forall (fs : Fs.t) (ledger : nat -> SweepLedger) (tokenMint : string)
         (delayMs : Z) (wallets : list Keypair),
    getAllWallets fs tokenMint = inr wallets ->
    exists outcomes sleeps,
      sweepAll fs ledger tokenMint (Some delayMs) = inr (outcomes, sleeps)
      /\ outcomes.*1 = wallets
      /\ (forall k wallet,
            wallets !! k = Some wallet ->
            outcomes !! k = Some (wallet, retrieveFunds (ledger k)))
      /\ sleeps = repeat delayMs
                    (length (filter (fun o => returned o.2 = true) outcomes)
                     + (length wallets + 4) / 5).
Proof.
  intros fs ledger tokenMint delayMs wallets Hw.
  unfold sweepAll. rewrite Hw. cbn [default].
  destruct (length wallets =? 0)%nat eqn:E.
  - apply Nat.eqb_eq in E. destruct wallets; [|discriminate].
    exists [], []. repeat split. intros k wallet Hk. discriminate.
  - destruct (sweepLoop_spec ledger delayMs wallets ((length wallets + 4) / 5) 0)
      as [H1 H2].
    cbn zeta in H1, H2.
    assert (Hall : take (5 * ((length wallets + 4) / 5)) (drop 0 wallets) = wallets).
    { rewrite drop_0. apply take_ge.
      pose proof (Nat.div_mod_eq (length wallets + 4) 5).
      pose proof (Nat.mod_upper_bound (length wallets + 4) 5). lia. }
    rewrite Hall in H1.
    exists (sweepLoop ledger delayMs wallets ((length wallets + 4) / 5) 0).1,
           (sweepLoop ledger delayMs wallets ((length wallets + 4) / 5) 0).2.
    split; [now rewrite <- surjective_pairing|]. split; [|split].
    + rewrite H1. apply list_eq. intros k.
      rewrite list_lookup_fmap, list_lookup_imap.
      destruct (wallets !! k); reflexivity.
    + intros k wallet Hk. rewrite H1, list_lookup_imap, Hk. reflexivity.
    + exact H2.
Qed.

Lemma sweepAll_attempts_every_wallet_witness :
  let wallets := Scenario.keys <$> [3; 5; 1; 2; 4; 0]%nat in
  getAllWallets SweepScenario.sixStore Scenario.mint = inr wallets
  /\ exists outcomes sleeps,
       sweepAll SweepScenario.sixStore SweepScenario.flaky Scenario.mint (Some 300)
         = inr (outcomes, sleeps)
       /\ outcomes.*1 = wallets
       /\ (forall k wallet,
             wallets !! k = Some wallet ->
             outcomes !! k
               = Some (wallet, retrieveFunds (SweepScenario.flaky k)))
       /\ sleeps = repeat 300
                     (length (filter (fun o => returned o.2 = true) outcomes)
                      + (length wallets + 4) / 5).
Proof.
  cbn zeta. split; [vm_compute; reflexivity|].
  apply (sweepAll_attempts_every_wallet SweepScenario.sixStore SweepScenario.flaky
           Scenario.mint 300 (Scenario.keys <$> [3; 5; 1; 2; 4; 0]%nat)).
  vm_compute. reflexivity.
Defined.

(** What [getAllWallets] returns depends on the per-token directory
    alone. *)
Lemma getAllWallets_reads_tokenDir (fs fs' : Fs.t) tokenMint :
  fs' !! join walletsDir tokenMint = fs !! join walletsDir tokenMint ->
  getAllWallets fs' tokenMint = getAllWallets fs tokenMint.
Proof.
  intros H. unfold getAllWallets, existsSync, readdirSync.
  rewrite H. destruct (fs !! join walletsDir tokenMint) as [[g|f]|] eqn:E;
    try reflexivity.
  cbn. f_equal.
  assert (Hf : forall file,
    anyCandidate fs' (join walletsDir tokenMint) file
    = anyCandidate fs (join walletsDir tokenMint) file).
  { intros file. unfold anyCandidate, lookupFile. rewrite H, E. reflexivity. }
  induction ((map_to_list g).*1) as [|file l IH]; cbn; [reflexivity|].
  rewrite Hf, IH. reflexivity.
Qed.

Lemma tokenDir_apart (tokenMint : string) :
  join walletsDir tokenMint <> walletsDir
  /\ join walletsDir tokenMint <> backupDir.
Proof. unfold join, walletsDir, backupDir, join. cbn. split; discriminate. Qed.

Lemma deleteWallet_other_dirs fs now wallet tokenMint dir :
  dir <> walletsDir -> dir <> backupDir ->
  deleteWallet fs now wallet tokenMint !! dir = fs !! dir.
Proof.
  intros Hw Hb. unfold deleteWallet.
  destruct (fileExists fs walletsDir (walletFile (publicKey wallet)));
    [|reflexivity].
  assert (Hbackup : backupWallet fs now wallet !! dir = fs !! dir).
  { unfold backupWallet.
    destruct (fileExists fs walletsDir (walletFile (publicKey wallet)));
      [|reflexivity].
    unfold copyFileSync.
    destruct (lookupFile fs walletsDir (walletFile (publicKey wallet)));
      [|reflexivity].
    destruct (fs !! backupDir) as [[d|g]|]; try reflexivity.
    now rewrite lookup_insert_ne. }
  unfold unlinkSync.
  destruct (backupWallet fs now wallet !! walletsDir) as [[d|f]|];
    try exact Hbackup.
  destruct (d !! walletFile (publicKey wallet)); [|exact Hbackup].
  now rewrite lookup_insert_ne.
Qed.

Lemma cleanupLoop_other_dirs now maxAge dir :
  dir <> walletsDir -> dir <> backupDir ->
  forall files fs cleanedCount,
    (cleanupLoop now maxAge files fs cleanedCount).1 !! dir = fs !! dir.
Proof.
  intros Hw Hb. induction files as [|file files IH]; intros fs cleanedCount;
    cbn [cleanupLoop]; [reflexivity|].
  destruct (lookupFile fs walletsDir file) as [f|]; [|apply IH].
  destruct (expired now maxAge file f) as [keypair|]; [|apply IH].
  rewrite IH. now apply deleteWallet_other_dirs.
Qed.

(** X22.  No operation of [WalletManager] that writes wallet files
    touches the directory of a token: after [createWallets], a successful
    [saveWallet] (whatever mint it is given), [deleteWallet] or
    [cleanupOldWallets], both [getAllWallets] and [getWalletsForSelling]
    return for that token what they returned before, so the wallets a
    cycle creates are never offered to the sweep of
    [TradingEngine.retrieveFunds]. *)
Theorem token_directories_are_never_written :
  forall (fs : Fs.t) (now : Z) (tokenMint : string),
    Paths.isSegment tokenMint = true ->
    let unchanged (fs' : Fs.t) :=
      getAllWallets fs' tokenMint = getAllWallets fs tokenMint
      /\ (forall at_, getWalletsForSelling fs' at_ tokenMint
                      = getWalletsForSelling fs at_ tokenMint)
      /\ (forall ledger delayMs,
            sweepAll fs' ledger tokenMint delayMs
            = sweepAll fs ledger tokenMint delayMs) in
    (forall generate first count,
        unchanged (createWallets generate first now count fs).2)
    /\ (forall wallet mint fs',
          saveWallet fs now wallet mint = inr fs' -> unchanged fs')
    /\ (forall wallet mint, unchanged (deleteWallet fs now wallet mint))
    /\ (forall maxAge fs' cleaned,
          cleanupOldWallets fs now maxAge = inr (fs', cleaned) -> unchanged fs').
Proof.
  intros fs now tokenMint _. cbn zeta.
  destruct (tokenDir_apart tokenMint) as [Hw Hb].
  assert (Hsame : forall fs',
    fs' !! join walletsDir tokenMint = fs !! join walletsDir tokenMint ->
    getAllWallets fs' tokenMint = getAllWallets fs tokenMint
    /\ (forall at_, getWalletsForSelling fs' at_ tokenMint
                    = getWalletsForSelling fs at_ tokenMint)
    /\ (forall ledger delayMs,
          sweepAll fs' ledger tokenMint delayMs
          = sweepAll fs ledger tokenMint delayMs)).
  { intros fs' H. split; [|split].
    - now apply getAllWallets_reads_tokenDir.
    - intros at_. now apply WalletFacts.getWalletsForSelling_reads_tokenDir.
    - intros ledger delayMs. unfold sweepAll.
      now rewrite (getAllWallets_reads_tokenDir fs fs' tokenMint H). }
  split; [|split; [|split]].
  - intros generate first count. apply Hsame. unfold createWallets.
    now apply WalletFacts.createLoop_other_dirs.
  - intros wallet mint fs' H. apply Hsame.
    eapply WalletFacts.saveWallet_other_dirs; eassumption.
  - intros wallet mint. apply Hsame. now apply deleteWallet_other_dirs.
  - intros maxAge fs' cleaned H. apply Hsame. unfold cleanupOldWallets in H.
    destruct (negb (existsSync fs walletsDir)).
    { injection H as <- _. reflexivity. }
    destruct (readdirSync fs walletsDir) as [e|files]; [discriminate|].
    injection H as H. 
    pose proof (cleanupLoop_other_dirs now (default (24 * 60 * 60 * 1000) maxAge)
                  (join walletsDir tokenMint) Hw Hb files fs 0) as Hl.
    rewrite H in Hl. exact Hl.
Qed.

Lemma token_directories_are_never_written_witness :
  Paths.isSegment Scenario.mint = true
  /\ (forall generate first count,
        getAllWallets
          (createWallets generate first Scenario.T0 count SweepScenario.sixStore).2
          Scenario.mint
        = getAllWallets SweepScenario.sixStore Scenario.mint).
Proof.
  split; [vm_compute; reflexivity|].
  intros generate first count.
  apply (token_directories_are_never_written SweepScenario.sixStore Scenario.T0
           Scenario.mint).
  vm_compute. reflexivity.
Defined.

End FundsExtras.

(** ** Random draws from a configured range *)

Module RangeExtras.
Import Types TradingEngine.



End RangeExtras.

(** ** Configuration *)

Module ConfigExtras.
Import Types ConfigManager.

Lemma notPositive_false (v : option Json) :
  notPositive v = false <-> exists n, v = Some (JNumber n) /\ boundOk true n.
Proof.
  unfold boundOk. split.
  - destruct v as [[| |n| | |]|]; cbn [notPositive]; try discriminate.
    intros H. exists n. split; [reflexivity|]. now apply negb_false_iff.
  - intros (n & -> & H). cbn [notPositive]. now rewrite H.
Qed.

Lemma negative_false (v : option Json) :
  negative v = false <-> exists n, v = Some (JNumber n) /\ boundOk false n.
Proof.
  unfold boundOk. split.
  - destruct v as [[| |n| | |]|]; cbn [negative]; try discriminate.
    intros H. exists n. split; [reflexivity | exact H].
  - intros (n & -> & H). exact H.
Qed.

Lemma one_error_nil (b : bool) (message : string) :
  (if b then [message] else []) = [] <-> b = false.
Proof. destruct b; split; congruence. Qed.

Lemma app_nil_iff {A} (l1 l2 : list A) : l1 ++ l2 = [] <-> l1 = [] /\ l2 = [].
Proof.
  split; [apply app_eq_nil | intros [-> ->]; reflexivity].
Qed.

Section Ranges.
Variable looseGreater : Json -> Json -> bool.
Variable tooSmall : option Json -> bool.
Variable strict : bool.
Hypothesis tooSmall_false :
  forall v, tooSmall v = false <-> exists n, v = Some (JNumber n) /\ boundOk strict n.

Lemma checkRange_nil (range : option Json)
    (required minMessage maxMessage orderMessage : string) :
  checkRange looseGreater tooSmall range required minMessage maxMessage orderMessage = []
  <-> rangeOk strict range.
Proof.
  unfold checkRange, rangeOk. split.
  - destruct range as [[| b | n | s | items | members]|]; cbn [truthyValue typeof isObjectTag negb orb];
      try discriminate.
    + destruct b; discriminate.
    + destruct n as [q| |]; cbn; try discriminate.
      destruct (negb (Qeq_bool q 0)); discriminate.
    + destruct (negb (s =? "")%string); discriminate.
    + cbn [member get]. intros H.
      apply app_nil_iff in H as [H1 H]. apply app_nil_iff in H as [H2 H3].
      apply one_error_nil in H1, H2, H3.
      apply tooSmall_false in H1 as (n1 & E1 & _). discriminate.
    + cbn [member get]. intros H.
      apply app_nil_iff in H as [H1 H]. apply app_nil_iff in H as [H2 H3].
      apply one_error_nil in H1, H2, H3.
      apply tooSmall_false in H1 as (lo & E1 & B1).
      apply tooSmall_false in H2 as (hi & E2 & B2).
      rewrite E1, E2 in H3. cbn in H3.
      exists members, lo, hi. repeat split; assumption.
  - intros (members & lo & hi & -> & E1 & E2 & B1 & B2 & H3).
    cbn [truthyValue typeof isObjectTag negb orb member get].
    rewrite !app_nil_iff, !one_error_nil. split; [|split].
    + apply tooSmall_false. eauto.
    + apply tooSmall_false. eauto.
    + rewrite E1, E2. exact H3.
Qed.

End Ranges.

Lemma tokenMint_nil (isPublicKey : string -> bool) (tokenMint : option Json) :
  (if negb (truthyValue tokenMint) || negb (isStringTag (typeof tokenMint))
   then ["tokenMint is required and must be a string"]
   else
     match tokenMint with
     | Some (JString s) =>
         if isPublicKey s then []
         else ["tokenMint must be a valid Solana public key"]
     | _ => []
     end) = []
  <-> exists s, tokenMint = Some (JString s) /\ s <> "" /\ isPublicKey s = true.
Proof.
  split.
  - destruct tokenMint as [[| b | n | s | items | members]|];
      cbn [truthyValue typeof isStringTag negb orb]; try discriminate.
    + destruct b; discriminate.
    + destruct n as [q| |]; cbn; try discriminate.
      destruct (negb (Qeq_bool q 0)); discriminate.
    + destruct (s =? "")%string eqn:E; cbn; [discriminate|].
      apply String.eqb_neq in E.
      destruct (isPublicKey s) eqn:K; [|discriminate].
      intros _. exists s. repeat split; assumption.
  - intros (s & -> & Hs & K). cbn [truthyValue typeof isStringTag].
    apply String.eqb_neq in Hs. rewrite Hs, K. reflexivity.
Qed.

Lemma configErrors_nil isPublicKey looseGreater (config : Json) :
  configErrors isPublicKey looseGreater config = []
  <-> wellFormed isPublicKey config.
Proof.
  unfold configErrors, wellFormed.
  rewrite !app_nil_iff, !one_error_nil, tokenMint_nil.
  rewrite !(checkRange_nil looseGreater notPositive true notPositive_false).
  rewrite (checkRange_nil looseGreater negative false negative_false).
  rewrite notPositive_false, negative_false. reflexivity.
Qed.

Lemma validateConfig_body isPublicKey looseGreater (config : Json) :
  config <> JNull ->
  validateConfig isPublicKey looseGreater config
  = if (0 <? length (configErrors isPublicKey looseGreater config))%nat
    then inl (JsError ("Configuration validation failed:" +:+ newline
           +:+ joinWith newline (configErrors isPublicKey looseGreater config)))
    else inr config.
Proof. intros Hc. destruct config; try reflexivity. congruence. Qed.

Lemma validateConfig_throws_or_returns isPublicKey looseGreater (config : Json) :
  (exists message,
      validateConfig isPublicKey looseGreater config = inl (JsError message)
      /\ ~ wellFormed isPublicKey config)
  \/ (validateConfig isPublicKey looseGreater config = inr config
      /\ wellFormed isPublicKey config).
Proof.
  pose proof (configErrors_nil isPublicKey looseGreater config) as Hnil.
  assert (Hcase : config = JNull \/ config <> JNull).
  { destruct config; [left; reflexivity | right; discriminate ..]. }
  destruct Hcase as [->|Hc].
  - left. eexists. split; [reflexivity|].
    intros ((s & H & _) & _). discriminate.
  - rewrite (validateConfig_body _ _ _ Hc).
    destruct (configErrors isPublicKey looseGreater config) as [|e errors] eqn:E;
      cbn [length Nat.ltb Nat.leb].
    + right. split; [reflexivity | now apply Hnil].
    + left. eexists. split; [reflexivity|].
      intros H. apply Hnil in H. discriminate.
Qed.

(** X24.  [validateConfig] returns exactly when [tokenMint] is a
    non-empty string that [PublicKey] accepts, [buyAmount], [sellAmount]
    and [walletCount] are objects with numeric [min] and [max], both
    above 0 and in order, [delay] is such an object with bounds not below
    0, [cycles] is a number above 0 and [jitoTip] a number not below 0;
    it then returns the object it was given.  In every other case it
    throws an [Error]. *)
Theorem validateConfig_accepts_iff :
  forall (isPublicKey : string -> bool) (looseGreater : Json -> Json -> bool)
         (config : Json),
    (forall result,
        validateConfig isPublicKey looseGreater config = inr result
        <-> result = config /\ wellFormed isPublicKey config)
    /\ (~ wellFormed isPublicKey config ->
        exists message,
          validateConfig isPublicKey looseGreater config = inl (JsError message)).
Proof.
  intros isPublicKey looseGreater config.
  destruct (validateConfig_throws_or_returns isPublicKey looseGreater config)
    as [(message & E & Hbad) | [E Hgood]]; rewrite E.
  - split.
    + intros result. split; [discriminate | intros [_ H]; contradiction].
    + intros _. eauto.
  - split.
    + intros result. split.
      * intros H. injection H as <-. split; [reflexivity | exact Hgood].
      * intros [-> _]. reflexivity.
    + intros H. contradiction.
Qed.

(** A configuration with a fractional number of cycles, fractional
    wallet counts and an infinite tip passes validation. *)
Example validateConfig_accepts_fractions :
  let range lo hi :=
    JObject {[ "min" := JNumber (Finite lo); "max" := JNumber (Finite hi) ]} in
  let config :=
    JObject {[ "tokenMint" := JString Scenario.mint;
               "buyAmount" := range (1 # 100) (2 # 100);
               "sellAmount" := range (1 # 100) (2 # 100);
               "walletCount" := range (1 # 2) (5 # 2);
               "delay" := range 0%Q 0%Q;
               "cycles" := JNumber (Finite (5 # 2));
               "jitoTip" := JNumber PosInfinity ]} in
  validateConfig (fun _ => true) (fun _ _ => false) config = inr config.
Proof. vm_compute. reflexivity. Qed.

(** X25.  [loadConfigFromFile] returns a configuration only when the
    file exists, its text parses and the parsed value passes
    [validateConfig]; what it returns is the parsed value.  A missing
    file, a parse error and a rejected value all make it throw. *)
Theorem loadConfigFromFile_returns_iff :
  forall (isPublicKey : string -> bool) (looseGreater : Json -> Json -> bool)
         (files : gmap string string) (parse : string -> Thrown + Json)
         (configPath : string) (config : Json),
    loadConfigFromFile isPublicKey looseGreater files parse configPath = inr config
    <-> exists text,
          files !! configPath = Some text
          /\ parse text = inr config
          /\ wellFormed isPublicKey config.
Proof.
  intros isPublicKey looseGreater files parse configPath config.
  unfold loadConfigFromFile. split.
  - destruct (files !! configPath) as [text|]; [|discriminate].
    destruct (parse text) as [e|configData] eqn:P; [discriminate|].
    destruct (validateConfig_throws_or_returns isPublicKey looseGreater configData)
      as [(message & E & _) | [E Hgood]]; rewrite E; [discriminate|].
    intros H. injection H as <-. eauto.
  - intros (text & -> & -> & Hgood).
    destruct (validateConfig_throws_or_returns isPublicKey looseGreater config)
      as [(message & E & Hbad) | [E _]]; [contradiction | exact E].
Qed.

(** X26.  [validateConfig] reads seven members and nothing else: setting
    or changing any other member of an object, [dryRun] included, changes
    neither whether it is accepted nor the message it is rejected with. *)
Theorem validateConfig_reads_seven_members :
  forall (isPublicKey : string -> bool) (looseGreater : Json -> Json -> bool)
         (members : gmap string Json) (key : string) (value : Json),
    key ∉ validatedKeys ->
    configErrors isPublicKey looseGreater (JObject (<[key := value]> members))
    = configErrors isPublicKey looseGreater (JObject members)
    /\ match validateConfig isPublicKey looseGreater (JObject members) with
       | inr _ =>
           validateConfig isPublicKey looseGreater (JObject (<[key := value]> members))
           = inr (JObject (<[key := value]> members))
       | inl e =>
           validateConfig isPublicKey looseGreater (JObject (<[key := value]> members))
           = inl e
       end.
Proof.
  intros isPublicKey looseGreater members key value Hkey.
  assert (Hget : forall k, k ∈ validatedKeys ->
            get (JObject (<[key := value]> members)) k = get (JObject members) k).
  { intros k Hk. cbn [get]. apply lookup_insert_ne. intros ->. contradiction. }
  assert (Herrors :
    configErrors isPublicKey looseGreater (JObject (<[key := value]> members))
    = configErrors isPublicKey looseGreater (JObject members)).
  { unfold configErrors.
    rewrite !Hget by (unfold validatedKeys; set_solver). reflexivity. }
  split; [exact Herrors|].
  rewrite !validateConfig_body by discriminate. rewrite Herrors.
  destruct (0 <? length (configErrors isPublicKey looseGreater (JObject members)))%nat;
    reflexivity.
Qed.

Lemma validateConfig_reads_seven_members_witness :
  ("dryRun" ∉ validatedKeys)
  /\ configErrors (fun _ => true) (fun _ _ => false)
       (JObject (<["dryRun" := JString "yes"]> ∅))
     = configErrors (fun _ => true) (fun _ _ => false) (JObject ∅).
Proof.
  assert (H : "dryRun" ∉ validatedKeys).
  { unfold validatedKeys. rewrite !not_elem_of_cons. repeat split;
      [discriminate .. | apply not_elem_of_nil]. }
  split; [exact H|].
  apply (validateConfig_reads_seven_members (fun _ => true) (fun _ _ => false)
           ∅ "dryRun" (JString "yes") H).
Defined.

End ConfigExtras.

(** ** Start-up *)

Module LoadingExtras.
Import Types ConfigLoading.

Lemma unset_false env varName : unset env varName = false <-> isSet env varName.
Proof.
  unfold unset, isSet. destruct (env !! varName) as [value|].
  - rewrite String.eqb_neq. split; [eauto | intros (v & [= <-] & H); exact H].
  - split; [discriminate | intros (v & H & _); discriminate].
Qed.

(** The loop keeps what it was given and adds the unset variables in the
    order it meets them. *)
Lemma missingLoop_filter env :
  forall vars missingVars,
    missingLoop env vars missingVars
    = missingVars ++ List.filter (unset env) vars.
Proof.
  induction vars as [|varName rest IH]; intros missingVars; cbn.
  - now rewrite app_nil_r.
  - destruct (unset env varName); rewrite IH; [now rewrite <- app_assoc|reflexivity].
Qed.

Lemma validateEnvironmentVariables_spec env :
  (validateEnvironmentVariables env = inr tt
   /\ forall varName, varName ∈ requiredVars -> isSet env varName)
  \/ (validateEnvironmentVariables env
      = inl (JsError ("Missing required environment variables: "
                      +:+ ConfigManager.joinWith ", "
                            (List.filter (unset env) requiredVars)))
      /\ exists varName, varName ∈ requiredVars /\ ~ isSet env varName).
Proof.
  unfold validateEnvironmentVariables. rewrite missingLoop_filter. cbn [app].
  destruct (List.filter (unset env) requiredVars) as [|v l] eqn:E.
  - left. split; [reflexivity|].
    intros varName Hin. apply unset_false.
    destruct (unset env varName) eqn:U; [|reflexivity].
    assert (Hf : In varName (List.filter (unset env) requiredVars)).
    { apply filter_In. split; [now apply list_elem_of_In | exact U]. }
    rewrite E in Hf. destruct Hf.
  - right. split; [reflexivity|].
    assert (Hf : In v (List.filter (unset env) requiredVars)).
    { rewrite E. now left. }
    apply filter_In in Hf as [Hin U]. exists v. split.
    + now apply list_elem_of_In.
    + intros H. apply unset_false in H. congruence.
Qed.

(** X27.  [loadConfig] returns exactly when [RPC], [SECRET_KEY] and
    [API_KEY] are all set to non-empty values, the [Connection]
    constructor and the version call succeed and the secret key decodes;
    afterwards [getConnection], [getWallet] and [getProvider] all return.
    When a required variable is unset or empty it throws, naming the
    unset ones in the order RPC, SECRET_KEY, API_KEY, and changes
    nothing. *)
Theorem loadConfig_returns_iff :
  forall (w : World) (m : Manager),
    let after := (loadConfig w m).2 in
    ((loadConfig w m).1 = inr tt
     <-> (forall varName, varName ∈ requiredVars -> isSet (env w) varName)
         /\ (exists c, newConnection w (envOr (env w) "RPC") = inr c)
         /\ (exists v, getVersion w = inr v)
         /\ (exists k, fromSecretKey w (envOr (env w) "SECRET_KEY") = inr k))
    /\ ((loadConfig w m).1 = inr tt ->
        getConnection after = inr (envOr (env w) "RPC")
        /\ fromSecretKey w (envOr (env w) "SECRET_KEY") = getWallet after
        /\ getProvider after = inr tt)
    /\ ((exists varName, varName ∈ requiredVars /\ ~ isSet (env w) varName) ->
        loadConfig w m
        = (inl (JsError ("Missing required environment variables: "
                         +:+ ConfigManager.joinWith ", "
                               (List.filter (unset (env w)) requiredVars))),
           m)).
Proof.
  intros w m. cbn zeta. unfold loadConfig.
  destruct (validateEnvironmentVariables_spec (env w))
    as [[E Hall] | [E (v & Hin & Hv)]]; rewrite E.
  - unfold initializeConnection.
    destruct (newConnection w (envOr (env w) "RPC")) as [e|[]] eqn:C.
    { cbn. split; [|split].
      - split; [discriminate|]. intros (_ & (c & Hc) & _). discriminate.
      - discriminate.
      - intros (x & Hx & Hn). exfalso. apply Hn, Hall, Hx. }
    destruct (getVersion w) as [e|version] eqn:V.
    { cbn. split; [|split].
      - split; [discriminate|]. intros (_ & _ & (x & Hx) & _). discriminate.
      - discriminate.
      - intros (x & Hx & Hn). exfalso. apply Hn, Hall, Hx. }
    unfold initializeWallet. cbn [connection wallet provider].
    destruct (fromSecretKey w (envOr (env w) "SECRET_KEY")) as [e|key] eqn:K.
    { cbn. split; [|split].
      - split; [discriminate|]. intros (_ & _ & _ & (x & Hx)). discriminate.
      - discriminate.
      - intros (x & Hx & Hn). exfalso. apply Hn, Hall, Hx. }
    unfold initializeProvider. cbn. split; [|split].
    + split; [|reflexivity]. intros _. repeat split; eauto.
    + intros _. repeat split; reflexivity.
    + intros (x & Hx & Hn). exfalso. apply Hn, Hall, Hx.
  - cbn. split; [|split].
    + split; [discriminate|]. intros (Hall & _). exfalso. apply Hv, Hall, Hin.
    + discriminate.
    + intros _. reflexivity.
Qed.

(** A manager whose version call fails keeps the connection it built:
    [loadConfig] throws and [getConnection] returns all the same. *)
Example loadConfig_keeps_untested_connection :
  let w := {| env := {[ "RPC" := "https://rpc.example"; "SECRET_KEY" := "k";
                        "API_KEY" := "a" ]};
              newConnection := fun _ => inr tt;
              getVersion := inl (JsError "fetch failed");
              fromSecretKey := fun _ => inr "Main1111";
              describe := fun _ => "Error: fetch failed" |} in
  (loadConfig w fresh).1
  = inl (JsError "Failed to connect to Solana RPC: Error: fetch failed")
  /\ getConnection (loadConfig w fresh).2 = inr "https://rpc.example"
  /\ getProvider (loadConfig w fresh).2 = inl (JsError "Provider not initialized").
Proof. cbn zeta. repeat split; vm_compute; reflexivity. Qed.

End LoadingExtras.

(** ** Log files *)

Module LoggerExtras.
Import Types.

Lemma rotateLog_unfolded (fs : Logger.Files) :
  Logger.rotateLog fs =
  let fs4 := if Logger.existsSync fs "logs/bot.log.4"
             then Logger.unlinkSync fs "logs/bot.log.4" else fs in
  let fs3 := if Logger.existsSync fs4 "logs/bot.log.3"
             then Logger.renameSync fs4 "logs/bot.log.3" "logs/bot.log.4" else fs4 in
  let fs2 := if Logger.existsSync fs3 "logs/bot.log.2"
             then Logger.renameSync fs3 "logs/bot.log.2" "logs/bot.log.3" else fs3 in
  let fs1 := if Logger.existsSync fs2 "logs/bot.log.1"
             then Logger.renameSync fs2 "logs/bot.log.1" "logs/bot.log.2" else fs2 in
  if Logger.existsSync fs1 "logs/bot.log"
  then Logger.renameSync fs1 "logs/bot.log" "logs/bot.log.1" else fs1.
Proof. reflexivity. Qed.

(** Removing a file if it exists. *)
Lemma drop_spec (fs : Logger.Files) (a : string) :
  let fs' := if Logger.existsSync fs a then Logger.unlinkSync fs a else fs in
  fs' !! a = None /\ forall p, p <> a -> fs' !! p = fs !! p.
Proof.
  cbn zeta. unfold Logger.existsSync, Logger.unlinkSync.
  destruct (fs !! a) eqn:E.
  - split; [apply lookup_delete_eq | intros p Hp; now apply lookup_delete_ne].
  - split; [exact E | reflexivity].
Qed.

(** Moving a file, if it exists, to a path that is free. *)
Lemma move_spec (fs : Logger.Files) (a b : string) :
  a <> b -> fs !! b = None ->
  let fs' := if Logger.existsSync fs a then Logger.renameSync fs a b else fs in
  fs' !! b = fs !! a /\ fs' !! a = None
  /\ forall p, p <> a -> p <> b -> fs' !! p = fs !! p.
Proof.
  intros Hab Hb. cbn zeta. unfold Logger.existsSync, Logger.renameSync.
  destruct (fs !! a) as [bytes|] eqn:E; cbn beta iota.
  - split; [apply lookup_insert_eq|]. split.
    + rewrite lookup_insert_ne by congruence. apply lookup_delete_eq.
    + intros p Hpa Hpb. rewrite lookup_insert_ne by congruence.
      now apply lookup_delete_ne.
  - split; [exact Hb|]. split; [exact E | reflexivity].
Qed.

(** How [rotateLog] moves the generations. *)
Lemma rotateLog_lookups (fs : Logger.Files) :
  let after := Logger.rotateLog fs in
  after !! "logs/bot.log" = None
  /\ after !! "logs/bot.log.1" = fs !! "logs/bot.log"
  /\ after !! "logs/bot.log.2" = fs !! "logs/bot.log.1"
  /\ after !! "logs/bot.log.3" = fs !! "logs/bot.log.2"
  /\ after !! "logs/bot.log.4" = fs !! "logs/bot.log.3"
  /\ (forall path,
        path <> "logs/bot.log" -> path <> "logs/bot.log.1" ->
        path <> "logs/bot.log.2" -> path <> "logs/bot.log.3" ->
        path <> "logs/bot.log.4" ->
        after !! path = fs !! path).
Proof.
  cbn zeta. rewrite rotateLog_unfolded. cbn zeta.
  destruct (drop_spec fs "logs/bot.log.4") as [D4 O4]. cbn zeta in D4, O4.
  set (fs4 := if Logger.existsSync fs "logs/bot.log.4"
              then Logger.unlinkSync fs "logs/bot.log.4" else fs) in *.
  destruct (move_spec fs4 "logs/bot.log.3" "logs/bot.log.4") as (M3 & D3 & O3);
    [discriminate | exact D4 |]. cbn zeta in M3, D3, O3.
  set (fs3 := if Logger.existsSync fs4 "logs/bot.log.3"
              then Logger.renameSync fs4 "logs/bot.log.3" "logs/bot.log.4"
              else fs4) in *.
  destruct (move_spec fs3 "logs/bot.log.2" "logs/bot.log.3") as (M2 & D2 & O2);
    [discriminate | exact D3 |]. cbn zeta in M2, D2, O2.
  set (fs2 := if Logger.existsSync fs3 "logs/bot.log.2"
              then Logger.renameSync fs3 "logs/bot.log.2" "logs/bot.log.3"
              else fs3) in *.
  destruct (move_spec fs2 "logs/bot.log.1" "logs/bot.log.2") as (M1 & D1 & O1);
    [discriminate | exact D2 |]. cbn zeta in M1, D1, O1.
  set (fs1 := if Logger.existsSync fs2 "logs/bot.log.1"
              then Logger.renameSync fs2 "logs/bot.log.1" "logs/bot.log.2"
              else fs2) in *.
  destruct (move_spec fs1 "logs/bot.log" "logs/bot.log.1") as (M0 & D0 & O0);
    [discriminate | exact D1 |]. cbn zeta in M0, D0, O0.
  set (fs0 := if Logger.existsSync fs1 "logs/bot.log"
              then Logger.renameSync fs1 "logs/bot.log" "logs/bot.log.1"
              else fs1) in *.
  split; [exact D0|].
  split; [rewrite M0, O1, O2, O3, O4 by discriminate; reflexivity|].
  split; [rewrite O0, M1, O2, O3, O4 by discriminate; reflexivity|].
  split; [rewrite O0, O1, M2, O3, O4 by discriminate; reflexivity|].
  split; [rewrite O0, O1, O2, M3, O4 by discriminate; reflexivity|].
  intros path P0 P1 P2 P3 P4.
  rewrite O0, O1, O2, O3, O4 by assumption. reflexivity.
Qed.

(** X28.  [rotateLog] shifts every generation of the log by one: the
    live file becomes [bot.log.1], [bot.log.k] becomes [bot.log.(k+1)]
    for k = 1, 2, 3 (a missing generation stays missing), and what was in
    [bot.log.4] is deleted.  Afterwards there is no live file, and no
    other path is touched: in particular a fifth generation is never
    written, so four old files are kept although [maxLogFiles] is 5. *)
Theorem rotateLog_shifts_generations :
  forall fs : Logger.Files,
    let after := Logger.rotateLog fs in
    after !! Logger.generation 0 = None
    /\ (forall k, (k < 4)%nat ->
          after !! Logger.generation (S k) = fs !! Logger.generation k)
    /\ (forall path,
          (forall k, (k <= 4)%nat -> path <> Logger.generation k) ->
          after !! path = fs !! path).
Proof.
  intros fs. cbn zeta.
  destruct (rotateLog_lookups fs) as (R0 & R1 & R2 & R3 & R4 & Rother).
  cbn zeta in *. split; [exact R0|]. split.
  - intros k Hk. destruct k as [|[|[|[|k]]]]; [assumption .. | lia].
  - intros path Hpath. apply Rother.
    + exact (Hpath 0%nat ltac:(lia)).
    + exact (Hpath 1%nat ltac:(lia)).
    + exact (Hpath 2%nat ltac:(lia)).
    + exact (Hpath 3%nat ltac:(lia)).
    + exact (Hpath 4%nat ltac:(lia)).
Qed.

Lemma shouldLog_rank (current level : Logger.LogLevel) :
  Logger.shouldLog current level = true <-> Logger.rank current <= Logger.rank level.
Proof.
  destruct current, level; vm_compute; split; intros H;
    first [reflexivity | discriminate | (exfalso; apply H; reflexivity)].
Qed.

(** X29.  A message below the logger's level (debug < info < warn <
    error) leaves the log files untouched.  Any other message is appended
    to the live file, which afterwards ends with that line and holds at
    most [maxLogSize] bytes plus that line: when the file had grown
    beyond [maxLogSize] it is first rotated, its content moving intact to
    [bot.log.1], and the line starts a new file. *)
Theorem log_appends_within_size_limit :
  forall (current level : Logger.LogLevel) (logLine : string)
         (fs : Logger.Files),
    let after := Logger.log current level logLine fs in
    (Logger.rank level < Logger.rank current -> after = fs)
    /\ (Logger.rank current <= Logger.rank level ->
        (exists before,
            after !! Logger.logFile = Some (before +:+ logLine)
            /\ Z.of_nat (String.length before) <= Logger.maxLogSize
            /\ (Logger.oversized fs = false ->
                before = default "" (fs !! Logger.logFile)
                /\ forall path, path <> Logger.logFile ->
                                after !! path = fs !! path)
            /\ (Logger.oversized fs = true ->
                before = ""
                /\ after !! Logger.rotated 1 = fs !! Logger.logFile))).
Proof.
  intros current level logLine fs. cbn zeta. unfold Logger.log. split.
  - intros H. destruct (Logger.shouldLog current level) eqn:E; [|reflexivity].
    apply shouldLog_rank in E. lia.
  - intros H. apply shouldLog_rank in H. rewrite H. cbn [negb].
    unfold Logger.logToFile, Logger.appendFileSync, Logger.rotateLogIfNeeded.
    destruct (Logger.oversized fs) eqn:O.
    + assert (Hex : Logger.existsSync fs Logger.logFile = true).
      { unfold Logger.oversized in O. unfold Logger.existsSync.
        destruct (fs !! Logger.logFile); [reflexivity | discriminate]. }
      rewrite Hex.
      pose proof (rotateLog_lookups fs) as (R0 & R1 & _). cbn zeta in R0, R1.
      change "logs/bot.log" with Logger.logFile in R0, R1.
      exists "". rewrite lookup_insert_eq, R0. cbn [default].
      split; [reflexivity|]. split; [vm_compute; discriminate|].
      split; [discriminate|]. intros _. split; [reflexivity|].
      rewrite lookup_insert_ne by (vm_compute; discriminate).
      exact R1.
    + exists (default "" (fs !! Logger.logFile)).
      assert (Hsame : (if Logger.existsSync fs Logger.logFile then fs else fs) = fs)
        by (destruct (Logger.existsSync fs Logger.logFile); reflexivity).
      rewrite Hsame, lookup_insert_eq. split; [reflexivity|]. split.
      * unfold Logger.oversized in O.
        destruct (fs !! Logger.logFile) as [bytes|]; cbn [default].
        -- apply Z.ltb_ge in O. exact O.
        -- vm_compute. discriminate.
      * split; [|discriminate]. intros _. split; [reflexivity|].
        intros path Hpath. now apply lookup_insert_ne.
Qed.

End LoggerExtras.

(** ** Pool lookup *)

Module PoolExtras.
Import Types PoolManager.

Lemma getPoolInfo_needs_mock_id newPublicKey tokenMint :
  (exists e, newPublicKey "mock-pool-id" = inl e) ->
  getPoolInfo newPublicKey tokenMint = None.
Proof. intros [e H]. unfold getPoolInfo. now rewrite H. Qed.

(** X30.  When the [PublicKey] constructor rejects the text
    [mock-pool-id], [getPoolInfo] returns [null] for every token, so that
    [validatePool] and [hasSufficientLiquidity] answer false and
    [getPoolLiquidity] and [getPoolPrice] return [null]; an engine that
    uses this pool manager then ends every session with the error
    [Pool not found], the session closed, before any random number is
    drawn, any wallet created or any operation launched. *)
Theorem mock_pool_is_never_found :
  forall (newPublicKey : string -> Thrown + string),
    (exists e, newPublicKey "mock-pool-id" = inl e) ->
    (forall tokenMint requiredAmount,
        getPoolInfo newPublicKey tokenMint = None
        /\ validatePool newPublicKey tokenMint = false
        /\ getPoolLiquidity newPublicKey tokenMint = None
        /\ hasSufficientLiquidity newPublicKey tokenMint requiredAmount = false
        /\ getPoolPrice newPublicKey tokenMint = None)
    /\ (forall (env : TradingEngine.Env) (s : TradingEngine.State),
          let out := TradingEngine.executeSession (withPoolManager newPublicKey env) s in
          out.1 = inl (BotError
                         ("Pool not found for token: "
                          +:+ TradingSession.tokenMint
                                (TradingSession.config (TradingEngine.session s)))
                         VALIDATION_ERROR None)
          /\ TradingEngine.launched out.2 = TradingEngine.launched s
          /\ TradingEngine.generated out.2 = TradingEngine.generated s
          /\ TradingEngine.draws out.2 = TradingEngine.draws s
          /\ TradingEngine.files out.2 = TradingEngine.files s
          /\ TradingEngine.collector out.2 = TradingEngine.collector s
          /\ TradingEngine.trace out.2 = TradingEngine.trace s
          /\ TradingEngine.isRunning out.2 = false
          /\ TradingSession.isActive (TradingEngine.session out.2) = false
          /\ TradingSession.endTime (TradingEngine.session out.2)
             = Some (TradingEngine.now s)).
Proof.
  intros newPublicKey Hmock. split.
  - intros tokenMint requiredAmount.
    pose proof (getPoolInfo_needs_mock_id newPublicKey tokenMint Hmock) as H.
    unfold validatePool, hasSufficientLiquidity, getPoolLiquidity, getPoolPrice.
    rewrite H. repeat split; reflexivity.
  - intros env s. cbn zeta.
    rewrite SessionFacts.executeSession_no_pool.
    + repeat split; reflexivity.
    + cbn [TradingEngine.getPoolInfo withPoolManager].
      now rewrite (getPoolInfo_needs_mock_id newPublicKey _ Hmock).
Qed.

Lemma mock_pool_is_never_found_witness :
  (exists e, rejectHyphen "mock-pool-id" = inl e)
  /\ getPoolInfo rejectHyphen Scenario.mint = None.
Proof.
  assert (H : exists e, rejectHyphen "mock-pool-id" = inl e).
  { eexists. vm_compute. reflexivity. }
  split; [exact H|].
  apply (mock_pool_is_never_found rejectHyphen H).
  exact 0%Q.
Defined.

End PoolExtras.
